(** * Safety-risk classifier notebooks: ETL, splitter and feature engine

    A shallow embedding of the pandas code of the ETL notebook (record
    normalisation, aggregation by location, median-based Risk label), of
    the feature-engineering notebook (label filter, two-stage split,
    [engineer_features], features and labels recombined) and of the
    data-loading cells of the two modelling notebooks.

    Numbers are modelled as the code has them: [float64] cells are Rocq's
    primitive binary64 floats (NaN is pandas' missing-value marker), [int64]
    cells are integers in [Z], and a DataFrame is a dictionary from column
    names to typed columns together with its row index. *)

From Stdlib Require Import ZArith Floats.
From stdpp Require Import base option list sorting gmap strings.

Local Open Scope Z_scope.

(** ** float64 arithmetic *)

Module F64.

(** The conversion numpy applies when an [int64] value meets a [float64]
    one: round to the nearest binary64 value, ties to even. *)
Definition of_int (z : Z) : float :=
  SF2Prim (binary_normalize prec emax z 0 false).

Definition isnull (x : float) : bool := PrimFloat.is_nan x.
Definition notnull (x : float) : bool := negb (isnull x).

(** [Series.fillna(v)] on one cell. *)
Definition fillna (v x : float) : float := if isnull x then v else x.

(** [Series.replace(0, 1)] on one cell: both signed zeros compare equal
    to [0]; NaN does not. *)
Definition replace_zero_one (x : float) : float :=
  if PrimFloat.eqb x 0 then 1%float else x.

End F64.

(** ** Signs of float64 values

    The values of a float64 cell, as the IEEE 754 specification of the
    primitive floats classifies them. *)

Module SF.

Definition SFnan (s : spec_float) : bool :=
  match s with
  | S754_nan => true
  | _ => false
  end.

(** A number whose sign bit is clear: [+0], a positive number or plus
    infinity. *)
Definition SFnonneg (s : spec_float) : bool :=
  match s with
  | S754_zero b | S754_infinity b | S754_finite b _ _ => negb b
  | S754_nan => false
  end.

(** A number or NaN, but nothing below zero. *)
Definition SFnonneg_or_nan (s : spec_float) : bool := SFnan s || SFnonneg s.

End SF.

(** ** Exceptions *)

Inductive exn :=
  | KeyError (c : string)
  | TypeError
  | ValueError
  | IndexError.

Inductive result (A : Type) :=
  | Ok (a : A)
  | Raise (e : exn).
Arguments Ok {A} a.
Arguments Raise {A} e.

#[global] Instance result_ret : MRet result := fun A a => Ok a.
#[global] Instance result_bind : MBind result := fun A B f r =>
  match r with
  | Ok a => f a
  | Raise e => Raise e
  end.

(** ** Columns and frames *)

(** A column carries its dtype. [Object] holds the strings of the raw feed
    ([None] is a missing value), [Datetime64] holds nanoseconds since the
    epoch ([None] is NaT). *)
Inductive Column :=
  | Object (xs : list (option string))
  | Float64 (xs : list float)
  | Int64 (xs : list Z)
  | Datetime64 (xs : list (option Z)).

(** The cell of a column at a position, for row-wise statements. *)
Inductive scalar :=
  | Str (s : string)
  | Flt (f : float)
  | Int (z : Z)
  | Timestamp (ns : Z)
  | Missing.

Record DataFrame := mkFrame {
  index : list Z;
  columns : gmap string Column
}.

Module Series.

Definition wrap64 (z : Z) : Z := (z + 2 ^ 63) mod 2 ^ 64 - 2 ^ 63.

Definition length (c : Column) : nat :=
  match c with
  | Object xs => List.length xs
  | Float64 xs => List.length xs
  | Int64 xs => List.length xs
  | Datetime64 xs => List.length xs
  end.

Definition cell (c : Column) (i : nat) : option scalar :=
  match c with
  | Object xs => from_option Str Missing <$> xs !! i
  | Float64 xs => Flt <$> xs !! i
  | Int64 xs => Int <$> xs !! i
  | Datetime64 xs => from_option Timestamp Missing <$> xs !! i
  end.

(** The cells of a column, in order. *)
Definition cells (c : Column) : list scalar :=
  match c with
  | Object xs => from_option Str Missing <$> xs
  | Float64 xs => Flt <$> xs
  | Int64 xs => Int <$> xs
  | Datetime64 xs => from_option Timestamp Missing <$> xs
  end.

(** Numeric columns as float64 values; arithmetic on strings or dates
    raises. *)
Definition astype_float (c : Column) : result (list float) :=
  match c with
  | Float64 xs => Ok xs
  | Int64 zs => Ok (F64.of_int <$> zs)
  | _ => Raise TypeError
  end.

(** [a * b]: int64 stays int64 (with wrap-around), anything else is
    computed in float64. Operands of one frame share its index, so the
    alignment is positional. *)
Definition mul (a b : Column) : result Column :=
  match a, b with
  | Int64 xs, Int64 ys => Ok (Int64 (zip_with (fun x y => wrap64 (x * y)) xs ys))
  | _, _ =>
      xs ← astype_float a; ys ← astype_float b;
      Ok (Float64 (zip_with PrimFloat.mul xs ys))
  end.

(** [s.abs()] *)
Definition abs (a : Column) : result Column :=
  match a with
  | Int64 xs => Ok (Int64 ((fun x => wrap64 (Z.abs x)) <$> xs))
  | Float64 xs => Ok (Float64 (PrimFloat.abs <$> xs))
  | _ => Raise TypeError
  end.

(** [s.replace(0, 1)] *)
Definition replace_zero_one (a : Column) : Column :=
  match a with
  | Int64 xs => Int64 ((fun x => if x =? 0 then 1 else x) <$> xs)
  | Float64 xs => Float64 (F64.replace_zero_one <$> xs)
  | _ => a
  end.

(** [a / b]: true division, always in float64. *)
Definition truediv (a b : Column) : result Column :=
  xs ← astype_float a; ys ← astype_float b;
  Ok (Float64 (zip_with PrimFloat.div xs ys)).

(** [s.fillna(v)] for a float [v]. An int64 column has no missing value.
    On the columns of strings or dates the notebooks never call it; the
    arithmetic that follows each call would raise there. *)
Definition fillna (v : float) (a : Column) : result Column :=
  match a with
  | Float64 xs => Ok (Float64 (F64.fillna v <$> xs))
  | Int64 xs => Ok (Int64 xs)
  | _ => Raise TypeError
  end.

(** [s - v] for a float [v]. *)
Definition sub_scalar (a : Column) (v : float) : result Column :=
  xs ← astype_float a; Ok (Float64 ((fun x => x - v)%float <$> xs)).

(** [s ** 2] *)
Definition square (a : Column) : result Column :=
  xs ← astype_float a; Ok (Float64 ((fun x => x * x)%float <$> xs)).

(** [a + b] *)
Definition add (a b : Column) : result Column :=
  match a, b with
  | Int64 xs, Int64 ys => Ok (Int64 (zip_with (fun x y => wrap64 (x + y)) xs ys))
  | _, _ =>
      xs ← astype_float a; ys ← astype_float b;
      Ok (Float64 (zip_with PrimFloat.add xs ys))
  end.

(** [np.sqrt(s)] *)
Definition sqrt (a : Column) : result Column :=
  xs ← astype_float a; Ok (Float64 (PrimFloat.sqrt <$> xs)).

(** [s.notnull()] *)
Definition notnull (a : Column) : list bool :=
  match a with
  | Object xs => (fun o => bool_decide (is_Some o)) <$> xs
  | Float64 xs => F64.notnull <$> xs
  | Int64 xs => (fun _ => true) <$> xs
  | Datetime64 xs => (fun o => bool_decide (is_Some o)) <$> xs
  end.

(** Boolean-mask selection on a list of cells. *)
Fixpoint mask {A} (m : list bool) (xs : list A) : list A :=
  match m, xs with
  | b :: m', x :: xs' => if b then x :: mask m' xs' else mask m' xs'
  | _, _ => []
  end.

Definition mask_column (m : list bool) (a : Column) : Column :=
  match a with
  | Object xs => Object (mask m xs)
  | Float64 xs => Float64 (mask m xs)
  | Int64 xs => Int64 (mask m xs)
  | Datetime64 xs => Datetime64 (mask m xs)
  end.

(** Positional selection. *)
Definition take {A} (pos : list nat) (xs : list A) : list A :=
  omap (fun i => xs !! i) pos.

(** Positions that exist in a list of [n] cells. *)
Definition in_range (n : nat) (pos : list nat) : Prop :=
  Forall (fun i => (i < n)%nat) pos.

Definition take_column (pos : list nat) (a : Column) : Column :=
  match a with
  | Object xs => Object (take pos xs)
  | Float64 xs => Float64 (take pos xs)
  | Int64 xs => Int64 (take pos xs)
  | Datetime64 xs => Datetime64 (take pos xs)
  end.

(** [s.isin(values).astype(int)]: a missing cell is in no list, and a
    numeric or date cell equals none of the strings. *)
Definition isin_int (values : list string) (a : Column) : Column :=
  match a with
  | Object xs =>
      Int64 ((fun o => match o with
                       | Some v => if bool_decide (v ∈ values) then 1 else 0
                       | None => 0
                       end) <$> xs)
  | _ => Int64 (replicate (length a) 0)
  end.

(** Ascending order of float64 values. *)
Definition sort_floats (xs : list float) : list float :=
  merge_sort (fun x y => Is_true (PrimFloat.leb x y)) xs.

(** The median of the values present: the middle one of the sorted
    values, or the mean of the two middle ones; NaN when there is none. *)
Definition median_floats (xs : list float) : float :=
  let s := sort_floats xs in
  let n := List.length s in
  if (n =? 0)%nat then nan
  else if Nat.odd n then default nan (s !! (n / 2)%nat)
  else ((default nan (s !! (n / 2 - 1)%nat) + default nan (s !! (n / 2)%nat)) / 2)%float.

(** [s.median()]: computed in float64, skipping NaN. *)
Definition median (a : Column) : result float :=
  match a with
  | Int64 zs => Ok (median_floats (F64.of_int <$> zs))
  | Float64 xs => Ok (median_floats (List.filter F64.notnull xs))
  | _ => Raise TypeError
  end.

(** [s > v] for a float [v]. *)
Definition gt_scalar (a : Column) (v : float) : result (list bool) :=
  xs ← astype_float a; Ok (List.map (fun x => PrimFloat.ltb v x) xs).

(** [b.astype(int)] for a boolean column. *)
Definition astype_int (bs : list bool) : Column :=
  Int64 ((fun b : bool => if b then 1 else 0) <$> bs).

(** [s.isnull().sum()] *)
Definition isnull_sum (a : Column) : Z :=
  Z.of_nat (List.length (List.filter negb (notnull a))).

(** The position of the [q]-th row that a mask keeps. *)
Fixpoint nth_true (m : list bool) (q : nat) : option nat :=
  match m with
  | [] => None
  | true :: m' =>
      match q with
      | O => Some O
      | S q' => S <$> nth_true m' q'
      end
  | false :: m' => S <$> nth_true m' q
  end.

(** A cell that holds a value. *)
Definition scalar_notnull (v : scalar) : bool :=
  match v with
  | Missing => false
  | Flt f => F64.notnull f
  | _ => true
  end.

End Series.

Module Frame.

Definition nrows (df : DataFrame) : nat := List.length (index df).

(** [df[c]] *)
Definition getitem (df : DataFrame) (c : string) : result Column :=
  match columns df !! c with
  | Some s => Ok s
  | None => Raise (KeyError c)
  end.

(** [df[c] = s] *)
Definition setitem (df : DataFrame) (c : string) (s : Column) : DataFrame :=
  mkFrame (index df) (<[c := s]> (columns df)).

(** [df[[c1; ...; cn]]]: raises on the first absent column. *)
Definition select (cs : list string) (df : DataFrame) : result DataFrame :=
  match List.find (fun c => bool_decide (columns df !! c = None)) cs with
  | Some c => Raise (KeyError c)
  | None => Ok (mkFrame (index df) (filter (fun kv => kv.1 ∈ cs) (columns df)))
  end.

(** [df.drop(columns=[c])] *)
Definition drop (c : string) (df : DataFrame) : result DataFrame :=
  match columns df !! c with
  | Some _ => Ok (mkFrame (index df) (delete c (columns df)))
  | None => Raise (KeyError c)
  end.

(** [df[m]] for a boolean mask over the rows. *)
Definition mask_rows (m : list bool) (df : DataFrame) : DataFrame :=
  mkFrame (Series.mask m (index df)) (Series.mask_column m <$> columns df).

(** [df.iloc[pos]] *)
Definition take_rows (pos : list nat) (df : DataFrame) : result DataFrame :=
  if forallb (fun i => bool_decide (i < nrows df)%nat) pos
  then Ok (mkFrame (Series.take pos (index df)) (Series.take_column pos <$> columns df))
  else Raise IndexError.

(** Every column is as long as the index, as in every pandas frame. *)
Definition wf (df : DataFrame) : Prop :=
  map_Forall (fun _ c => Series.length c = nrows df) (columns df).


End Frame.

(** More operations on frames, as the feature-engineering and the
    modelling notebooks use them. *)

Module FrameOps.

(** The default index [0 .. n-1]. *)
Definition range_index (n : nat) : list Z := Z.of_nat <$> seq 0 n.

(** [X.reset_index(drop=True)] *)
Definition reset_index_drop (X : DataFrame) : DataFrame :=
  mkFrame (range_index (Frame.nrows X)) (columns X).

(** The cell of column [c] in row [j] of a frame. *)
Definition frame_cell (df : DataFrame) (c : string) (j : nat) : option scalar :=
  columns df !! c ≫= (fun s => Series.cell s j).

(** [df.dropna()]: the rows without a missing value in any column. *)
Definition notnull_all (df : DataFrame) : list bool :=
  map_fold (fun _ c m => zip_with andb (Series.notnull c) m)
    (replicate (Frame.nrows df) true) (columns df).

Definition dropna_any (df : DataFrame) : DataFrame :=
  Frame.mask_rows (notnull_all df) df.

End FrameOps.

(** ** Frames as mutable objects

    [engineer_features] assigns columns of the frame it is handed, so a
    frame variable is a reference into a store of frame objects. A failing
    statement leaves the assignments made before it in place. *)

Module Heap.

Abbreviation loc := positive.
Abbreviation heap := (gmap positive DataFrame).

Definition M (A : Type) : Type := heap -> result A * heap.

#[global] Instance M_ret : MRet M := fun A a σ => (Ok a, σ).
#[global] Instance M_bind : MBind M := fun A B f m σ =>
  match m σ with
  | (Ok a, σ') => f a σ'
  | (Raise e, σ') => (Raise e, σ')
  end.

Definition lift {A} (r : result A) : M A := fun σ => (r, σ).

(** Dereference a frame variable. Python references never dangle; an
    unbound one is reported as a [KeyError] on the empty name. *)
Definition deref (l : loc) : M DataFrame := fun σ =>
  match σ !! l with
  | Some df => (Ok df, σ)
  | None => (Raise (KeyError ""), σ)
  end.

(** [df[c]] *)
Definition getitem (l : loc) (c : string) : M Column :=
  df ← deref l; lift (Frame.getitem df c).

Definition store (l : loc) (df : DataFrame) : M unit :=
  fun σ => (Ok (), <[l := df]> σ).

Definition alloc (df : DataFrame) : M loc :=
  fun σ => let l := fresh (dom σ) in (Ok l, <[l := df]> σ).

(** [df[c] = s]: updates the object in place. *)
Definition setitem (l : loc) (c : string) (s : Column) : M unit :=
  df ← deref l; store l (Frame.setitem df c s).

(** [df.copy()]: a new object with the same contents. *)
Definition copy (l : loc) : M loc :=
  df ← deref l; alloc df.

(** A computation that assigns to no frame object but [l]. *)
Definition only_writes {A} (l : loc) (m : M A) : Prop :=
  forall σ r σ', m σ = (r, σ') -> forall l', l' <> l -> σ' !! l' = σ !! l'.

End Heap.

(** ** ETL notebook: normaliser, aggregator and labeler *)

Module ETL.

(** One record of the feed: a JSON object whose values are strings; a
    field without a value is absent. *)
Abbreviation record := (gmap string string).

(** [pd.DataFrame.from_records(results)]: one column per key that occurs
    in some record, a missing value where a record lacks the key, and the
    index [0 .. n-1]. *)
Definition from_records (results : list record) : DataFrame :=
  let keys : gset string := ⋃ (dom <$> results) in
  mkFrame (Z.of_nat <$> seq 0 (List.length results))
    (map_imap (fun k _ => Some (Object ((fun r : record => r !! k) <$> results)))
       (gset_to_gmap () keys)).

Definition violent_crimes : list string :=
  ["HOMICIDE"; "ASSAULT"; "BATTERY"; "ROBBERY"; "CRIM SEXUAL ASSAULT"].

Definition ns_per_hour : Z := 3600 * 1000000000.
Definition ns_per_day : Z := 24 * ns_per_hour.

(** [dt.hour] and [dt.dayofweek] (Monday=0; the epoch was a Thursday). *)
Definition hour (ns : Z) : Z := (ns / ns_per_hour) mod 24.
Definition dayofweek (ns : Z) : Z := (ns / ns_per_day + 3) mod 7.

(** A date accessor on a column: int values when every date is present,
    float64 with NaN at the missing ones otherwise. *)
Definition dt (f : Z -> Z) (a : Column) : result Column :=
  match a with
  | Datetime64 xs =>
      if forallb (fun o : option Z => bool_decide (is_Some o)) xs
      then Ok (Int64 ((fun o => f (default 0 o)) <$> xs))
      else Ok (Float64 ((fun o => from_option (fun ns => F64.of_int (f ns)) nan o) <$> xs))
  | _ => Raise TypeError
  end.

(** [df.dropna(subset=cs)]: keep the rows with a value in every column
    of [cs]. *)
Fixpoint notnull_mask (cs : list string) (df : DataFrame) : result (list bool) :=
  match cs with
  | [] => Ok (replicate (Frame.nrows df) true)
  | c :: cs' =>
      s ← Frame.getitem df c;
      m ← notnull_mask cs' df;
      Ok (zip_with andb (Series.notnull s) m)
  end.

Definition dropna (cs : list string) (df : DataFrame) : result DataFrame :=
  m ← notnull_mask cs df; Ok (Frame.mask_rows m df).

(** A numeric literal as pandas reads it: an integer literal is an
    int64 value, any other number a float64 value. *)
Inductive numeral :=
  | Integer (z : Z)
  | Decimal (f : float).

(** The float64 value of a literal, and its int64 value when it is an
    integer literal. *)
Definition numeral_float (n : numeral) : float :=
  match n with
  | Integer z => F64.of_int z
  | Decimal f => f
  end.

Definition numeral_int (n : numeral) : option Z :=
  match n with
  | Integer z => Some z
  | Decimal _ => None
  end.

(** The first string of a column of strings, from which pandas takes
    the date format of the whole column. *)
Definition first_string (xs : list (option string)) : string :=
  default "" (head (omap id xs)).

Section Normalizer.

(** The string parsers of pandas. [parse_numeric s] is the number the
    string [s] denotes, [None] when it denotes none.
    [parse_datetime first s] is the timestamp, in nanoseconds since the
    epoch, that [pd.to_datetime] reads from [s] in a column whose first
    date string is [first]; [None] when it raises on [s]. The format of
    a column is inferred from its first date and every date is read in
    that format, so a string that is a date on its own can be rejected
    after a first date of another format. *)
Variable parse_numeric : string -> option numeral.
Variable parse_datetime : string -> string -> option Z.

(** [pd.to_numeric(s, errors="coerce")] on a column of strings. What
    cannot be parsed becomes NaN, and so does a missing value. The
    result is an int64 column when every cell is an integer literal
    (also when there is no cell), and a float64 column otherwise. *)
Definition to_numeric_cell (o : option string) : float :=
  default nan (numeral_float <$> (o ≫= parse_numeric)).

Definition to_int_cell (o : option string) : option Z :=
  (o ≫= parse_numeric) ≫= numeral_int.

Definition numeric_column (xs : list (option string)) : Column :=
  if forallb (fun o => bool_decide (is_Some (to_int_cell o))) xs
  then Int64 ((fun o => default 0 (to_int_cell o)) <$> xs)
  else Float64 (to_numeric_cell <$> xs).

Definition to_numeric (a : Column) : result Column :=
  match a with
  | Object xs => Ok (numeric_column xs)
  | Float64 xs => Ok (Float64 xs)
  | Int64 xs => Ok (Int64 xs)
  | Datetime64 _ => Raise TypeError
  end.

(** [pd.to_datetime(s)] on a column of strings: every date is read in
    the format of the first one; it raises on a string that is not a
    date in that format; a missing value becomes NaT. *)
Fixpoint to_datetime_cells_in (first : string) (xs : list (option string))
    : result (list (option Z)) :=
  match xs with
  | [] => Ok []
  | None :: xs' => ts ← to_datetime_cells_in first xs'; Ok (None :: ts)
  | Some v :: xs' =>
      match parse_datetime first v with
      | Some ns => ts ← to_datetime_cells_in first xs'; Ok (Some ns :: ts)
      | None => Raise ValueError
      end
  end.

Definition to_datetime_cells (xs : list (option string)) : result (list (option Z)) :=
  to_datetime_cells_in (first_string xs) xs.

Definition to_datetime (a : Column) : result Column :=
  match a with
  | Object xs => ts ← to_datetime_cells xs; Ok (Datetime64 ts)
  | Datetime64 xs => Ok (Datetime64 xs)
  | _ => Raise TypeError
  end.

(** Step 5 of the notebook, on the frame of raw records. The frame it
    works on is its own copy of the selected columns. *)
Definition clean (df : DataFrame) : result DataFrame :=
  df ← Frame.select ["date"; "latitude"; "longitude"; "primary_type"] df;
  lat ← Frame.getitem df "latitude";
  lat ← to_numeric lat;
  let df := Frame.setitem df "latitude" lat in
  lon ← Frame.getitem df "longitude";
  lon ← to_numeric lon;
  let df := Frame.setitem df "longitude" lon in
  df ← dropna ["latitude"; "longitude"] df;
  date ← Frame.getitem df "date";
  date ← to_datetime date;
  let df := Frame.setitem df "date" date in
  date ← Frame.getitem df "date";
  h ← dt hour date;
  let df := Frame.setitem df "Hour" h in
  date ← Frame.getitem df "date";
  d ← dt dayofweek date;
  let df := Frame.setitem df "DayOfWeek" d in
  pt ← Frame.getitem df "primary_type";
  Ok (Frame.setitem df "IsViolent" (Series.isin_int violent_crimes pt)).

(** The normaliser on the sequence of raw records. *)
Definition normalize (results : list record) : result DataFrame :=
  clean (from_records results).

End Normalizer.

(** *** Aggregation by location *)

(** The values of a key column. The cleaning cell makes each coordinate
    column a float64 or an int64 column; NaN is the missing value of
    the first, the second has none. *)
Class Coord (A : Type) := {
  coord_notnull : A -> bool;
  coord_eqb : A -> A -> bool;
  coord_ltb : A -> A -> bool;
  coord_leb : A -> A -> bool;
  coord_column : list A -> Column
}.

#[global] Instance float_coord : Coord float := {|
  coord_notnull := F64.notnull;
  coord_eqb := PrimFloat.eqb;
  coord_ltb := PrimFloat.ltb;
  coord_leb := PrimFloat.leb;
  coord_column := Float64
|}.

#[global] Instance int_coord : Coord Z := {|
  coord_notnull := fun _ => true;
  coord_eqb := Z.eqb;
  coord_ltb := Z.ltb;
  coord_leb := Z.leb;
  coord_column := Int64
|}.

(** Equality of key values is an equivalence on the values present. *)
Definition coord_laws (A : Type) `{Coord A} : Prop :=
  (forall x : A, coord_notnull x = true -> coord_eqb x x = true) /\
  (forall x y : A, coord_eqb x y = true -> coord_eqb y x = true) /\
  (forall x y z : A, coord_eqb x y = true -> coord_eqb y z = true ->
                     coord_eqb x z = true) /\
  (forall x y : A, coord_eqb x y = true -> coord_notnull x = true).

Definition key (A B : Type) : Type := (A * B)%type.

(** An incident as the aggregation sees it: its location, whether its
    [primary_type] is present, and its [IsViolent] value. *)
Definition incident (A B : Type) : Type := (key A B * (bool * Z))%type.

(** The label pandas gives a value of a key column: the first cell of
    the column that equals it (of [0.0] and [-0.0], the one that comes
    first). *)
Definition canon {A} `{Coord A} (xs : list A) (x : A) : A :=
  default x (List.find (fun y => coord_eqb y x) xs).

Section Grouping.

Context {A B : Type} `{Coord A} `{Coord B}.

Definition key_notnull (k : key A B) : bool :=
  coord_notnull k.1 && coord_notnull k.2.

(** Two incidents are at one location when both coordinates are equal
    as numbers. *)
Definition key_eqb (a b : key A B) : bool :=
  coord_eqb a.1 b.1 && coord_eqb a.2 b.2.

(** Groups come out ordered by latitude, then longitude. *)
Definition key_leb (a b : key A B) : bool :=
  coord_ltb a.1 b.1 || (coord_eqb a.1 b.1 && coord_leb a.2 b.2).

(** The distinct keys, each at its first occurrence. *)
Fixpoint group_keys (ks : list (key A B)) : list (key A B) :=
  match ks with
  | [] => []
  | k :: ks' => k :: List.filter (fun k' => negb (key_eqb k k')) (group_keys ks')
  end.

Definition group (k : key A B) (rows : list (incident A B)) : list (incident A B) :=
  List.filter (fun r => key_eqb k r.1) rows.

(** [("primary_type", "count")]: the number of values present. *)
Definition count (g : list (incident A B)) : Z :=
  Z.of_nat (List.length (List.filter (fun r : incident A B => r.2.1) g)).

(** [("IsViolent", "sum")] over the 0/1 indicator the cleaning cell
    makes. A frame in memory has fewer than [2^63] rows, so the int64
    sum of indicators does not wrap, and it is the sum of the integers;
    what is stated of [sum] is stated of indicators. *)
Definition sum (g : list (incident A B)) : Z :=
  foldr Z.add 0 ((fun r : incident A B => r.2.2) <$> g).

(** An indicator that is set only where the category is present. *)
Definition indicator (r : incident A B) : Prop :=
  0 <= r.2.2 <= (if r.2.1 then 1 else 0).

(** The incidents that belong to a group: those whose key has no
    missing coordinate. *)
Definition incidents (lat : list A) (lon : list B) (present : list bool)
    (viol : list Z) : list (incident A B) :=
  List.filter (fun r : incident A B => key_notnull r.1)
    (zip (zip lat lon) (zip present viol)).

(** The label of a group: each coordinate as its own column labels it. *)
Definition label (lat : list A) (lon : list B) (k : key A B) : key A B :=
  (canon lat k.1, canon lon k.2).

(** The group labels in the order of the output rows. *)
Definition sorted_keys (lat : list A) (lon : list B) (rows : list (incident A B))
    : list (key A B) :=
  merge_sort (fun a b => Is_true (key_leb a b))
    (label lat lon <$> group_keys (fst <$> rows)).

(** The frame of the groups: one row per location, under the default
    index. *)
Definition aggregate_by (lat : list A) (lon : list B) (present : list bool)
    (viol : list Z) : DataFrame :=
  let rows := incidents lat lon present viol in
  let keys := sorted_keys lat lon rows in
  mkFrame (Z.of_nat <$> seq 0 (List.length keys))
    (<["ViolentCount" := Int64 ((fun k => sum (group k rows)) <$> keys)]>
     (<["CrimeCount" := Int64 ((fun k => count (group k rows)) <$> keys)]>
     (<["longitude" := coord_column (snd <$> keys)]>
     (<["latitude" := coord_column (fst <$> keys)]> ∅)))).

(** The number of keys of a list that are the location [k0]. *)
Definition matches (k0 : key A B) (keys : list (key A B)) : nat :=
  List.length (List.filter (fun k => key_eqb k k0) keys).

(** A total over incidents. *)
Definition total (w : incident A B -> Z) (g : list (incident A B)) : Z :=
  foldr Z.add 0 (w <$> g).

End Grouping.

(** [df.groupby(["latitude", "longitude"]).agg(...).reset_index()] on
    the columns the cleaning cell makes: numeric coordinates and the
    int64 indicator [IsViolent]. Rows with a NaN coordinate belong to
    no group. Key columns of strings or dates and an [IsViolent] column
    of another dtype are not modelled; [TypeError] stands for them. *)
Definition aggregate (df : DataFrame) : result DataFrame :=
  lat ← Frame.getitem df "latitude";
  lon ← Frame.getitem df "longitude";
  pt ← Frame.getitem df "primary_type";
  viol ← Frame.getitem df "IsViolent";
  match viol with
  | Int64 viol =>
      let present := Series.notnull pt in
      match lat, lon with
      | Float64 lat, Float64 lon => Ok (aggregate_by lat lon present viol)
      | Float64 lat, Int64 lon => Ok (aggregate_by lat lon present viol)
      | Int64 lat, Float64 lon => Ok (aggregate_by lat lon present viol)
      | Int64 lat, Int64 lon => Ok (aggregate_by lat lon present viol)
      | _, _ => Raise TypeError
      end
  | _ => Raise TypeError
  end.

(** *** The Risk label *)

Definition label_risk (location_counts : DataFrame) : result DataFrame :=
  cc ← Frame.getitem location_counts "CrimeCount";
  median_count ← Series.median cc;
  cc ← Frame.getitem location_counts "CrimeCount";
  above ← Series.gt_scalar cc median_count;
  Ok (Frame.setitem location_counts "Risk" (Series.astype_int above)).

(** Step 6 of the notebook. *)
Definition aggregate_and_label (df : DataFrame) : result DataFrame :=
  location_counts ← aggregate df; label_risk location_counts.

(** *** The feed, record by record *)

(** The columns Step 5 selects. *)
Definition raw_columns : list string :=
  ["date"; "latitude"; "longitude"; "primary_type"].

(** The four raw columns occur in the feed. *)
Definition has_raw_columns (results : list record) : Prop :=
  Forall (fun k => Exists (fun r : record => is_Some (r !! k)) results) raw_columns.

(** The IsViolent indicator of a record. *)
Definition is_violent (r : record) : Z :=
  match r !! "primary_type" with
  | Some t => if bool_decide (t ∈ violent_crimes) then 1 else 0
  | None => 0
  end.

Section Feed.

Variable parse_numeric : string -> option numeral.
Variable parse_datetime : string -> string -> option Z.

(** The mask of the rows the normaliser keeps. *)
Definition kept_mask (lat lon : list (option string)) : list bool :=
  zip_with andb (F64.notnull <$> (to_numeric_cell parse_numeric <$> lat))
    (F64.notnull <$> (to_numeric_cell parse_numeric <$> lon)).

(** A record stays when both its coordinates parse to a number. *)
Definition kept (r : record) : bool :=
  F64.notnull (to_numeric_cell parse_numeric (r !! "latitude")) &&
  F64.notnull (to_numeric_cell parse_numeric (r !! "longitude")).

(** The first date among the records kept: the one that fixes the
    format. *)
Definition feed_first_date (results : list record) : string :=
  first_string ((fun r : record => r !! "date") <$> List.filter kept results).

(** The parsed date of a record in a feed; [None] is NaT. *)
Definition date_of (results : list record) (r : record) : option Z :=
  r !! "date" ≫= parse_datetime (feed_first_date results).

(** A coordinate of a record, as a float64 and as an int64 value. *)
Definition float_of (field : string) (r : record) : float :=
  to_numeric_cell parse_numeric (r !! field).

Definition int_of (field : string) (r : record) : Z :=
  default 0 (to_int_cell parse_numeric (r !! field)).

(** Every record of the feed has an integer literal in the field. *)
Definition all_int (field : string) (results : list record) : bool :=
  forallb (fun r : record => bool_decide (is_Some (to_int_cell parse_numeric (r !! field))))
    results.

(** The coordinate column of the records [K] kept from the feed: int64
    when the whole feed has integer literals there, float64 otherwise. *)
Definition coordinate (field : string) (results K : list record) : Column :=
  if all_int field results then Int64 (int_of field <$> K)
  else Float64 (float_of field <$> K).

(** The frame the normaliser makes of the records it keeps, given its
    date, Hour and DayOfWeek columns. *)
Definition normalized (results : list record) (ts : list (option Z)) (h d : Column)
    : DataFrame :=
  let K := List.filter kept results in
  mkFrame (Series.mask (kept <$> results) (Z.of_nat <$> seq 0 (List.length results)))
    (<["IsViolent" := Int64 (is_violent <$> K)]>
     (<["DayOfWeek" := d]>
     (<["Hour" := h]>
     (<["date" := Datetime64 ts]>
     (<["primary_type" := Object ((fun r : record => r !! "primary_type") <$> K)]>
     (<["longitude" := coordinate "longitude" results K]>
     (<["latitude" := coordinate "latitude" results K]> ∅))))))).

End Feed.

(** The incident the aggregator sees in a record, given the values of
    its coordinates. *)
Definition incident_of {A B} (fa : record -> A) (fb : record -> B) (r : record)
    : incident A B :=
  ((fa r, fb r), (bool_decide (is_Some (r !! "primary_type")), is_violent r)).

End ETL.

(** ** Feature engine (feature-engineering notebook) *)

Module FeatureEngineering.
Import Heap.

(** *** The split *)

(** A Series taken out of a frame: its values under the frame's index. *)
Record Labelled := mkLabelled {
  labels : list Z;
  values : Column
}.

Definition mask_labelled (m : list bool) (y : Labelled) : Labelled :=
  mkLabelled (Series.mask m (labels y)) (Series.mask_column m (values y)).

Definition take_labelled (pos : list nat) (y : Labelled) : result Labelled :=
  if forallb (fun i => bool_decide (i < List.length (labels y))%nat) pos
  then Ok (mkLabelled (Series.take pos (labels y)) (Series.take_column pos (values y)))
  else Raise IndexError.

Record Split := mkSplit {
  X_train : DataFrame; X_val : DataFrame; X_test : DataFrame;
  y_train : Labelled; y_val : Labelled; y_test : Labelled
}.

Section Splitter.

(** scikit-learn's stratified shuffle split: from the number of
    samples, the test share, the seed and the class labels to the
    positions of the train rows and of the test rows. It raises when
    the sample is too small to be split or stratified. *)
Variable shuffle_split :
  nat -> float -> Z -> Column -> result (list nat * list nat).

(** [train_test_split(X, y, test_size=.., random_state=.., stratify=..)] *)
Definition train_test_split (X : DataFrame) (y : Labelled)
    (test_size : float) (random_state : Z) (stratify : Labelled)
    : result (DataFrame * DataFrame * Labelled * Labelled) :=
  '(train, test) ← shuffle_split (Frame.nrows X) test_size random_state (values stratify);
  X_tr ← Frame.take_rows train X;
  X_te ← Frame.take_rows test X;
  y_tr ← take_labelled train y;
  y_te ← take_labelled test y;
  Ok (X_tr, X_te, y_tr, y_te).

(** [test_size=0.3] (the binary64 value nearest to it) and
    [test_size=0.5]. *)
Definition test_size_train : float := 0x1.3333333333333p-2%float.
Definition test_size_temp : float := 0.5%float.

(** Step 1 of the notebook: drop the rows without a label, then split
    70/30 and the 30 in halves. *)
Definition split (df : DataFrame) : result Split :=
  X ← Frame.drop "Risk" df;
  y ← Frame.getitem df "Risk";
  let y := mkLabelled (index df) y in
  let m := Series.notnull (values y) in
  let X := Frame.mask_rows m X in
  let y := mask_labelled m y in
  '(X_train, X_temp, y_train, y_temp) ← train_test_split X y test_size_train 42 y;
  '(X_val, X_test, y_val, y_test) ← train_test_split X_temp y_temp test_size_temp 42 y_temp;
  Ok (mkSplit X_train X_val X_test y_train y_val y_test).

End Splitter.

(** *** The features *)

(** Chicago city centre, [41.8781, -87.6298]: the binary64 values
    nearest to the decimal literals. *)
Definition city_center_lat : float := 0x1.4f06594af4f0ep+5%float.
Definition city_center_lon : float := (-0x1.5e84ea4a8c155p+6)%float.

Definition engineer_features (df : loc) : M loc :=
  (* Feature 1: Crime Density *)
  lat ← getitem df "latitude";
  lon ← getitem df "longitude";
  prod ← lift (Series.mul lat lon);
  denominator ← lift (Series.abs prod);
  cc ← getitem df "CrimeCount";
  q ← lift (Series.truediv cc (Series.replace_zero_one denominator));
  setitem df "CrimeDensity" q;;
  cd ← getitem df "CrimeDensity";
  cd0 ← lift (Series.fillna 0 cd);
  setitem df "CrimeDensity" cd0;;
  (* Feature 2: Violent Crime Ratio *)
  vc ← getitem df "ViolentCount";
  cc ← getitem df "CrimeCount";
  r ← lift (Series.truediv vc (Series.replace_zero_one cc));
  setitem df "ViolentRatio" r;;
  vr ← getitem df "ViolentRatio";
  vr0 ← lift (Series.fillna 0 vr);
  setitem df "ViolentRatio" vr0;;
  (* Feature 3: Distance from City Center *)
  lat ← getitem df "latitude";
  lat' ← lift (Series.fillna city_center_lat lat);
  dlat ← lift (Series.sub_scalar lat' city_center_lat);
  dlat2 ← lift (Series.square dlat);
  lon ← getitem df "longitude";
  lon' ← lift (Series.fillna city_center_lon lon);
  dlon ← lift (Series.sub_scalar lon' city_center_lon);
  dlon2 ← lift (Series.square dlon);
  s ← lift (Series.add dlat2 dlon2);
  d ← lift (Series.sqrt s);
  setitem df "DistanceFromCenter" d;;
  mret df.

(** The call sites: [engineer_features(X.copy())]. *)
Definition engineer_features_on_copy (X : loc) : M loc :=
  X' ← copy X; engineer_features X'.

(** The three formulas, row by row, for the dtypes the notebook has:
    float64 coordinates and int64 counts. *)
Definition crime_density (c : Z) (la lo : float) : float :=
  F64.fillna 0 (F64.of_int c / F64.replace_zero_one (PrimFloat.abs (la * lo))).

Definition violent_ratio (v c : Z) : float :=
  F64.fillna 0 (F64.of_int v / F64.of_int (if c =? 0 then 1 else c)).

Definition distance_from_center (la lo : float) : float :=
  let dlat := (F64.fillna city_center_lat la - city_center_lat)%float in
  let dlon := (F64.fillna city_center_lon lo - city_center_lon)%float in
  PrimFloat.sqrt (dlat * dlat + dlon * dlon).

(** The three right-hand sides as functions of the columns they read. *)
Definition crime_density_column (lat lon cc : Column) : result Column :=
  prod ← Series.mul lat lon;
  denominator ← Series.abs prod;
  q ← Series.truediv cc (Series.replace_zero_one denominator);
  Series.fillna 0 q.

Definition violent_ratio_column (vc cc : Column) : result Column :=
  r ← Series.truediv vc (Series.replace_zero_one cc);
  Series.fillna 0 r.

Definition distance_column (lat lon : Column) : result Column :=
  lat' ← Series.fillna city_center_lat lat;
  dlat ← Series.sub_scalar lat' city_center_lat;
  dlat2 ← Series.square dlat;
  lon' ← Series.fillna city_center_lon lon;
  dlon ← Series.sub_scalar lon' city_center_lon;
  dlon2 ← Series.square dlon;
  s ← Series.add dlat2 dlon2;
  Series.sqrt s.

Definition new_columns : gset string :=
  {[ "CrimeDensity"; "ViolentRatio"; "DistanceFromCenter" ]}.

(** The frame with the three columns assigned. *)
Definition with_features (df : DataFrame) (cd vr d : Column) : DataFrame :=
  mkFrame (index df)
    (<["DistanceFromCenter" := d]>
     (<["ViolentRatio" := vr]>
     (<["CrimeDensity" := cd]> (columns df)))).

(** The dtypes of the frames the notebook hands to the feature engine:
    float64 coordinates and int64 counts. *)
Definition has_schema (df : DataFrame) (lat lon : list float) (cc vc : list Z) : Prop :=
  columns df !! "latitude" = Some (Float64 lat) /\
  columns df !! "longitude" = Some (Float64 lon) /\
  columns df !! "CrimeCount" = Some (Int64 cc) /\
  columns df !! "ViolentCount" = Some (Int64 vc).

(** *** The partitions and the recombined frames *)

(** The rows of [X] and the labels [y] at the positions [p]. *)
Definition selects (X : DataFrame) (y : Column) (p : list nat)
    (X_p : DataFrame) (y_p : Labelled) : Prop :=
  Series.in_range (Frame.nrows X) p /\
  index X_p = Series.take p (index X) /\
  (forall c, columns X_p !! c = Series.take_column p <$> columns X !! c) /\
  labels y_p = Series.take p (index X) /\
  values y_p = Series.take_column p y.

(** [y.reset_index(drop=True)] *)
Definition reset_index_labelled (y : Labelled) : Labelled :=
  mkLabelled (FrameOps.range_index (List.length (labels y))) (values y).

(** A column reindexed from [0 .. k-1] to [0 .. n-1] with [k <= n]: the
    rows it lacks hold a missing value, and an int64 column that gets
    one becomes float64. *)
Definition pad_column (n : nat) (c : Column) : Column :=
  let k := (n - Series.length c)%nat in
  match c with
  | Object xs => Object (xs ++ replicate k None)
  | Float64 xs => Float64 (xs ++ replicate k nan)
  | Int64 xs =>
      if (k =? 0)%nat then Int64 xs
      else Float64 ((F64.of_int <$> xs) ++ replicate k nan)
  | Datetime64 xs => Datetime64 (xs ++ replicate k None)
  end.

(** [pd.concat([X, y], axis=1)] for a frame and a Series named [name]
    that both have the default index: the rows are aligned on the index
    and the Series becomes the column [name]. The frames the notebook
    recombines have no column of that name ([Risk] is dropped before
    the split). *)
Definition concat_columns (X : DataFrame) (name : string) (y : Labelled) : DataFrame :=
  let n := (Frame.nrows X `max` List.length (labels y))%nat in
  mkFrame (FrameOps.range_index n)
    (<[name := pad_column n (values y)]> (pad_column n <$> columns X)).

(** Step 3 of the notebook, for one partition:
    [pd.concat([X_fe.reset_index(drop=True), y.reset_index(drop=True)], axis=1)]. *)
Definition recombine (X_fe : DataFrame) (y : Labelled) : DataFrame :=
  concat_columns (FrameOps.reset_index_drop X_fe) "Risk" (reset_index_labelled y).

(** Steps 2 and 3 for one partition: the features of a copy of [X],
    recombined with the labels. *)
Definition engineer_and_recombine (X : loc) (y : Labelled) : M DataFrame :=
  X_fe ← engineer_features_on_copy X;
  fe ← deref X_fe;
  mret (recombine fe y).

End FeatureEngineering.

(** ** Loading cells of the modelling notebooks *)

Module Modeling.

(** The data-loading cell of the pipeline notebook, for one of the
    three files:
    [df = df.dropna(subset=['Risk']); X = df.drop(columns=['Risk']); y = df['Risk']]. *)
Definition features_and_target (df : DataFrame)
    : result (DataFrame * FeatureEngineering.Labelled) :=
  df ← ETL.dropna ["Risk"] df;
  X ← Frame.drop "Risk" df;
  y ← Frame.getitem df "Risk";
  Ok (X, FeatureEngineering.mkLabelled (index df) y).

(** The loading cell of the workflow notebook:
    [df = df.dropna(); X = df.drop(columns=['Risk']); y = df["Risk"]]. *)
Definition workflow_features_and_target (df : DataFrame)
    : result (DataFrame * FeatureEngineering.Labelled) :=
  let df := FrameOps.dropna_any df in
  X ← Frame.drop "Risk" df;
  y ← Frame.getitem df "Risk";
  Ok (X, FeatureEngineering.mkLabelled (index df) y).

End Modeling.



(** ** Sample data *)

Module Examples.

(** Parsers that read just the literals of the sample records. The
    dates are in two formats: with the time of day (midnight of
    2024-09-01, a Sunday, is 1725148800 seconds after the epoch;
    2024-09-04 13:30 is a Wednesday) and without it. A date is read in
    the format of the first date of its column. *)
Definition parse_numeric_sample (s : string) : option ETL.numeral :=
  if bool_decide (s = "41.5") then Some (ETL.Decimal 41.5)
  else if bool_decide (s = "-87.5") then Some (ETL.Decimal (-87.5))
  else if bool_decide (s = "41") then Some (ETL.Integer 41)
  else if bool_decide (s = "-87") then Some (ETL.Integer (-87))
  else None.

Definition parse_timestamp_sample (s : string) : option Z :=
  if bool_decide (s = "2024-09-01T00:00:00.000") then Some 1725148800000000000
  else if bool_decide (s = "2024-09-04T13:30:00.000") then Some 1725456600000000000
  else None.

Definition parse_day_sample (s : string) : option Z :=
  if bool_decide (s = "2024-09-02") then Some 1725235200000000000
  else None.

Definition parse_datetime_sample (first s : string) : option Z :=
  if bool_decide (is_Some (parse_timestamp_sample first)) then parse_timestamp_sample s
  else if bool_decide (is_Some (parse_day_sample first)) then parse_day_sample s
  else None.

(** Three raw records: a complete one, one without longitude and one
    whose latitude is not a number. *)
Definition raw_records : list ETL.record :=
  [ {[ "date" := "2024-09-01T00:00:00.000"; "latitude" := "41.5";
       "longitude" := "-87.5"; "primary_type" := "THEFT" ]};
    {[ "date" := "2024-09-01T00:00:00.000"; "latitude" := "41.5";
       "primary_type" := "BATTERY" ]};
    {[ "date" := "2024-09-01T00:00:00.000"; "latitude" := "n/a";
       "longitude" := "-87.5"; "primary_type" := "ROBBERY" ]} ].

(** Two raw records at two locations; the second has no primary_type. *)
Definition untyped_records : list ETL.record :=
  [ {[ "date" := "2024-09-01T00:00:00.000"; "latitude" := "41.5";
       "longitude" := "-87.5"; "primary_type" := "THEFT" ]};
    {[ "date" := "2024-09-01T00:00:00.000"; "latitude" := "-87.5";
       "longitude" := "-87.5" ]} ].

(** A frame of raw records that has the four columns and no row. *)
Definition empty_raw_frame : DataFrame :=
  mkFrame []
    (<["date" := Object []]>
     (<["latitude" := Object []]>
     (<["longitude" := Object []]>
     (<["primary_type" := Object []]> ∅)))).

(** One normalised incident whose [primary_type] is missing. *)
Definition untyped_incident_frame : DataFrame :=
  mkFrame [0]
    (<["latitude" := Float64 [41.5]%float]>
     (<["longitude" := Float64 [(-87.5)]%float]>
     (<["primary_type" := Object [None]]>
     (<["IsViolent" := Series.isin_int ETL.violent_crimes (Object [None])]> ∅)))).

(** Six labelled aggregate rows; the row with index label 3 has no label. *)
Definition labelled_frame : DataFrame :=
  mkFrame [0; 1; 2; 3; 4; 5]
    (<["latitude" := Float64 [1; 2; 3; 4; 5; 6]%float]>
     (<["longitude" := Float64 [1; 2; 3; 4; 5; 6]%float]>
     (<["CrimeCount" := Int64 [1; 1; 3; 1; 1; 4]]>
     (<["ViolentCount" := Int64 [0; 1; 2; 0; 0; 1]]>
     (<["Risk" := Float64 [0; 0; 1; nan; 0; 1]%float]> ∅))))).

(** A split that does not shuffle: the first half of the positions and
    the rest. *)
Definition split_in_halves (n : nat) (test_size : float) (random_state : Z)
    (stratify : Column) : result (list nat * list nat) :=
  Ok (seq 0 (n / 2), seq (n / 2) (n - n / 2)).

(** Three normalised incidents at one location, two of them violent. *)
Definition one_location_frame : DataFrame :=
  mkFrame [0; 1; 2]
    (<["latitude" := Float64 [41.5; 41.5; 41.5]%float]>
     (<["longitude" := Float64 [(-87.5); (-87.5); (-87.5)]%float]>
     (<["primary_type" := Object [Some "THEFT"; Some "ROBBERY"; Some "BATTERY"]]>
     (<["IsViolent" := Int64 [0; 1; 1]]> ∅)))).

(** Three aggregate rows: the city centre; a row at latitude [0] with
    five incidents; a row without incidents whose violent count is
    nevertheless three. *)
Definition features_frame : DataFrame :=
  mkFrame [0; 1; 2]
    (<["latitude" := Float64 [FeatureEngineering.city_center_lat; 0; 2]%float]>
     (<["longitude" := Float64 [FeatureEngineering.city_center_lon;
                                FeatureEngineering.city_center_lon; 4]%float]>
     (<["CrimeCount" := Int64 [2; 5; 0]]>
     (<["ViolentCount" := Int64 [1; 0; 3]]> ∅)))).

Definition features_heap : gmap positive DataFrame := {[ 1%positive := features_frame ]}.

(** Five aggregate rows with counts 1, 1, 1, 1 and 62. *)
Definition counts_frame : DataFrame :=
  mkFrame [0; 1; 2; 3; 4]
    (<["latitude" := Float64 [1; 2; 3; 4; 5]%float]>
     (<["longitude" := Float64 [1; 2; 3; 4; 5]%float]>
     (<["CrimeCount" := Int64 [1; 1; 1; 1; 62]]>
     (<["ViolentCount" := Int64 [0; 0; 1; 0; 17]]> ∅)))).

(** The cell of column [c] at position [i] of the frame at [l]. *)
Definition cell_at (σ : gmap positive DataFrame) (l : positive) (c : string) (i : nat)
    : option scalar :=
  df ← σ !! l; s ← columns df !! c; Series.cell s i.

(** The sample aggregate rows without their [ViolentCount] column. *)
Definition no_violent_frame : DataFrame :=
  mkFrame [0; 1; 2]
    (<["latitude" := Float64 [FeatureEngineering.city_center_lat; 0; 2]%float]>
     (<["longitude" := Float64 [FeatureEngineering.city_center_lon;
                                FeatureEngineering.city_center_lon; 4]%float]>
     (<["CrimeCount" := Int64 [2; 5; 0]]> ∅))).

Definition no_violent_heap : gmap positive DataFrame :=
  {[ 1%positive := no_violent_frame ]}.

(** Labels of three rows, under the index labels of a shuffled
    partition. *)
Definition sample_labels : FeatureEngineering.Labelled :=
  FeatureEngineering.mkLabelled [7; 3; 5] (Int64 [0; 1; 0]).

(** A record with coordinates whose date is not a date, and a feed in
    which the only such date belongs to a record without latitude. *)
Definition bad_date_records : list ETL.record :=
  [ {[ "date" := "yesterday"; "latitude" := "41.5";
       "longitude" := "-87.5"; "primary_type" := "THEFT" ]} ].

Definition bad_date_dropped_records : list ETL.record :=
  [ {[ "date" := "yesterday"; "latitude" := "n/a";
       "longitude" := "-87.5"; "primary_type" := "THEFT" ]};
    {[ "date" := "2024-09-01T00:00:00.000"; "latitude" := "41.5";
       "longitude" := "-87.5"; "primary_type" := "BATTERY" ]} ].

(** Two records whose dates are in two formats: each is a date on its
    own, the second is none in the format of the first. *)
Definition mixed_format_records : list ETL.record :=
  [ {[ "date" := "2024-09-01T00:00:00.000"; "latitude" := "41.5";
       "longitude" := "-87.5"; "primary_type" := "THEFT" ]};
    {[ "date" := "2024-09-02"; "latitude" := "41.5";
       "longitude" := "-87.5"; "primary_type" := "BATTERY" ]} ].

(** An incident on a Wednesday afternoon. *)
Definition weekday_records : list ETL.record :=
  [ {[ "date" := "2024-09-04T13:30:00.000"; "latitude" := "41.5";
       "longitude" := "-87.5"; "primary_type" := "ASSAULT" ]} ].

(** Three typed records whose coordinates are integer literals, at two
    locations. *)
Definition integer_records : list ETL.record :=
  [ {[ "date" := "2024-09-01T00:00:00.000"; "latitude" := "41";
       "longitude" := "-87"; "primary_type" := "THEFT" ]};
    {[ "date" := "2024-09-04T13:30:00.000"; "latitude" := "41";
       "longitude" := "-87"; "primary_type" := "BATTERY" ]};
    {[ "date" := "2024-09-01T00:00:00.000"; "latitude" := "-87";
       "longitude" := "41"; "primary_type" := "ROBBERY" ]} ].

(** A feed none of whose records has both coordinates. *)
Definition all_dropped_records : list ETL.record :=
  [ {[ "date" := "2024-09-01T00:00:00.000"; "latitude" := "n/a";
       "longitude" := "-87.5"; "primary_type" := "THEFT" ]};
    {[ "date" := "2024-09-01T00:00:00.000"; "latitude" := "41.5";
       "primary_type" := "BATTERY" ]} ].

(** Three aggregate rows as the aggregator makes them, the last one
    without a typed incident. *)
Definition aggregate_rows_frame : DataFrame :=
  mkFrame [0; 1; 2]
    (<["latitude" := Float64 [FeatureEngineering.city_center_lat; 0; 2]%float]>
     (<["longitude" := Float64 [FeatureEngineering.city_center_lon;
                                FeatureEngineering.city_center_lon; 4]%float]>
     (<["CrimeCount" := Int64 [2; 5; 0]]>
     (<["ViolentCount" := Int64 [1; 0; 0]]> ∅)))).

Definition aggregate_rows_heap : gmap positive DataFrame :=
  {[ 1%positive := aggregate_rows_frame ]}.

End Examples.

(** * Properties *)

(** ** float64 facts *)

Module F64Facts.
Import F64.

Lemma eqb_refl (x : float) : isnull x = false -> PrimFloat.eqb x x = true.
Proof.
  unfold isnull, PrimFloat.is_nan. intros H.
  apply negb_false_iff in H. exact H.
Qed.

Lemma SFcompare_refl (s : spec_float) :
  SFcompare s s = None \/ SFcompare s s = Some Eq.
Proof.
  destruct s as [[]|[]| |[] m e]; simpl; auto.
  - right. rewrite Z.compare_refl.
    change (Pos.compare_cont Eq m m) with (Pos.compare m m).
    now rewrite Pos.compare_refl.
  - right. rewrite Z.compare_refl.
    change (Pos.compare_cont Eq m m) with (Pos.compare m m).
    now rewrite Pos.compare_refl.
Qed.

Lemma ltb_irrefl (x : float) : PrimFloat.ltb x x = false.
Proof.
  rewrite FloatAxioms.ltb_spec. unfold SFltb.
  destruct (SFcompare_refl (Prim2SF x)) as [-> | ->]; reflexivity.
Qed.

Lemma SFcompare_Eq_sym (a b : spec_float) :
  SFcompare a b = Some Eq -> SFcompare b a = Some Eq.
Proof.
  destruct a as [[]|[]| |[] m1 e1], b as [[]|[]| |[] m2 e2];
    simpl; try congruence; intros H.
  - destruct (Z.compare_spec e1 e2) as [He | He | He]; try discriminate.
    subst e2. rewrite Z.compare_refl.
    change (Pos.compare_cont Eq m1 m2) with (Pos.compare m1 m2) in H.
    destruct (Pos.compare_spec m1 m2) as [Hm | Hm | Hm];
      simpl in H; try discriminate.
    subst m2. change (Pos.compare_cont Eq m1 m1) with (Pos.compare m1 m1).
    now rewrite Pos.compare_refl.
  - destruct (Z.compare_spec e1 e2) as [He | He | He]; try discriminate.
    subst e2. rewrite Z.compare_refl.
    change (Pos.compare_cont Eq m1 m2) with (Pos.compare m1 m2) in H.
    destruct (Pos.compare_spec m1 m2) as [Hm | Hm | Hm];
      simpl in H; try discriminate.
    subst m2. change (Pos.compare_cont Eq m1 m1) with (Pos.compare m1 m1).
    now rewrite Pos.compare_refl.
Qed.

(** A value equal to the threshold is not strictly above it. *)
Lemma eqb_not_gt (x y : float) :
  PrimFloat.eqb x y = true -> PrimFloat.ltb y x = false.
Proof.
  rewrite FloatAxioms.eqb_spec, FloatAxioms.ltb_spec. unfold SFeqb, SFltb.
  destruct (SFcompare (Prim2SF x) (Prim2SF y)) as [[]|] eqn:E;
    try discriminate.
  intros _. now rewrite (SFcompare_Eq_sym _ _ E).
Qed.

(** Zero divided by anything that is not a zero is a zero or NaN, so it
    is a zero once NaN has been filled with [0]. *)
Lemma zero_div_fillna (c d : float) :
  PrimFloat.eqb c 0 = true ->
  PrimFloat.eqb d 0 = false ->
  PrimFloat.eqb (fillna 0 (c / d)) 0 = true.
Proof.
  intros Hc Hd. unfold fillna.
  destruct (isnull (c / d)) eqn:E; [reflexivity|].
  rewrite FloatAxioms.eqb_spec, FloatAxioms.div_spec.
  rewrite FloatAxioms.eqb_spec in Hc, Hd.
  unfold isnull, PrimFloat.is_nan in E.
  rewrite FloatAxioms.eqb_spec, FloatAxioms.div_spec in E.
  change (Prim2SF 0) with (S754_zero false) in *.
  destruct (Prim2SF c) as [[]|[]| |[] mc ec];
    try discriminate Hc;
    destruct (Prim2SF d) as [[]|[]| |[] md ed];
    try discriminate Hd; try discriminate E; reflexivity.
Qed.

Lemma fillna_notnull (v x : float) : isnull v = false -> isnull (fillna v x) = false.
Proof. intros Hv. unfold fillna. now destruct (isnull x) eqn:E. Qed.

(** The absolute value of a zero is a zero. *)
Lemma abs_zero (p : float) :
  PrimFloat.eqb p 0 = true -> replace_zero_one (PrimFloat.abs p) = 1%float.
Proof.
  intros H. unfold replace_zero_one.
  assert (PrimFloat.eqb (PrimFloat.abs p) 0 = true) as ->; [|reflexivity].
  rewrite FloatAxioms.eqb_spec in *. rewrite FloatAxioms.abs_spec.
  change (Prim2SF 0) with (S754_zero false) in *.
  destruct (Prim2SF p) as [[]|[]| |[] m e]; try discriminate H; reflexivity.
Qed.

Lemma replace_zero_one_nonzero (x : float) :
  PrimFloat.eqb (replace_zero_one x) 0 = false.
Proof.
  unfold replace_zero_one. destruct (PrimFloat.eqb x 0) eqn:E; [reflexivity | exact E].
Qed.

Lemma SFcompare_Eq_trans (a b c : spec_float) :
  SFcompare a b = Some Eq -> SFcompare b c = Some Eq -> SFcompare a c = Some Eq.
Proof.
  assert (forall m1 m2 e1 e2,
            match (e1 ?= e2)%Z with
            | Eq => Pos.compare_cont Eq m1 m2 | Lt => Lt | Gt => Gt
            end = Eq -> e1 = e2 /\ m1 = m2) as Hpos.
  { intros m1 m2 e1 e2 H.
    destruct (Z.compare_spec e1 e2); try discriminate. split; [assumption|].
    now apply Pos.compare_eq. }
  assert (forall m1 m2 e1 e2,
            match (e1 ?= e2)%Z with
            | Eq => CompOpp (Pos.compare_cont Eq m1 m2) | Lt => Gt | Gt => Lt
            end = Eq -> e1 = e2 /\ m1 = m2) as Hneg.
  { intros m1 m2 e1 e2 H.
    destruct (Z.compare_spec e1 e2); try discriminate. split; [assumption|].
    apply Pos.compare_eq.
    change (Pos.compare_cont Eq m1 m2) with (Pos.compare m1 m2) in H.
    now destruct (Pos.compare m1 m2). }
  destruct a as [[]|[]| |[] m1 e1], b as [[]|[]| |[] m2 e2];
    simpl; try discriminate; intros H1;
    destruct c as [[]|[]| |[] m3 e3]; simpl; try discriminate; try reflexivity;
    intros H2.
  - injection H1 as H1. injection H2 as H2.
    apply Hneg in H1 as [-> ->]. apply Hneg in H2 as [-> ->].
    now rewrite Z.compare_refl, Pos.compare_cont_refl.
  - injection H1 as H1. injection H2 as H2.
    apply Hpos in H1 as [-> ->]. apply Hpos in H2 as [-> ->].
    now rewrite Z.compare_refl, Pos.compare_cont_refl.
Qed.

Lemma eqb_sym (x y : float) : PrimFloat.eqb x y = PrimFloat.eqb y x.
Proof.
  rewrite !FloatAxioms.eqb_spec. unfold SFeqb.
  destruct (SFcompare (Prim2SF x) (Prim2SF y)) as [[]|] eqn:E1;
    destruct (SFcompare (Prim2SF y) (Prim2SF x)) as [[]|] eqn:E2;
    try reflexivity.
  all: first [ apply SFcompare_Eq_sym in E1; congruence
             | apply SFcompare_Eq_sym in E2; congruence ].
Qed.

Lemma eqb_trans (x y z : float) :
  PrimFloat.eqb x y = true -> PrimFloat.eqb y z = true -> PrimFloat.eqb x z = true.
Proof.
  rewrite !FloatAxioms.eqb_spec. unfold SFeqb.
  destruct (SFcompare (Prim2SF x) (Prim2SF y)) as [[]|] eqn:E1; try discriminate.
  destruct (SFcompare (Prim2SF y) (Prim2SF z)) as [[]|] eqn:E2; try discriminate.
  now rewrite (SFcompare_Eq_trans _ _ _ E1 E2).
Qed.

(** Only numbers are equal to anything. *)
Lemma eqb_notnull (x y : float) : PrimFloat.eqb x y = true -> isnull x = false.
Proof.
  unfold isnull, PrimFloat.is_nan. intros H. apply negb_false_iff.
  apply (eqb_trans x y x H). now rewrite eqb_sym.
Qed.

End F64Facts.

(** ** Running the store monad *)

Module HeapFacts.
Import Heap.

Lemma run_step {A B} (m : M A) (f : A -> M B) σ a σ' r :
  m σ = (Ok a, σ') -> f a σ' = r -> (m ≫= f) σ = r.
Proof. intros H <-. unfold mbind, M_bind. now rewrite H. Qed.

Lemma run_lift {A} (r : result A) (a : A) σ :
  r = Ok a -> lift r σ = (Ok a, σ).
Proof. now intros ->. Qed.

Lemma run_getitem σ l df c s :
  σ !! l = Some df -> columns df !! c = Some s -> getitem l c σ = (Ok s, σ).
Proof.
  intros Hl Hc. unfold getitem, deref, lift, Frame.getitem, mbind, M_bind.
  now rewrite Hl, Hc.
Qed.

Lemma run_setitem σ l df c s :
  σ !! l = Some df ->
  setitem l c s σ = (Ok (), <[l := Frame.setitem df c s]> σ).
Proof.
  intros Hl. unfold setitem, deref, store, mbind, M_bind. now rewrite Hl.
Qed.

Lemma run_copy σ l df :
  σ !! l = Some df ->
  copy l σ = (Ok (fresh (dom σ)), <[fresh (dom σ) := df]> σ).
Proof.
  intros Hl. unfold copy, deref, alloc, mbind, M_bind. now rewrite Hl.
Qed.

(** Inversion of a run that returned. *)
Lemma bind_inv {A B} (m : M A) (f : A -> M B) σ b σ' :
  (m ≫= f) σ = (Ok b, σ') ->
  exists a σ1, m σ = (Ok a, σ1) /\ f a σ1 = (Ok b, σ').
Proof.
  unfold mbind, M_bind. destruct (m σ) as [[a | e] σ1]; [eauto | discriminate].
Qed.

Lemma lift_inv {A} (r : result A) σ a σ' :
  lift r σ = (Ok a, σ') -> r = Ok a /\ σ' = σ.
Proof. unfold lift. now intros [= -> ->]. Qed.

Lemma deref_inv σ l df σ' :
  deref l σ = (Ok df, σ') -> σ !! l = Some df /\ σ' = σ.
Proof.
  unfold deref. destruct (σ !! l); [now intros [= -> ->] | discriminate].
Qed.

Lemma getitem_inv σ l c s σ' :
  getitem l c σ = (Ok s, σ') ->
  σ' = σ /\ exists df, σ !! l = Some df /\ columns df !! c = Some s.
Proof.
  unfold getitem. intros H.
  apply bind_inv in H as (df & σ1 & [Hl ->]%deref_inv & H).
  apply lift_inv in H as [H ->]. split; [reflexivity|].
  exists df. split; [exact Hl|].
  unfold Frame.getitem in H. destruct (columns df !! c); now inversion H.
Qed.

Lemma setitem_inv σ l c s u σ' :
  setitem l c s σ = (Ok u, σ') ->
  exists df, σ !! l = Some df /\ σ' = <[l := Frame.setitem df c s]> σ.
Proof.
  unfold setitem. intros H.
  apply bind_inv in H as (df & σ1 & [Hl ->]%deref_inv & H).
  exists df. split; [exact Hl|]. unfold store in H. now inversion H.
Qed.

Lemma copy_inv σ l l' σ' :
  copy l σ = (Ok l', σ') ->
  exists df, σ !! l = Some df /\ l' = fresh (dom σ) /\ σ' = <[l' := df]> σ.
Proof.
  unfold copy. intros H.
  apply bind_inv in H as (df & σ1 & [Hl ->]%deref_inv & H).
  exists df. split; [exact Hl|]. unfold alloc in H. now inversion H.
Qed.

(** A copy lives at an address the store did not use. *)
Lemma run_copy_fresh (σ : heap) l df :
  σ !! l = Some df ->
  exists l', copy l σ = (Ok l', <[l' := df]> σ) /\ σ !! l' = None /\ l' <> l.
Proof.
  intros Hl. exists (fresh (dom σ)).
  assert (σ !! fresh (dom σ) = None) as Hfresh by apply not_elem_of_dom, is_fresh.
  split; [now apply run_copy|]. split; [exact Hfresh|].
  intros E. rewrite E, Hl in Hfresh. discriminate.
Qed.

End HeapFacts.

Lemma result_bind_inv {A B} (r : result A) (f : A -> result B) b :
  r ≫= f = Ok b -> exists a, r = Ok a /\ f a = Ok b.
Proof. destruct r as [a | e]; [eauto | discriminate]. Qed.

(** ** The feature engine *)

Module FeatureFacts.
Import Heap HeapFacts FeatureEngineering.

Ltac run_get :=
  eapply run_step;
  [eapply run_getitem; [by simplify_map_eq | by simplify_map_eq] | cbv beta].
Ltac run_set :=
  eapply run_step; [eapply run_setitem; by simplify_map_eq | cbv beta].
Ltac run_pure H :=
  eapply run_step; [apply run_lift; exact H | cbv beta].

(** What a run does on a frame that has the four columns, when the three
    right-hand sides evaluate. *)
Lemma engineer_features_run (σ : heap) l df lat lon cc vc cd vr d :
  σ !! l = Some df ->
  columns df !! "latitude" = Some lat ->
  columns df !! "longitude" = Some lon ->
  columns df !! "CrimeCount" = Some cc ->
  columns df !! "ViolentCount" = Some vc ->
  crime_density_column lat lon cc = Ok cd ->
  violent_ratio_column vc cc = Ok vr ->
  distance_column lat lon = Ok d ->
  engineer_features l σ = (Ok l, <[l := with_features df cd vr d]> σ).
Proof.
  intros Hl Hlat Hlon Hcc Hvc Hcd Hvr Hd.
  unfold crime_density_column in Hcd.
  apply result_bind_inv in Hcd as (prod & Hprod & Hcd).
  apply result_bind_inv in Hcd as (den & Hden & Hcd).
  apply result_bind_inv in Hcd as (q & Hq & Hcd).
  unfold violent_ratio_column in Hvr.
  apply result_bind_inv in Hvr as (r & Hr & Hvr).
  unfold distance_column in Hd.
  apply result_bind_inv in Hd as (lat' & Hlat' & Hd).
  apply result_bind_inv in Hd as (dlat & Hdlat & Hd).
  apply result_bind_inv in Hd as (dlat2 & Hdlat2 & Hd).
  apply result_bind_inv in Hd as (lon' & Hlon' & Hd).
  apply result_bind_inv in Hd as (dlon & Hdlon & Hd).
  apply result_bind_inv in Hd as (dlon2 & Hdlon2 & Hd).
  apply result_bind_inv in Hd as (s & Hs & Hd).
  unfold engineer_features.
  run_get. run_get. run_pure Hprod. run_pure Hden. run_get. run_pure Hq.
  run_set. run_get. run_pure Hcd. run_set.
  run_get. run_get. run_pure Hr. run_set. run_get. run_pure Hvr. run_set.
  run_get. run_pure Hlat'. run_pure Hdlat. run_pure Hdlat2.
  run_get. run_pure Hlon'. run_pure Hdlon. run_pure Hdlon2.
  run_pure Hs. run_pure Hd. run_set.
  unfold mret, M_ret, with_features, Frame.setitem; simpl.
  rewrite !insert_insert_eq. reflexivity.
Qed.

Ltac inv_get H :=
  let df := fresh "df" in let Hl := fresh "Hl" in let Hc := fresh "Hc" in
  apply bind_inv in H as (? & ? & [-> (df & Hl & Hc)]%getitem_inv & H);
  simplify_map_eq.
Ltac inv_pure H :=
  let Hp := fresh "Hp" in
  apply bind_inv in H as (? & ? & [Hp ->]%lift_inv & H).
Ltac inv_set H :=
  let df := fresh "df" in let Hl := fresh "Hl" in
  apply bind_inv in H as (? & ? & (df & Hl & ->)%setitem_inv & H);
  simplify_map_eq.

(** A run that returns went through every statement. *)
Lemma engineer_features_inv (σ : heap) l r σ1 :
  engineer_features l σ = (Ok r, σ1) ->
  r = l /\ exists df lat lon cc vc cd vr d,
    σ !! l = Some df /\
    columns df !! "latitude" = Some lat /\
    columns df !! "longitude" = Some lon /\
    columns df !! "CrimeCount" = Some cc /\
    columns df !! "ViolentCount" = Some vc /\
    crime_density_column lat lon cc = Ok cd /\
    violent_ratio_column vc cc = Ok vr /\
    distance_column lat lon = Ok d /\
    σ1 = <[l := with_features df cd vr d]> σ.
Proof.
  unfold engineer_features. intros H.
  inv_get H. inv_get H. inv_pure H. inv_pure H. inv_get H. inv_pure H.
  inv_set H. inv_get H. inv_pure H. inv_set H.
  inv_get H. inv_get H. inv_pure H. inv_set H. inv_get H. inv_pure H. inv_set H.
  inv_get H. inv_pure H. inv_pure H. inv_pure H.
  inv_get H. inv_pure H. inv_pure H. inv_pure H. inv_pure H. inv_pure H.
  inv_set H.
  unfold mret, M_ret in H. injection H as <- <-. split; [reflexivity|].
  eexists _, _, _, _, _, _, _, _. split; [reflexivity|].
  do 4 (split; [eassumption|]).
  split; [|split; [|split]].
  - unfold crime_density_column.
    rewrite Hp; simpl. rewrite Hp0; simpl. rewrite Hp1; simpl. exact Hp2.
  - unfold violent_ratio_column. rewrite Hp3; simpl. exact Hp4.
  - unfold distance_column.
    rewrite Hp5; simpl. rewrite Hp6; simpl. rewrite Hp7; simpl.
    rewrite Hp8; simpl. rewrite Hp9; simpl. rewrite Hp10; simpl.
    rewrite Hp11; simpl. exact Hp12.
  - unfold with_features, Frame.setitem; simpl.
    rewrite !insert_insert_eq. reflexivity.
Qed.

(** Assigning the three columns again changes nothing. *)
Lemma with_features_twice df cd vr d :
  with_features (with_features df cd vr d) cd vr d = with_features df cd vr d.
Proof.
  unfold with_features; simpl. f_equal.
  apply map_eq. intros k.
  rewrite !lookup_insert. repeat case_decide; reflexivity.
Qed.

Lemma with_features_base df cd vr d c :
  c ∉ new_columns ->
  columns (with_features df cd vr d) !! c = columns df !! c.
Proof.
  unfold new_columns, with_features. intros Hc. simpl.
  rewrite !lookup_insert_ne by set_solver. reflexivity.
Qed.

Lemma base_not_new c :
  c ∈ ["latitude"; "longitude"; "CrimeCount"; "ViolentCount"] -> c ∉ new_columns.
Proof.
  unfold new_columns. rewrite !elem_of_cons, elem_of_nil.
  rewrite !elem_of_union, !elem_of_singleton.
  intros [-> | [-> | [-> | [-> | []]]]] [[H | H] | H]; discriminate H.
Qed.

(** A run on a copy: the copy is a new object, the only one to change. *)
Lemma engineer_features_on_copy_inv (σ : heap) X a σa :
  engineer_features_on_copy X σ = (Ok a, σa) ->
  exists df lat lon cc vc cd vr d,
    σ !! X = Some df /\
    columns df !! "latitude" = Some lat /\
    columns df !! "longitude" = Some lon /\
    columns df !! "CrimeCount" = Some cc /\
    columns df !! "ViolentCount" = Some vc /\
    crime_density_column lat lon cc = Ok cd /\
    violent_ratio_column vc cc = Ok vr /\
    distance_column lat lon = Ok d /\
    σ !! a = None /\ a <> X /\
    σa = <[a := with_features df cd vr d]> σ.
Proof.
  unfold engineer_features_on_copy. intros H.
  apply bind_inv in H as (a' & σ' & Hcopy & H).
  apply copy_inv in Hcopy as (df & Hl & -> & ->).
  destruct (run_copy_fresh σ X df Hl) as (l' & Hcopy' & Hfresh & Hne).
  rewrite (run_copy σ X df Hl) in Hcopy'. injection Hcopy' as <-.
  apply engineer_features_inv in H
    as (-> & df' & lat & lon & cc & vc & cd & vr & d &
        Hl' & Hlat & Hlon & Hcc & Hvc & Hcd & Hvr & Hd & ->).
  rewrite lookup_insert_eq in Hl'. injection Hl' as <-.
  exists df, lat, lon, cc, vc, cd, vr, d.
  repeat (split; [assumption|]). now rewrite insert_insert_eq.
Qed.

(** C5: the feature engine is deterministic and idempotent. A run is a
    function of the store; two runs on copies of one frame return two
    objects with the same contents; and a run on the frame a first run
    returned returns the same frame and leaves the store, hence every
    field the first run left in it, as it is. *)
Theorem engineer_features_idempotent (σ : heap) l r σ1 :
  engineer_features l σ = (Ok r, σ1) ->
  engineer_features r σ1 = (Ok r, σ1) /\
  (forall r' σ', engineer_features l σ = (Ok r', σ') -> r' = r /\ σ' = σ1) /\
  (forall a σa b σb,
      engineer_features_on_copy l σ = (Ok a, σa) ->
      engineer_features_on_copy l σa = (Ok b, σb) ->
      a <> b /\ σb !! a = σa !! a /\ σb !! b = σa !! a).
Proof.
  intros H. split; [|split].
  - apply engineer_features_inv in H
      as (-> & df & lat & lon & cc & vc & cd & vr & d &
          Hl & Hlat & Hlon & Hcc & Hvc & Hcd & Hvr & Hd & ->).
    rewrite (engineer_features_run _ l (with_features df cd vr d)
               lat lon cc vc cd vr d); try assumption.
    + now rewrite with_features_twice, insert_insert_eq.
    + apply lookup_insert_eq.
    + rewrite with_features_base; [assumption | apply base_not_new; repeat constructor].
    + rewrite with_features_base; [assumption | apply base_not_new; repeat constructor].
    + rewrite with_features_base; [assumption | apply base_not_new; repeat constructor].
    + rewrite with_features_base; [assumption | apply base_not_new; repeat constructor].
  - intros r' σ' H'. rewrite H in H'. now injection H' as <- <-.
  - intros a σa b σb Ha Hb.
    apply engineer_features_on_copy_inv in Ha
      as (df & lat & lon & cc & vc & cd & vr & d &
          Hl & Hlat & Hlon & Hcc & Hvc & Hcd & Hvr & Hd & Hfa & Hna & ->).
    apply engineer_features_on_copy_inv in Hb
      as (df' & lat' & lon' & cc' & vc' & cd' & vr' & d' &
          Hl' & Hlat' & Hlon' & Hcc' & Hvc' & Hcd' & Hvr' & Hd' & Hfb & Hnb & ->).
    rewrite lookup_insert_ne in Hl' by exact Hna.
    assert (df' = df) as -> by congruence.
    assert (lat' = lat) as -> by congruence.
    assert (lon' = lon) as -> by congruence.
    assert (cc' = cc) as -> by congruence.
    assert (vc' = vc) as -> by congruence.
    assert (cd' = cd) as -> by congruence.
    assert (vr' = vr) as -> by congruence.
    assert (d' = d) as -> by congruence.
    assert (a <> b) as Hab.
    { intros ->. rewrite lookup_insert_eq in Hfb. discriminate. }
    split; [exact Hab|]. split.
    + now rewrite lookup_insert_ne by congruence.
    + now rewrite !lookup_insert_eq.
Qed.

Lemma engineer_features_idempotent_witness :
  let σ1 := (engineer_features 1%positive Examples.features_heap).2 in
  engineer_features 1%positive σ1 = (Ok 1%positive, σ1).
Proof.
  apply (engineer_features_idempotent Examples.features_heap 1%positive).
  vm_compute. reflexivity.
Defined.

(** The scenario of the design: a row at the reference point has
    DistanceFromCenter 0. *)
Example distance_at_center :
  distance_from_center city_center_lat city_center_lon = 0%float /\
  Examples.cell_at (engineer_features 1%positive Examples.features_heap).2
    1%positive "DistanceFromCenter" 0 = Some (Flt 0).
Proof. split; vm_compute; reflexivity. Qed.

(** *** The features row by row *)

Lemma crime_density_schema lat lon cc :
  crime_density_column (Float64 lat) (Float64 lon) (Int64 cc) =
  Ok (Float64 (F64.fillna 0 <$>
               zip_with PrimFloat.div (F64.of_int <$> cc)
                 (F64.replace_zero_one <$> (PrimFloat.abs <$> zip_with PrimFloat.mul lat lon)))).
Proof. reflexivity. Qed.

Lemma violent_ratio_schema vc cc :
  violent_ratio_column (Int64 vc) (Int64 cc) =
  Ok (Float64 (F64.fillna 0 <$>
               zip_with PrimFloat.div (F64.of_int <$> vc)
                 (F64.of_int <$> ((fun x => if x =? 0 then 1 else x) <$> cc)))).
Proof. reflexivity. Qed.

Lemma distance_schema lat lon :
  exists d,
    distance_column (Float64 lat) (Float64 lon) = Ok (Float64 d) /\
    forall i la lo, lat !! i = Some la -> lon !! i = Some lo ->
                    d !! i = Some (distance_from_center la lo).
Proof.
  eexists. split; [reflexivity|].
  intros i la lo Hla Hlo.
  rewrite list_lookup_fmap, lookup_zip_with, !list_lookup_fmap, Hla, Hlo.
  reflexivity.
Qed.

Lemma crime_density_lookup lat lon cc i c la lo :
  cc !! i = Some c -> lat !! i = Some la -> lon !! i = Some lo ->
  (F64.fillna 0 <$>
     zip_with PrimFloat.div (F64.of_int <$> cc)
       (F64.replace_zero_one <$> (PrimFloat.abs <$> zip_with PrimFloat.mul lat lon))) !! i
  = Some (crime_density c la lo).
Proof.
  intros Hc Hla Hlo.
  rewrite list_lookup_fmap, lookup_zip_with, !list_lookup_fmap, lookup_zip_with.
  now rewrite Hc, Hla, Hlo.
Qed.

Lemma violent_ratio_lookup vc cc i v c :
  vc !! i = Some v -> cc !! i = Some c ->
  (F64.fillna 0 <$>
     zip_with PrimFloat.div (F64.of_int <$> vc)
       (F64.of_int <$> ((fun x => if x =? 0 then 1 else x) <$> cc))) !! i
  = Some (violent_ratio v c).
Proof.
  intros Hv Hc.
  rewrite list_lookup_fmap, lookup_zip_with, !list_lookup_fmap.
  now rewrite Hv, Hc.
Qed.

(** On a frame of the notebook's dtypes the run returns, and the three
    new columns hold the row formulas. *)
Lemma engineer_features_schema (σ : heap) l df lat lon cc vc :
  σ !! l = Some df -> has_schema df lat lon cc vc ->
  exists df' cd vr,
    engineer_features l σ = (Ok l, <[l := df']> σ) /\
    columns df' !! "CrimeDensity" = Some (Float64 cd) /\
    columns df' !! "ViolentRatio" = Some (Float64 vr) /\
    (forall i c la lo, cc !! i = Some c -> lat !! i = Some la -> lon !! i = Some lo ->
                       cd !! i = Some (crime_density c la lo)) /\
    (forall i v c, vc !! i = Some v -> cc !! i = Some c ->
                   vr !! i = Some (violent_ratio v c)) /\
    (exists d, columns df' !! "DistanceFromCenter" = Some (Float64 d) /\
       forall i la lo, lat !! i = Some la -> lon !! i = Some lo ->
                       d !! i = Some (distance_from_center la lo)).
Proof.
  intros Hl (Hlat & Hlon & Hcc & Hvc).
  destruct (distance_schema lat lon) as (d & Hd & Hdrow).
  eexists (with_features df _ _ (Float64 d)), _, _.
  split.
  { eapply engineer_features_run; try eassumption.
    - apply crime_density_schema.
    - apply violent_ratio_schema. }
  unfold with_features; simpl.
  split; [by simplify_map_eq|]. split; [by simplify_map_eq|].
  split; [|split].
  - intros. now apply crime_density_lookup.
  - intros. now apply violent_ratio_lookup.
  - exists d. split; [by simplify_map_eq | exact Hdrow].
Qed.

(** C2, as the code has it: on a frame of the notebook's dtypes the run
    returns and the CrimeDensity of every row is a number, never NaN; it
    is zero for a row whose CrimeCount is 0; for a row whose
    latitude*longitude is zero the denominator is replaced by 1, so the
    CrimeDensity is CrimeCount/1 (5 for five incidents), not 0. *)
Theorem crime_density_degenerate (σ : heap) l df lat lon cc vc i c la lo :
  σ !! l = Some df -> has_schema df lat lon cc vc ->
  cc !! i = Some c -> lat !! i = Some la -> lon !! i = Some lo ->
  exists df' cd x,
    engineer_features l σ = (Ok l, <[l := df']> σ) /\
    columns df' !! "CrimeDensity" = Some (Float64 cd) /\
    cd !! i = Some x /\
    F64.isnull x = false /\
    (c = 0 -> PrimFloat.eqb x 0 = true) /\
    (PrimFloat.eqb (la * lo) 0 = true -> x = F64.fillna 0 (F64.of_int c / 1)).
Proof.
  intros Hl Hs Hc Hla Hlo.
  destruct (engineer_features_schema σ l df lat lon cc vc Hl Hs)
    as (df' & cd & vr & Hrun & Hcd & _ & Hrow & _ & _).
  exists df', cd, (crime_density c la lo).
  split; [exact Hrun|]. split; [exact Hcd|].
  split; [now apply Hrow|]. unfold crime_density. split; [|split].
  - now apply F64Facts.fillna_notnull.
  - intros ->. apply F64Facts.zero_div_fillna; [reflexivity|].
    apply F64Facts.replace_zero_one_nonzero.
  - intros Hz. now rewrite F64Facts.abs_zero.
Qed.

Lemma crime_density_degenerate_witness :
  exists df' cd x,
    engineer_features 1%positive Examples.features_heap
      = (Ok 1%positive, <[1%positive := df']> Examples.features_heap) /\
    columns df' !! "CrimeDensity" = Some (Float64 cd) /\
    cd !! 2%nat = Some x /\
    PrimFloat.eqb x 0 = true.
Proof.
  destruct (crime_density_degenerate Examples.features_heap 1%positive
              Examples.features_frame
              [city_center_lat; 0; 2]%float [city_center_lon; city_center_lon; 4]%float
              [2; 5; 0] [1; 0; 3] 2%nat 0 2%float 4%float)
    as (df' & cd & x & Hrun & Hcd & Hx & _ & Hzero & _);
    [reflexivity | repeat split | reflexivity | reflexivity | reflexivity |].
  exists df', cd, x. auto.
Defined.

(** C2 as stated fails: the second row of the sample frame has latitude
    0, hence a zero product, and five incidents; its CrimeDensity is 5. *)
Lemma crime_density_zero_product_counterexample :
  let σ1 := (engineer_features 1%positive Examples.features_heap).2 in
  Examples.cell_at σ1 1%positive "latitude" 1 = Some (Flt 0) /\
  Examples.cell_at σ1 1%positive "longitude" 1 = Some (Flt city_center_lon) /\
  PrimFloat.eqb (0 * city_center_lon) 0 = true /\
  Examples.cell_at σ1 1%positive "CrimeCount" 1 = Some (Int 5) /\
  Examples.cell_at σ1 1%positive "CrimeDensity" 1 = Some (Flt 5) /\
  PrimFloat.eqb 5 0 = false.
Proof. vm_compute. repeat split. Qed.

(** What the code computes for a row whose CrimeCount is 0: the count
    is replaced by 1, so the ViolentRatio is ViolentCount/1, a number
    and never NaN. *)
Lemma violent_ratio_degenerate (σ : heap) l df lat lon cc vc i v :
  σ !! l = Some df -> has_schema df lat lon cc vc ->
  cc !! i = Some 0 -> vc !! i = Some v ->
  exists df' vr x,
    engineer_features l σ = (Ok l, <[l := df']> σ) /\
    columns df' !! "ViolentRatio" = Some (Float64 vr) /\
    vr !! i = Some x /\
    F64.isnull x = false /\
    x = F64.fillna 0 (F64.of_int v / 1) /\
    (v = 0 -> PrimFloat.eqb x 0 = true).
Proof.
  intros Hl Hs Hc Hv.
  destruct (engineer_features_schema σ l df lat lon cc vc Hl Hs)
    as (df' & cd & vr & Hrun & _ & Hvr & _ & Hrow & _).
  exists df', vr, (violent_ratio v 0).
  split; [exact Hrun|]. split; [exact Hvr|].
  split; [now apply Hrow|]. unfold violent_ratio. split; [|split].
  - now apply F64Facts.fillna_notnull.
  - reflexivity.
  - intros ->. reflexivity.
Qed.

(** C6: the rows the feature engine is handed are rows of the
    aggregate, in which 0 <= ViolentCount <= CrimeCount. On a frame of
    such rows the run returns, the ViolentRatio column has one value
    per row, and the value is 0 in every row whose CrimeCount is 0. *)
Theorem violent_ratio_zero_count (σ : heap) l df lat lon cc vc :
  σ !! l = Some df -> Frame.wf df -> has_schema df lat lon cc vc ->
  (forall i c v, cc !! i = Some c -> vc !! i = Some v -> 0 <= v <= c) ->
  exists df' vr,
    engineer_features l σ = (Ok l, <[l := df']> σ) /\
    columns df' !! "ViolentRatio" = Some (Float64 vr) /\
    List.length vr = Frame.nrows df /\
    forall i, cc !! i = Some 0 -> vr !! i = Some 0%float.
Proof.
  intros Hl Hwf Hs Hrows.
  destruct (engineer_features_schema σ l df lat lon cc vc Hl Hs)
    as (df' & cd & vr & Hrun & _ & Hvr & _ & Hrow & _).
  destruct Hs as (_ & _ & Hcc & Hvc).
  pose proof (Hwf _ _ Hcc) as Lcc. pose proof (Hwf _ _ Hvc) as Lvc.
  simpl in Lcc, Lvc.
  assert (forall i, (i < Frame.nrows df)%nat ->
            exists c v, cc !! i = Some c /\ vc !! i = Some v) as Hcell.
  { intros i Hi.
    destruct (lookup_lt_is_Some_2 cc i) as [c Hc]; [lia|].
    destruct (lookup_lt_is_Some_2 vc i) as [v Hv]; [lia|]. eauto. }
  exists df', vr. split; [exact Hrun|]. split; [exact Hvr|]. split.
  - apply Nat.le_antisymm.
    + apply Nat.nlt_ge. intros Hlt.
      destruct (lookup_lt_is_Some_2 vr (Frame.nrows df) Hlt) as [x Hx].
      assert (vc !! Frame.nrows df = None) as Hn by (apply lookup_ge_None; lia).
      assert (is_Some (vc !! Frame.nrows df)) as [v Hv]; [|congruence].
      destruct (vc !! Frame.nrows df) as [v|] eqn:E; [eauto|].
      exfalso. clear Hn.
      apply engineer_features_inv in Hrun
        as (_ & df0 & clat & clon & ccc & cvc & ccd & cvr & cd0 &
            Hl0 & _ & _ & Hcc0 & Hvc0 & _ & Hvr0 & _ & Hins).
      rewrite Hl in Hl0. injection Hl0 as <-.
      rewrite Hcc in Hcc0. injection Hcc0 as <-.
      rewrite Hvc in Hvc0. injection Hvc0 as <-.
      rewrite violent_ratio_schema in Hvr0. injection Hvr0 as <-.
      apply (f_equal (fun m => m !! l)) in Hins.
      rewrite !lookup_insert_eq in Hins. injection Hins as ->.
      unfold with_features in Hvr. simpl in Hvr.
      rewrite lookup_insert_ne, lookup_insert_eq in Hvr by discriminate.
      injection Hvr as <-.
      rewrite list_lookup_fmap, lookup_zip_with, !list_lookup_fmap, E in Hx.
      discriminate Hx.
    + apply Nat.nlt_ge. intros Hlt.
      assert (pred (Frame.nrows df) < Frame.nrows df)%nat as Hp by lia.
      destruct (Hcell _ Hp) as (c & v & Hc & Hv).
      pose proof (Hrow _ _ _ Hv Hc) as Hx.
      apply lookup_lt_Some in Hx. lia.
  - intros i Hc.
    assert (i < Frame.nrows df)%nat as Hi by (apply lookup_lt_Some in Hc; lia).
    destruct (Hcell i Hi) as (c & v & Hc' & Hv).
    rewrite Hc in Hc'. injection Hc' as <-.
    assert (v = 0) as -> by (specialize (Hrows i 0 v Hc Hv); lia).
    rewrite (Hrow i 0 0 Hv Hc). reflexivity.
Qed.

Lemma violent_ratio_zero_count_witness :
  exists df' vr,
    engineer_features 1%positive Examples.aggregate_rows_heap
      = (Ok 1%positive, <[1%positive := df']> Examples.aggregate_rows_heap) /\
    columns df' !! "ViolentRatio" = Some (Float64 vr) /\
    vr !! 2%nat = Some 0%float.
Proof.
  destruct (violent_ratio_zero_count Examples.aggregate_rows_heap 1%positive
              Examples.aggregate_rows_frame
              [city_center_lat; 0; 2]%float [city_center_lon; city_center_lon; 4]%float
              [2; 5; 0] [1; 0; 0])
    as (df' & vr & Hrun & Hvr & _ & Hzero).
  - reflexivity.
  - apply (bool_decide_unpack _). vm_compute. exact I.
  - repeat split; reflexivity.
  - intros [|[|[|i]]] c v Hc Hv; simpl in Hc, Hv; try discriminate;
      injection Hc as <-; injection Hv as <-; lia.
  - exists df', vr. split; [exact Hrun|]. split; [exact Hvr|].
    apply Hzero. reflexivity.
Defined.

(** Outside the rows of an aggregate the ratio of a row without
    incidents need not be 0: with CrimeCount 0 and ViolentCount 3 it
    is 3. *)
Example violent_ratio_outside_aggregate :
  let σ1 := (engineer_features 1%positive Examples.features_heap).2 in
  Examples.cell_at σ1 1%positive "CrimeCount" 2 = Some (Int 0) /\
  Examples.cell_at σ1 1%positive "ViolentCount" 2 = Some (Int 3) /\
  Examples.cell_at σ1 1%positive "ViolentRatio" 2 = Some (Flt 3) /\
  PrimFloat.eqb 3 0 = false.
Proof. vm_compute. repeat split. Qed.

End FeatureFacts.

(** ** Signs of the engineered features *)

Module SignFacts.
Import F64 SF Heap HeapFacts FeatureEngineering FeatureFacts.

(** *** Rounding keeps the sign *)

Lemma shr_1_nonneg mrs : 0 <= shr_m mrs -> 0 <= shr_m (shr_1 mrs).
Proof.
  destruct mrs as [m r s]; simpl. destruct m as [|p|p]; simpl; try lia.
  - destruct p; simpl; lia.
Qed.

Lemma iter_shr_1_nonneg p : forall mrs, 0 <= shr_m mrs -> 0 <= shr_m (SpecFloat.iter_pos shr_1 p mrs).
Proof.
  induction p as [p IH|p IH|]; intros mrs H; simpl.
  - apply IH, IH, shr_1_nonneg, H.
  - apply IH, IH, H.
  - apply shr_1_nonneg, H.
Qed.

Lemma shr_nonneg mrs e n : 0 <= shr_m mrs -> 0 <= shr_m (fst (shr mrs e n)).
Proof.
  intros H. destruct n; simpl; try exact H. apply iter_shr_1_nonneg, H.
Qed.

Lemma shr_fexp_nonneg pr em m e l : 0 <= m -> 0 <= shr_m (fst (shr_fexp pr em m e l)).
Proof.
  intros H. unfold shr_fexp. apply shr_nonneg.
  destruct l as [|[]]; simpl; exact H.
Qed.

Lemma round_nearest_even_nonneg m l : 0 <= m -> 0 <= round_nearest_even m l.
Proof.
  intros H. destruct l as [|[]]; simpl; try lia. destruct (Z.even m); lia.
Qed.

(** Rounding a non-negative mantissa gives a number with the sign asked for. *)
Lemma binary_round_aux_sign pr em sx mx ex lx :
  0 <= mx ->
  match binary_round_aux pr em sx mx ex lx with
  | S754_zero s | S754_infinity s | S754_finite s _ _ => s = sx
  | S754_nan => False
  end.
Proof.
  intros H. unfold binary_round_aux.
  pose proof (shr_fexp_nonneg pr em mx ex lx H) as H1.
  destruct (shr_fexp pr em mx ex lx) as [mrs' e'] eqn:E1. simpl in H1.
  pose proof (shr_fexp_nonneg pr em _ e' loc_Exact
                (round_nearest_even_nonneg _ (loc_of_shr_record mrs') H1)) as H2.
  destruct (shr_fexp pr em (round_nearest_even _ _) e' loc_Exact) as [mrs'' e''] eqn:E2.
  simpl in H2. destruct (shr_m mrs'') as [|p|p]; try reflexivity; try lia.
  destruct (Z.leb e'' (em - pr)); reflexivity.
Qed.

Lemma binary_round_sign pr em sx mx ex :
  match binary_round pr em sx mx ex with
  | S754_zero s | S754_infinity s | S754_finite s _ _ => s = sx
  | S754_nan => False
  end.
Proof.
  unfold binary_round. destruct (shl_align _ _ _) as [mz ez].
  apply binary_round_aux_sign. lia.
Qed.

Lemma binary_normalize_not_nan pr em m e sz :
  SFnan (binary_normalize pr em m e sz) = false.
Proof.
  destruct m as [|p|p]; simpl; [reflexivity| |].
  - pose proof (binary_round_sign pr em false p e) as H.
    destruct (binary_round pr em false p e); simpl; tauto.
  - pose proof (binary_round_sign pr em true p e) as H.
    destruct (binary_round pr em true p e); simpl; tauto.
Qed.

Lemma SFnonneg_round_aux pr em mx ex lx :
  0 <= mx -> SFnonneg (binary_round_aux pr em false mx ex lx) = true.
Proof.
  intros H. pose proof (binary_round_aux_sign pr em false mx ex lx H) as Hs.
  destruct (binary_round_aux pr em false mx ex lx); simpl; subst; tauto.
Qed.

(** [x - c] for a number [x] and a finite [c] is a number. *)
Lemma SFsub_finite_not_nan pr em x s m e :
  SFnan x = false -> SFnan (SFsub pr em x (S754_finite s m e)) = false.
Proof.
  destruct x as [sx|sx| |sx mx ex]; simpl; try reflexivity; try discriminate.
  intros _. apply binary_normalize_not_nan.
Qed.

(** The square of a number is not below zero. *)
Lemma SFmul_square_nonneg pr em x :
  SFnan x = false -> SFnonneg (SFmul pr em x x) = true.
Proof.
  destruct x as [sx|sx| |sx mx ex]; simpl; try discriminate; intros _.
  - destruct sx; reflexivity.
  - destruct sx; reflexivity.
  - replace (xorb sx sx) with false by (destruct sx; reflexivity).
    apply SFnonneg_round_aux. lia.
Qed.

Lemma SFadd_nonneg pr em x y :
  SFnonneg x = true -> SFnonneg y = true -> SFnonneg (SFadd pr em x y) = true.
Proof.
  destruct x as [[]|[]| |[] mx ex], y as [[]|[]| |[] my ey]; simpl;
    try discriminate; try reflexivity.
  intros _ _.
  pose proof (binary_round_sign pr em false
                ((shl_align mx ex (Z.min ex ey)).1 + (shl_align my ey (Z.min ex ey)).1)%positive
                (Z.min ex ey)) as H.
  destruct (binary_round _ _ _ _ _); simpl; subst; tauto.
Qed.

Lemma SFsqrt_nonneg pr em x :
  SFnonneg x = true -> SFnonneg (SFsqrt pr em x) = true.
Proof.
  destruct x as [[]|[]| |[] mx ex]; simpl; try discriminate; try reflexivity.
  intros _.
  destruct (SFsqrt_core_binary pr em (Z.pos mx) ex) as [[mz ez] lz] eqn:E.
  apply SFnonneg_round_aux.
  unfold SFsqrt_core_binary in E.
  match type of E with
  | context [Z.sqrtrem ?n] =>
      pose proof (Z.sqrtrem_sqrt n) as Hs; destruct (Z.sqrtrem n) as [q r]
  end.
  injection E as <- _ _. simpl in Hs. subst q. apply Z.sqrt_nonneg.
Qed.

Lemma isnull_Prim2SF (x : float) : isnull x = SFnan (Prim2SF x).
Proof.
  unfold isnull, PrimFloat.is_nan. rewrite FloatAxioms.eqb_spec. unfold SFeqb.
  destruct (F64Facts.SFcompare_refl (Prim2SF x)) as [H|H]; rewrite H.
  - destruct (Prim2SF x) as [| | |[]]; simpl in *; try discriminate; try reflexivity.
  - destruct (Prim2SF x); simpl in *; try discriminate; reflexivity.
Qed.

Lemma SFnonneg_not_nan s : SFnonneg s = true -> SFnan s = false.
Proof. destruct s; simpl; congruence. Qed.

Lemma SFnonneg_leb s : SFnonneg s = true -> SFleb (S754_zero false) s = true.
Proof. destruct s as [[]|[]| |[]]; simpl; try discriminate; reflexivity. Qed.

(** The squared offset from a finite centre, with a missing coordinate
    read as the centre. *)
Lemma offset_square_nonneg (c x : float) s m e :
  Prim2SF c = S754_finite s m e ->
  SFnonneg (Prim2SF ((fillna c x - c) * (fillna c x - c))) = true.
Proof.
  intros Hc. rewrite mul_spec, sub_spec, Hc.
  apply SFmul_square_nonneg, SFsub_finite_not_nan.
  rewrite <- isnull_Prim2SF. apply F64Facts.fillna_notnull.
  rewrite isnull_Prim2SF, Hc. reflexivity.
Qed.

Lemma distance_nonneg (la lo : float) :
  SFnonneg (Prim2SF (distance_from_center la lo)) = true.
Proof.
  unfold distance_from_center. cbv zeta.
  rewrite sqrt_spec, add_spec.
  apply SFsqrt_nonneg, SFadd_nonneg.
  - eapply offset_square_nonneg. vm_compute. reflexivity.
  - eapply offset_square_nonneg. vm_compute. reflexivity.
Qed.

Lemma SFdiv_nonneg pr em x y :
  SFnonneg x = true -> SFnonneg_or_nan y = true ->
  SFnonneg_or_nan (SFdiv pr em x y) = true.
Proof.
  unfold SFnonneg_or_nan.
  destruct x as [[]|[]| |[] mx ex], y as [[]|[]| |[] my ey]; simpl;
    try discriminate; try reflexivity.
  intros _ _.
  destruct (SFdiv_core_binary pr em (Z.pos mx) ex (Z.pos my) ey) as [[mz ez] lz] eqn:E.
  rewrite SFnonneg_round_aux; [apply orb_true_r|].
  unfold SFdiv_core_binary in E.
  match type of E with
  | context [Z.div_eucl ?a ?b] =>
      pose proof (Z_div_mod a b eq_refl) as Hd;
      assert (0 <= a) as Ha;
      [| destruct (Z.div_eucl a b) as [q r] ]
  end.
  - destruct (ex - ey - _) eqn:Es; try lia. apply Z.shiftl_nonneg. lia.
  - injection E as <- _ _. nia.
Qed.

Lemma SFabs_nonneg_or_nan s : SFnonneg_or_nan (SFabs s) = true.
Proof. destruct s; reflexivity. Qed.

Lemma SFldexp_nonneg pr em s e :
  SFnonneg s = true -> SFnonneg (SFldexp pr em s e) = true.
Proof.
  destruct s as [| | |[] mx ex]; simpl; try congruence. intros _.
  pose proof (binary_round_sign pr em false mx (ex + e)) as H.
  destruct (binary_round _ _ _ _ _); simpl; subst; tauto.
Qed.

Lemma binary_normalize_nonneg pr em m e :
  0 <= m -> SFnonneg (binary_normalize pr em m e false) = true.
Proof.
  destruct m as [|p|p]; simpl; [reflexivity | | lia]. intros _.
  pose proof (binary_round_sign pr em false p e) as H.
  destruct (binary_round _ _ _ _ _); simpl; subst; tauto.
Qed.

(** The float64 value of a count is not below zero. *)
Lemma of_int_nonneg (c : Z) : 0 <= c -> SFnonneg (Prim2SF (of_int c)) = true.
Proof.
  intros Hc. unfold of_int.
  pose proof (binary_normalize_nonneg prec emax c 0 Hc) as H.
  destruct (binary_normalize prec emax c 0 false) as [[]|[]| |[] m e];
    try discriminate H; try reflexivity.
  cbv beta iota delta [SF2Prim]. cbv zeta.
  rewrite Z_ldexp_spec, of_uint63_spec.
  apply SFldexp_nonneg, binary_normalize_nonneg.
  apply Uint63.to_Z_bounded.
Qed.

(** The float64 value of an integer is a number. *)
Lemma of_int_notnull (z : Z) : isnull (of_int z) = false.
Proof.
  rewrite isnull_Prim2SF. unfold of_int.
  pose proof (binary_normalize_not_nan prec emax z 0 false) as H.
  destruct (binary_normalize prec emax z 0 false) as [[]|[]| |s m e];
    try discriminate H; try reflexivity.
  cbv beta iota delta [SF2Prim]. cbv zeta.
  assert (SFnonneg (Prim2SF (Z.ldexp (of_uint63 (Uint63.of_Z (Z.pos m))) e)) = true)
    as Hf.
  { rewrite Z_ldexp_spec, of_uint63_spec.
    apply SFldexp_nonneg, binary_normalize_nonneg. apply Uint63.to_Z_bounded. }
  destruct s.
  - rewrite opp_spec.
    destruct (Prim2SF (Z.ldexp _ _)); try discriminate Hf; reflexivity.
  - now apply SFnonneg_not_nan.
Qed.

Lemma fillna_zero_div_nonneg (x y : float) :
  SFnonneg (Prim2SF x) = true -> SFnonneg_or_nan (Prim2SF y) = true ->
  SFnonneg (Prim2SF (fillna 0 (x / y))) = true.
Proof.
  intros Hx Hy. unfold fillna. destruct (isnull (x / y)) eqn:E; [reflexivity|].
  rewrite isnull_Prim2SF in E.
  pose proof (SFdiv_nonneg prec emax _ _ Hx Hy) as H.
  rewrite div_spec. unfold SFnonneg_or_nan in H. rewrite div_spec in E.
  fold SF64div in H. unfold SF64div in *. rewrite E in H. exact H.
Qed.

Lemma replace_zero_one_nonneg (x : float) :
  SFnonneg_or_nan (Prim2SF x) = true ->
  SFnonneg_or_nan (Prim2SF (replace_zero_one x)) = true.
Proof.
  intros H. unfold replace_zero_one. destruct (PrimFloat.eqb x 0); [reflexivity | exact H].
Qed.

Lemma crime_density_nonneg (c : Z) (la lo : float) :
  0 <= c -> SFnonneg (Prim2SF (crime_density c la lo)) = true.
Proof.
  intros Hc. unfold crime_density. apply fillna_zero_div_nonneg.
  - apply of_int_nonneg, Hc.
  - apply replace_zero_one_nonneg. rewrite abs_spec. apply SFabs_nonneg_or_nan.
Qed.

Lemma violent_ratio_nonneg (v c : Z) :
  0 <= v -> 0 <= c -> SFnonneg (Prim2SF (violent_ratio v c)) = true.
Proof.
  intros Hv Hc. unfold violent_ratio. apply fillna_zero_div_nonneg.
  - apply of_int_nonneg, Hv.
  - unfold SFnonneg_or_nan. rewrite of_int_nonneg; [apply orb_true_r|].
    destruct (c =? 0); lia.
Qed.

(** *** The engineered columns *)

Lemma SFnonneg_spec (x : float) :
  SFnonneg (Prim2SF x) = true -> isnull x = false /\ PrimFloat.leb 0 x = true.
Proof.
  intros H. split.
  - rewrite isnull_Prim2SF. apply SFnonneg_not_nan, H.
  - rewrite leb_spec. change (Prim2SF 0) with (S754_zero false).
    apply SFnonneg_leb, H.
Qed.

(** X1. In a frame with float latitude and longitude columns and int
    counts, every DistanceFromCenter value the feature engine assigns is
    a number that is not missing and not below zero, and it is zero for
    a row whose two coordinates are both missing. *)
Theorem distance_from_center_range (σ : heap) l df lat lon cc vc i la lo :
  σ !! l = Some df -> has_schema df lat lon cc vc ->
  lat !! i = Some la -> lon !! i = Some lo ->
  exists df' d x,
    engineer_features l σ = (Ok l, <[l := df']> σ) /\
    columns df' !! "DistanceFromCenter" = Some (Float64 d) /\
    d !! i = Some x /\
    isnull x = false /\
    PrimFloat.leb 0 x = true /\
    (isnull la = true -> isnull lo = true -> x = 0%float).
Proof.
  intros Hl Hs Hla Hlo.
  destruct (engineer_features_schema σ l df lat lon cc vc Hl Hs)
    as (df' & cd & vr & Hrun & _ & _ & _ & _ & d & Hd & Hrow).
  exists df', d, (distance_from_center la lo).
  split; [exact Hrun|]. split; [exact Hd|]. split; [now apply Hrow|].
  destruct (SFnonneg_spec _ (distance_nonneg la lo)) as [Hn Hp].
  split; [exact Hn|]. split; [exact Hp|].
  intros Ea Eo. unfold distance_from_center, fillna. rewrite Ea, Eo.
  vm_compute. reflexivity.
Qed.

Lemma distance_from_center_range_witness :
  exists df' d x,
    engineer_features 1%positive Examples.features_heap
      = (Ok 1%positive, <[1%positive := df']> Examples.features_heap) /\
    columns df' !! "DistanceFromCenter" = Some (Float64 d) /\
    d !! 1%nat = Some x /\
    isnull x = false /\
    PrimFloat.leb 0 x = true.
Proof.
  destruct (distance_from_center_range Examples.features_heap 1%positive
              Examples.features_frame
              [city_center_lat; 0; 2]%float
              [city_center_lon; city_center_lon; 4]%float
              [2; 5; 0] [1; 0; 3] 1%nat 0%float city_center_lon)
    as (df' & d & x & H1 & H2 & H3 & H4 & H5 & _).
  - reflexivity.
  - repeat split; reflexivity.
  - reflexivity.
  - reflexivity.
  - exists df', d, x. repeat split; assumption.
Defined.

(** X2. For a row whose two counts are not negative, the CrimeDensity
    and the ViolentRatio the feature engine assigns are numbers that are
    not missing and not below zero, whatever the coordinates are. *)
Theorem density_and_ratio_nonnegative (σ : heap) l df lat lon cc vc i c v la lo :
  σ !! l = Some df -> has_schema df lat lon cc vc ->
  cc !! i = Some c -> vc !! i = Some v -> lat !! i = Some la -> lon !! i = Some lo ->
  0 <= c -> 0 <= v ->
  exists df' cd vr x r,
    engineer_features l σ = (Ok l, <[l := df']> σ) /\
    columns df' !! "CrimeDensity" = Some (Float64 cd) /\
    columns df' !! "ViolentRatio" = Some (Float64 vr) /\
    cd !! i = Some x /\ vr !! i = Some r /\
    isnull x = false /\ PrimFloat.leb 0 x = true /\
    isnull r = false /\ PrimFloat.leb 0 r = true.
Proof.
  intros Hl Hs Hc Hv Hla Hlo Hc0 Hv0.
  destruct (engineer_features_schema σ l df lat lon cc vc Hl Hs)
    as (df' & cd & vr & Hrun & Hcd & Hvr & Hcdrow & Hvrrow & _).
  exists df', cd, vr, (crime_density c la lo), (violent_ratio v c).
  destruct (SFnonneg_spec _ (crime_density_nonneg c la lo Hc0)) as [? ?].
  destruct (SFnonneg_spec _ (violent_ratio_nonneg v c Hv0 Hc0)) as [? ?].
  repeat split; eauto.
Qed.

Lemma density_and_ratio_nonnegative_witness :
  exists df' cd vr x r,
    engineer_features 1%positive Examples.features_heap
      = (Ok 1%positive, <[1%positive := df']> Examples.features_heap) /\
    columns df' !! "CrimeDensity" = Some (Float64 cd) /\
    columns df' !! "ViolentRatio" = Some (Float64 vr) /\
    cd !! 0%nat = Some x /\ vr !! 0%nat = Some r /\
    PrimFloat.leb 0 x = true /\ PrimFloat.leb 0 r = true.
Proof.
  destruct (density_and_ratio_nonnegative Examples.features_heap 1%positive
              Examples.features_frame
              [city_center_lat; 0; 2]%float
              [city_center_lon; city_center_lon; 4]%float
              [2; 5; 0] [1; 0; 3] 0%nat 2 1 city_center_lat city_center_lon)
    as (df' & cd & vr & x & r & H1 & H2 & H3 & H4 & H5 & _ & H6 & _ & H7);
    [reflexivity | repeat split | reflexivity | reflexivity | reflexivity
    | reflexivity | lia | lia |].
  exists df', cd, vr, x, r. repeat split; assumption.
Defined.

End SignFacts.

(** ** The Risk label *)

Module LabelFacts.
Import ETL.

Lemma label_risk_run (lc : DataFrame) (cc : list Z) :
  columns lc !! "CrimeCount" = Some (Int64 cc) ->
  label_risk lc =
  Ok (Frame.setitem lc "Risk"
        (Series.astype_int
           (List.map (fun x => PrimFloat.ltb (Series.median_floats (F64.of_int <$> cc)) x)
              (F64.of_int <$> cc)))).
Proof.
  intros H. unfold label_risk, Frame.getitem. rewrite H. reflexivity.
Qed.

(** *** Sorting values that can all be compared *)

Section SortedOn.

Context {A : Type} (R : relation A) `{!forall x y, Decision (R x y)}.
Variable P : A -> Prop.
Hypothesis R_total_on : forall x y, P x -> P y -> R x y \/ R y x.

Lemma Sorted_list_merge_on (l1 l2 : list A) :
  Forall P l1 -> Forall P l2 -> Sorted R l1 -> Sorted R l2 ->
  Sorted R (list_merge R l1 l2).
Proof.
  intros P1 P2 S1. revert P1 l2 P2.
  induction S1 as [|x1 l1 S1 IH1 H1]; intros P1 l2 P2 S2.
  { now rewrite list_merge_nil_l. }
  induction S2 as [|x2 l2 S2 IH2 H2]; [now constructor|].
  apply Forall_cons in P1 as [Px1 P1]. pose proof P2 as P2'.
  apply Forall_cons in P2' as [Px2 P2'].
  rewrite list_merge_cons. destruct (decide (R x1 x2)) as [Hr|Hr].
  - constructor; [apply IH1; try assumption; now constructor|].
    apply HdRel_list_merge; [exact H1 | now constructor].
  - assert (R x2 x1) as Hr' by (destruct (R_total_on x1 x2 Px1 Px2); tauto).
    constructor; [apply IH2; assumption|].
    apply HdRel_list_merge; [now constructor | exact H2].
Qed.

(** The lists on the stack of the sort are sorted lists of such values. *)
Local Abbreviation stack_ok st :=
  (Forall (fun o : option (list A) => forall l, o = Some l -> Sorted R l /\ Forall P l) st).

Lemma list_merge_Forall (l1 l2 : list A) :
  Forall P l1 -> Forall P l2 -> Forall P (list_merge R l1 l2).
Proof.
  intros H1 H2. rewrite merge_Permutation. now apply Forall_app.
Qed.

Lemma stack_ok_push st l :
  stack_ok st -> Sorted R l -> Forall P l -> stack_ok (merge_list_to_stack R st l).
Proof.
  intros Hst. revert l. induction Hst as [|o st Ho Hst IH]; intros l Sl Pl; simpl.
  - constructor; [|constructor]. now intros ? [= <-].
  - destruct o as [l'|].
    + destruct (Ho l' eq_refl) as [Sl' Pl'].
      constructor; [discriminate|].
      apply IH; [now apply Sorted_list_merge_on | now apply list_merge_Forall].
    + constructor; [|exact Hst]. now intros ? [= <-].
Qed.

Lemma stack_ok_merge st :
  stack_ok st -> Sorted R (merge_stack R st) /\ Forall P (merge_stack R st).
Proof.
  induction 1 as [|o st Ho _ [IHs IHp]]; simpl; [split; constructor|].
  destruct o as [l|]; [|now split].
  destruct (Ho l eq_refl) as [Sl Pl].
  split; [now apply Sorted_list_merge_on | now apply list_merge_Forall].
Qed.

Lemma Sorted_merge_sort_aux_on st l :
  stack_ok st -> Forall P l -> Sorted R (merge_sort_aux R st l).
Proof.
  revert st. induction l as [|x l IH]; intros st Hst Hl; simpl.
  - now apply stack_ok_merge.
  - apply Forall_cons in Hl as [Hx Hl].
    apply IH; [|exact Hl].
    apply stack_ok_push; [exact Hst | repeat constructor | now repeat constructor].
Qed.

Lemma Sorted_merge_sort_on l : Forall P l -> Sorted R (merge_sort R l).
Proof. intros Hl. apply Sorted_merge_sort_aux_on; [constructor | exact Hl]. Qed.

End SortedOn.

(** *** The order of float64 numbers *)

Lemma SFcompare_antisym (a b : spec_float) :
  SFcompare b a = CompOpp <$> SFcompare a b.
Proof.
  destruct a as [[]|[]| |[] m1 e1], b as [[]|[]| |[] m2 e2]; try reflexivity;
    simpl; rewrite (Z.compare_antisym e1 e2);
    destruct (e1 ?= e2); simpl; try reflexivity;
    change (Pos.compare_cont Eq m2 m1) with (Pos.compare m2 m1);
    change (Pos.compare_cont Eq m1 m2) with (Pos.compare m1 m2);
    rewrite (Pos.compare_antisym m1 m2); destruct (m1 ?= m2)%positive; reflexivity.
Qed.

(** Two numbers, neither of them NaN, can be compared. *)
Lemma leb_total (x y : float) :
  F64.isnull x = false -> F64.isnull y = false ->
  PrimFloat.leb x y = true \/ PrimFloat.leb y x = true.
Proof.
  rewrite !SignFacts.isnull_Prim2SF, !FloatAxioms.leb_spec. unfold SFleb.
  rewrite (SFcompare_antisym (Prim2SF x) (Prim2SF y)). intros Hx Hy.
  destruct (SFcompare (Prim2SF x) (Prim2SF y)) as [[]|] eqn:E; simpl; auto.
  exfalso.
  destruct (Prim2SF x) as [| | |sx mx ex], (Prim2SF y) as [| | |sy my ey];
    simpl in *; discriminate.
Qed.

(** The median is taken from the sorted values themselves. *)
Lemma sort_floats_Permutation (xs : list float) : Series.sort_floats xs ≡ₚ xs.
Proof. apply merge_sort_Permutation. Qed.

Lemma sort_floats_Sorted (xs : list float) :
  Forall (fun x => F64.isnull x = false) xs ->
  Sorted (fun x y => PrimFloat.leb x y = true) (Series.sort_floats xs).
Proof.
  intros Hxs.
  assert (Sorted (fun x y => Is_true (PrimFloat.leb x y)) (Series.sort_floats xs)) as H.
  { apply (Sorted_merge_sort_on _ (fun x => F64.isnull x = false)); [|exact Hxs].
    intros x y Hx Hy. destruct (leb_total x y Hx Hy) as [H|H]; rewrite H; simpl; auto. }
  induction H as [|x l _ IH Hd]; constructor; [exact IH|].
  destruct Hd as [|y l Hy]; constructor. now apply Is_true_true.
Qed.

(** The median of a column of counts that is not empty: the middle one
    of the counts in ascending order, or the mean of the two in the
    middle. *)
Lemma median_floats_middle (xs : list float) :
  xs <> [] ->
  Forall (fun x => F64.isnull x = false) xs ->
  exists s,
    s ≡ₚ xs /\
    Sorted (fun x y => PrimFloat.leb x y = true) s /\
    let n := List.length xs in
    if Nat.odd n then s !! (n / 2)%nat = Some (Series.median_floats xs)
    else exists a b,
      s !! (n / 2 - 1)%nat = Some a /\ s !! (n / 2)%nat = Some b /\
      Series.median_floats xs = ((a + b) / 2)%float.
Proof.
  intros Hne Hxs. exists (Series.sort_floats xs).
  pose proof (sort_floats_Permutation xs) as Hp.
  split; [exact Hp|]. split; [now apply sort_floats_Sorted|].
  pose proof (Permutation_length Hp) as Hlen.
  assert (0 < List.length xs)%nat as Hn by (destruct xs; [congruence | simpl; lia]).
  cbv zeta. unfold Series.median_floats. cbv zeta. rewrite Hlen.
  set (n := List.length xs) in *.
  assert (n / 2 < n)%nat as Hhalf by (apply Nat.div_lt; lia).
  destruct (n =? 0)%nat eqn:E; [apply Nat.eqb_eq in E; lia|].
  destruct (lookup_lt_is_Some_2 (Series.sort_floats xs) (n / 2)%nat) as [b Hb];
    [lia|].
  destruct (Nat.odd n).
  - now rewrite Hb.
  - destruct (lookup_lt_is_Some_2 (Series.sort_floats xs) (n / 2 - 1)%nat)
      as [a Ha]; [lia|].
    exists a, b. now rewrite Ha, Hb.
Qed.

(** C1: the labeler computes the median of the CrimeCount column over
    all rows and gives a row Risk 1 exactly when its CrimeCount is
    strictly above that median, Risk 0 otherwise; a row whose CrimeCount
    equals the median gets 0. The median of a column that is not empty
    is the middle one of the counts in ascending order, or the mean of
    the two in the middle. *)
Theorem risk_above_median (lc : DataFrame) (cc : list Z) :
  columns lc !! "CrimeCount" = Some (Int64 cc) ->
  exists m out risk,
    Series.median (Int64 cc) = Ok m /\
    (cc <> [] ->
     exists s,
       s ≡ₚ F64.of_int <$> cc /\
       Sorted (fun x y => PrimFloat.leb x y = true) s /\
       let n := List.length cc in
       if Nat.odd n then s !! (n / 2)%nat = Some m
       else exists a b,
         s !! (n / 2 - 1)%nat = Some a /\ s !! (n / 2)%nat = Some b /\
         m = ((a + b) / 2)%float) /\
    label_risk lc = Ok out /\
    columns out = <["Risk" := Int64 risk]> (columns lc) /\
    index out = index lc /\
    List.length risk = List.length cc /\
    forall i c, cc !! i = Some c ->
      exists r, risk !! i = Some r /\
        (r = 1 <-> PrimFloat.ltb m (F64.of_int c) = true) /\
        (r = 0 <-> PrimFloat.ltb m (F64.of_int c) = false) /\
        (PrimFloat.eqb (F64.of_int c) m = true -> r = 0).
Proof.
  intros H. eexists _, _, _.
  split; [reflexivity|]. split.
  { intros Hne.
    destruct (median_floats_middle (F64.of_int <$> cc)) as (s & Hp & Hs & Hm).
    - destruct cc; [congruence | discriminate].
    - apply Forall_fmap, Forall_forall. intros z _. apply SignFacts.of_int_notnull.
    - exists s. split; [exact Hp|]. split; [exact Hs|].
      cbv zeta in *. now rewrite length_fmap in Hm. }
  split; [exact (label_risk_run lc cc H)|].
  split; [reflexivity|]. split; [reflexivity|]. split.
  { now rewrite length_fmap, length_map, length_fmap. }
  intros i c Hc.
  set (m := Series.median_floats (F64.of_int <$> cc)).
  exists (if PrimFloat.ltb m (F64.of_int c) then 1 else 0). split.
  { rewrite list_lookup_fmap.
    change (List.map ?f ?l) with (f <$> l).
    now rewrite !list_lookup_fmap, Hc. }
  split; [|split].
  - destruct (PrimFloat.ltb m (F64.of_int c)); split; congruence.
  - destruct (PrimFloat.ltb m (F64.of_int c)); split; congruence.
  - intros He. now rewrite (F64Facts.eqb_not_gt _ _ He).
Qed.

Lemma risk_above_median_witness :
  exists m out risk s,
    Series.median (Int64 [1; 1; 1; 1; 62]) = Ok m /\
    s ≡ₚ F64.of_int <$> [1; 1; 1; 1; 62] /\
    Sorted (fun x y => PrimFloat.leb x y = true) s /\
    s !! 2%nat = Some m /\
    label_risk Examples.counts_frame = Ok out /\
    columns out = <["Risk" := Int64 risk]> (columns Examples.counts_frame) /\
    List.length risk = 5%nat.
Proof.
  destruct (risk_above_median Examples.counts_frame [1; 1; 1; 1; 62])
    as (m & out & risk & Hm & Hmid & Hout & Hcols & _ & Hlen & _); [reflexivity|].
  destruct Hmid as (s & Hp & Hs & Hmid); [discriminate|].
  exists m, out, risk, s. simpl in Hmid. auto 10.
Defined.

(** The scenario of the design: counts 1, 1, 1, 1, 62 have median 1;
    the rows with count 1 get Risk 0 and the row with count 62 Risk 1. *)
Example risk_of_counts :
  Series.median (Int64 [1; 1; 1; 1; 62]) = Ok 1%float /\
  (out ← label_risk Examples.counts_frame; Frame.getitem out "Risk")
    = Ok (Int64 [0; 0; 0; 0; 1]).
Proof. split; vm_compute; reflexivity. Qed.

End LabelFacts.

(** ** Aggregation by location *)

Module AggregateFacts.
Import ETL.

(** *** The two key types *)

Lemma int_coord_laws : coord_laws Z.
Proof.
  repeat split; simpl.
  - intros x _. apply Z.eqb_refl.
  - intros x y H. now rewrite Z.eqb_sym.
  - intros x y z H1%Z.eqb_eq H2%Z.eqb_eq. apply Z.eqb_eq. congruence.
Qed.

Lemma float_coord_laws : coord_laws float.
Proof.
  repeat split; simpl.
  - intros x H. apply F64Facts.eqb_refl. now apply negb_true_iff in H.
  - intros x y H. now rewrite F64Facts.eqb_sym.
  - apply F64Facts.eqb_trans.
  - intros x y H. unfold F64.notnull. now rewrite (F64Facts.eqb_notnull x y H).
Qed.

(** *** Lists *)

Lemma Forall_filter_bool {A} (P : A -> Prop) (f : A -> bool) (l : list A) :
  Forall P l -> Forall P (List.filter f l).
Proof.
  induction 1 as [| x l Hx _ IH]; simpl; [constructor|].
  destruct (f x); [now constructor | exact IH].
Qed.

Lemma zip_fmap_same {A B C} (f : A -> B) (g : A -> C) (l : list A) :
  zip (f <$> l) (g <$> l) = (fun x => (f x, g x)) <$> l.
Proof.
  induction l as [| x l IH]; [reflexivity|].
  rewrite !fmap_cons. cbn [zip_with]. f_equal. exact IH.
Qed.

Lemma Forall_zip_r {A B} (P : B -> Prop) (l : list A) (k : list B) :
  Forall P k -> Forall (fun p => P p.2) (zip l k).
Proof.
  intros Hk. revert l.
  induction Hk as [| y k Hy _ IH]; intros [| x l]; simpl; constructor; auto.
Qed.

Lemma filter_nil_bool {A} (f : A -> bool) (l : list A) :
  (forall x, In x l -> f x = false) -> List.filter f l = [].
Proof.
  induction l as [| x l IH]; simpl; intros H; [reflexivity|].
  rewrite (H x) by now left. apply IH. intros y Hy. apply H. now right.
Qed.

Lemma filter_filter_ext {A} (f g : A -> bool) (l : list A) :
  (forall x, In x l -> g x = true -> f x = true) ->
  List.filter g (List.filter f l) = List.filter g l.
Proof.
  induction l as [|x l IH]; intros H; [reflexivity|]. simpl.
  destruct (f x) eqn:Ef; simpl.
  - destruct (g x); [f_equal|]; apply IH; intros; apply H; simpl; auto.
  - destruct (g x) eqn:Eg.
    + rewrite (H x (or_introl eq_refl) Eg) in Ef. discriminate.
    + apply IH. intros; apply H; simpl; auto.
Qed.

Lemma filter_length_Permutation {A} (f : A -> bool) (l l' : list A) :
  l ≡ₚ l' -> List.length (List.filter f l) = List.length (List.filter f l').
Proof.
  induction 1 as [|x l l' _ IH|x y l|l l' l'' _ IH1 _ IH2]; simpl.
  - reflexivity.
  - destruct (f x); simpl; now rewrite IH.
  - destruct (f x), (f y); reflexivity.
  - now rewrite IH1.
Qed.

Lemma filter_all {A} (f : A -> bool) (l : list A) :
  Forall (fun x => f x = true) l -> List.filter f l = l.
Proof. induction 1 as [|x l Hx _ IH]; simpl; [reflexivity|]. now rewrite Hx, IH. Qed.

Lemma find_first {A} (f : A -> bool) (xs : list A) y :
  List.find f xs = Some y ->
  exists i, xs !! i = Some y /\ f y = true /\
    forall i' x, (i' < i)%nat -> xs !! i' = Some x -> f x = false.
Proof.
  induction xs as [|x xs IH]; simpl; [discriminate|].
  destruct (f x) eqn:E.
  - intros [= <-]. exists 0%nat. split; [reflexivity|]. split; [exact E|]. lia.
  - intros (i & Hi & Hy & Hfirst)%IH. exists (S i).
    split; [exact Hi|]. split; [exact Hy|].
    intros [|i'] x' Hlt Hx'; simpl in Hx'.
    + now injection Hx' as <-.
    + apply (Hfirst i'); [lia | exact Hx'].
Qed.

(** The label of a value of a column is a cell of the column that
    equals it, the first one. *)
Lemma canon_first {A} `{Coord A} (xs : list A) (x : A) :
  coord_laws A -> In x xs -> coord_notnull x = true ->
  coord_eqb (canon xs x) x = true /\
  exists i, xs !! i = Some (canon xs x) /\
    forall i' x', (i' < i)%nat -> xs !! i' = Some x' ->
                  coord_eqb x' (canon xs x) = false.
Proof.
  intros (Hrefl & Hsym & Htrans & _) Hx Hn. unfold canon.
  destruct (List.find (fun y => coord_eqb y x) xs) as [y|] eqn:E; simpl.
  - apply find_first in E as (i & Hi & Hy & Hfirst).
    split; [exact Hy|]. exists i. split; [exact Hi|].
    intros i' x' Hlt Hx'.
    destruct (coord_eqb x' y) eqn:Ey; [|reflexivity].
    rewrite <- (Hfirst i' x' Hlt Hx'). symmetry. exact (Htrans _ _ _ Ey Hy).
  - pose proof (find_none _ _ E x Hx) as Hf. simpl in Hf.
    rewrite (Hrefl x Hn) in Hf. discriminate.
Qed.

Lemma canon_spec {A} `{Coord A} (xs : list A) (x : A) :
  coord_laws A -> In x xs -> coord_notnull x = true ->
  In (canon xs x) xs /\ coord_eqb (canon xs x) x = true.
Proof.
  intros (Hrefl & _) Hx Hn. unfold canon.
  destruct (List.find (fun y => coord_eqb y x) xs) as [y|] eqn:E; simpl.
  - now apply find_some in E.
  - pose proof (find_none _ _ E x Hx) as Hf. simpl in Hf.
    rewrite (Hrefl x Hn) in Hf. discriminate.
Qed.

(** *** Groups *)

Section Groups.

Context {A B : Type} `{Coord A} `{Coord B}.
Hypothesis laws_A : coord_laws A.
Hypothesis laws_B : coord_laws B.

Lemma key_eqb_refl (k : key A B) : key_notnull k = true -> key_eqb k k = true.
Proof.
  destruct laws_A as (RA & _), laws_B as (RB & _).
  unfold key_notnull, key_eqb. intros [H1 H2]%andb_true_iff.
  now rewrite (RA _ H1), (RB _ H2).
Qed.

Lemma key_eqb_symm (a b : key A B) : key_eqb a b = true -> key_eqb b a = true.
Proof.
  destruct laws_A as (_ & SA & _), laws_B as (_ & SB & _).
  unfold key_eqb. intros [H1 H2]%andb_true_iff.
  now rewrite (SA _ _ H1), (SB _ _ H2).
Qed.

Lemma key_eqb_trans (a b c : key A B) :
  key_eqb a b = true -> key_eqb b c = true -> key_eqb a c = true.
Proof.
  destruct laws_A as (_ & _ & TA & _), laws_B as (_ & _ & TB & _).
  unfold key_eqb. intros [H1 H2]%andb_true_iff [H3 H4]%andb_true_iff.
  now rewrite (TA _ _ _ H1 H3), (TB _ _ _ H2 H4).
Qed.

Lemma key_eqb_notnull (a b : key A B) : key_eqb a b = true -> key_notnull a = true.
Proof.
  destruct laws_A as (_ & _ & _ & NA), laws_B as (_ & _ & _ & NB).
  unfold key_eqb, key_notnull. intros [H1 H2]%andb_true_iff.
  now rewrite (NA _ _ H1), (NB _ _ H2).
Qed.

Lemma group_keys_In (ks : list (key A B)) k : In k (group_keys ks) -> In k ks.
Proof.
  induction ks as [| k0 ks IH]; simpl; [tauto|].
  intros [-> | Hk]; [now left|].
  right. apply IH. now apply filter_In in Hk.
Qed.

Lemma incidents_In (lat : list A) (lon : list B) present viol (r : incident A B) :
  In r (incidents lat lon present viol) ->
  In r.1.1 lat /\ In r.1.2 lon /\ key_notnull r.1 = true.
Proof.
  unfold incidents. intros [Hr Hn]%filter_In. split; [|split; [|exact Hn]].
  - apply list_elem_of_In. apply list_elem_of_In in Hr.
    destruct r as [[a b] p]. apply elem_of_zip_l, elem_of_zip_l in Hr. exact Hr.
  - apply list_elem_of_In. apply list_elem_of_In in Hr.
    destruct r as [[a b] p]. apply elem_of_zip_l, elem_of_zip_r in Hr. exact Hr.
Qed.

(** The label of the location of an incident is that location. *)
Lemma label_eqb (lat : list A) (lon : list B) present viol (r : incident A B) :
  In r (incidents lat lon present viol) ->
  key_eqb (label lat lon r.1) r.1 = true.
Proof.
  intros (H1 & H2 & Hn)%incidents_In.
  apply andb_true_iff in Hn as [Hn1 Hn2].
  unfold key_eqb, label. simpl.
  destruct (canon_spec lat r.1.1 laws_A H1 Hn1) as [_ ->].
  destruct (canon_spec lon r.1.2 laws_B H2 Hn2) as [_ ->]. reflexivity.
Qed.

(** Every output row is the group of an incident, under the labels of
    the incident's coordinates. *)
Lemma sorted_keys_In (lat : list A) (lon : list B) present viol k :
  let rows := incidents lat lon present viol in
  In k (sorted_keys lat lon rows) ->
  exists r, In r rows /\ k = label lat lon r.1 /\ key_eqb k r.1 = true.
Proof.
  intros rows Hk. unfold sorted_keys in Hk.
  apply list_elem_of_In in Hk. rewrite merge_sort_Permutation in Hk.
  apply list_elem_of_fmap in Hk as (k0 & -> & Hk0).
  apply list_elem_of_In in Hk0. apply (group_keys_In (fst <$> rows) k0) in Hk0.
  apply list_elem_of_In in Hk0.
  apply list_elem_of_fmap in Hk0 as (r & -> & Hr). apply list_elem_of_In in Hr.
  exists r. split; [exact Hr|]. split; [reflexivity|].
  now apply (label_eqb lat lon present viol).
Qed.

Lemma sum_cons (r : incident A B) g : sum (r :: g) = r.2.2 + sum g.
Proof. reflexivity. Qed.

Lemma count_cons (r : incident A B) g :
  count (r :: g) = (if r.2.1 then 1 else 0) + count g.
Proof.
  unfold count. simpl. destruct (r.2.1); [|reflexivity].
  cbn [List.length]. lia.
Qed.

Lemma sum_le_count (g : list (incident A B)) :
  Forall indicator g -> 0 <= sum g <= count g.
Proof.
  induction 1 as [| r g Hr _ IH]; [unfold sum, count; simpl; lia|].
  rewrite sum_cons, count_cons. unfold indicator in Hr. lia.
Qed.

Lemma count_pos (g : list (incident A B)) r :
  In r g -> r.2.1 = true -> 1 <= count g.
Proof.
  intros Hr Hp. unfold count.
  assert (In r (List.filter (fun r : incident A B => r.2.1) g)) as Hin
    by (apply filter_In; auto).
  destruct (List.filter _ g); [destruct Hin | simpl; lia].
Qed.

(** The incidents the normaliser hands over carry an indicator. *)
Lemma incidents_indicator (lat : list A) (lon : list B) (pt : list (option string)) viol :
  Int64 viol = Series.isin_int violent_crimes (Object pt) ->
  Forall indicator (incidents lat lon (Series.notnull (Object pt)) viol).
Proof.
  intros [= ->]. unfold incidents. apply Forall_filter_bool.
  change (Series.notnull (Object pt))
    with ((fun o : option string => bool_decide (is_Some o)) <$> pt).
  rewrite zip_fmap_same.
  apply (Forall_zip_r (fun p : bool * Z => 0 <= p.2 <= (if p.1 then 1 else 0))).
  apply Forall_fmap, Forall_forall. intros [v|] _; simpl.
  - case_bool_decide; lia.
  - lia.
Qed.

Lemma incidents_present (lat : list A) (lon : list B) (pt : list (option string))
    viol (r : incident A B) :
  Forall is_Some pt ->
  In r (incidents lat lon (Series.notnull (Object pt)) viol) -> r.2.1 = true.
Proof.
  intros Hpt [Hr _]%filter_In.
  apply list_elem_of_In in Hr. destruct r as [k [b v]]; simpl.
  apply elem_of_zip_r, elem_of_zip_l in Hr. simpl in Hr.
  apply list_elem_of_fmap in Hr as (o & -> & Ho).
  rewrite Forall_forall in Hpt. apply bool_decide_eq_true, Hpt, Ho.
Qed.

(** Row by row: the counts of a group made from incidents that carry
    an indicator, and the count of a group whose incidents all have
    their [primary_type]. *)
Lemma aggregate_by_counts (lat : list A) (lon : list B) (pt : list (option string))
    viol :
  Int64 viol = Series.isin_int violent_crimes (Object pt) ->
  let rows := incidents lat lon (Series.notnull (Object pt)) viol in
  forall k, In k (sorted_keys lat lon rows) ->
    0 <= sum (group k rows) <= count (group k rows) /\
    (Forall is_Some pt -> 1 <= count (group k rows)).
Proof.
  intros Hviol rows k Hk.
  assert (Forall indicator rows) as Hind by now apply incidents_indicator.
  split.
  - apply sum_le_count, Forall_filter_bool, Hind.
  - intros Hall.
    apply sorted_keys_In in Hk as (r & Hr & _ & Hkr).
    apply (count_pos _ r).
    + apply filter_In. split; [exact Hr | exact Hkr].
    + now apply (incidents_present lat lon pt viol).
Qed.

(** Incidents that are all at the location of the first make one group. *)
Lemma sorted_keys_single (lat : list A) (lon : list B) (r0 : incident A B)
    (rest : list (incident A B)) :
  Forall (fun r => key_eqb r0.1 r.1 = true) rest ->
  sorted_keys lat lon (r0 :: rest) = [label lat lon r0.1].
Proof.
  intros Hall. unfold sorted_keys. rewrite fmap_cons. cbn [group_keys].
  rewrite filter_nil_bool; [reflexivity|].
  intros k Hk%group_keys_In%list_elem_of_In.
  apply list_elem_of_fmap in Hk as (r & -> & Hr).
  rewrite Forall_forall in Hall. now rewrite (Hall r Hr).
Qed.

(** *** One group per location *)

Lemma matches_group_keys_none (ks : list (key A B)) k0 :
  Forall (fun k => key_eqb k k0 = false) ks -> matches k0 (group_keys ks) = 0%nat.
Proof.
  intros Hall. unfold matches. rewrite filter_nil_bool; [reflexivity|].
  intros k Hk%group_keys_In. rewrite Forall_forall in Hall.
  now apply Hall, list_elem_of_In.
Qed.

(** Each location that occurs is one group. *)
Lemma matches_group_keys (ks : list (key A B)) k0 :
  Exists (fun k => key_eqb k k0 = true) ks -> matches k0 (group_keys ks) = 1%nat.
Proof.
  induction ks as [|k ks IH]; intros Hex; [inversion Hex|].
  unfold matches. cbn [group_keys List.filter].
  destruct (key_eqb k k0) eqn:E.
  - cbn [List.length]. f_equal. rewrite filter_nil_bool; [reflexivity|].
    intros k' [_ Hk']%filter_In. apply negb_true_iff in Hk'.
    destruct (key_eqb k' k0) eqn:E'; [|reflexivity].
    apply key_eqb_symm in E'. rewrite (key_eqb_trans _ _ _ E E') in Hk'. discriminate.
  - rewrite filter_filter_ext.
    + apply IH. inversion Hex as [? ? Hk|? ? Hex']; subst; [congruence | exact Hex'].
    + intros k' _ Hk'. apply negb_true_iff.
      destruct (key_eqb k k') eqn:E'; [|reflexivity].
      rewrite (key_eqb_trans _ _ _ E' Hk') in E. discriminate.
Qed.

(** Labelling the groups does not move them. *)
Lemma matches_label (lat : list A) (lon : list B) (ks : list (key A B)) k0 :
  Forall (fun k => key_eqb (label lat lon k) k = true) ks ->
  matches k0 (label lat lon <$> ks) = matches k0 ks.
Proof.
  unfold matches. induction 1 as [|k ks Hk _ IH]; [reflexivity|].
  rewrite fmap_cons. cbn [List.filter].
  assert (key_eqb (label lat lon k) k0 = key_eqb k k0) as ->.
  { destruct (key_eqb k k0) eqn:E.
    - exact (key_eqb_trans _ _ _ Hk E).
    - destruct (key_eqb (label lat lon k) k0) eqn:E'; [|reflexivity].
      rewrite <- E. symmetry.
      exact (key_eqb_trans _ _ _ (key_eqb_symm _ _ Hk) E'). }
  destruct (key_eqb k k0); cbn [List.length]; now rewrite IH.
Qed.

Lemma matches_sorted_keys (lat : list A) (lon : list B) present viol
    (r : incident A B) :
  let rows := incidents lat lon present viol in
  In r rows -> matches r.1 (sorted_keys lat lon rows) = 1%nat.
Proof.
  intros rows Hr. unfold matches, sorted_keys.
  rewrite (filter_length_Permutation _ _ _ (merge_sort_Permutation _ _)).
  fold (matches r.1 (label lat lon <$> group_keys rows.*1)).
  rewrite matches_label.
  - apply matches_group_keys. apply Exists_exists. exists r.1. split.
    + apply list_elem_of_fmap. exists r. split; [reflexivity | now apply list_elem_of_In].
    + apply key_eqb_refl. now apply (incidents_In lat lon present viol).
  - apply Forall_forall. intros k Hk%list_elem_of_In%group_keys_In%list_elem_of_In.
    apply list_elem_of_fmap in Hk as (r' & -> & Hr'%list_elem_of_In).
    now apply (label_eqb lat lon present viol).
Qed.

(** The label of a group: each coordinate is the first cell of its own
    column that is equal, as a number, to the coordinate of the group's
    incidents. *)
Lemma sorted_keys_first (lat : list A) (lon : list B) present viol k :
  In k (sorted_keys lat lon (incidents lat lon present viol)) ->
  (exists i, lat !! i = Some k.1 /\
     forall i' x, (i' < i)%nat -> lat !! i' = Some x -> coord_eqb x k.1 = false) /\
  (exists i, lon !! i = Some k.2 /\
     forall i' x, (i' < i)%nat -> lon !! i' = Some x -> coord_eqb x k.2 = false).
Proof.
  intros (r & Hr & -> & _)%sorted_keys_In.
  apply incidents_In in Hr as (H1 & H2 & [Hn1 Hn2]%andb_true_iff).
  unfold label; simpl. split.
  - exact (proj2 (canon_first lat r.1.1 laws_A H1 Hn1)).
  - exact (proj2 (canon_first lon r.1.2 laws_B H2 Hn2)).
Qed.

(** *** Totals over the groups *)

Lemma total_cons (w : incident A B -> Z) r g : total w (r :: g) = w r + total w g.
Proof. reflexivity. Qed.

Lemma total_groups_cons (w : incident A B -> Z) (keys : list (key A B)) r rows :
  foldr Z.add 0 ((fun k => total w (group k (r :: rows))) <$> keys)
  = w r * Z.of_nat (matches r.1 keys)
    + foldr Z.add 0 ((fun k => total w (group k rows)) <$> keys).
Proof.
  unfold matches. induction keys as [|k keys IH]; [simpl; lia|].
  rewrite !fmap_cons. cbn [foldr List.filter]. rewrite IH.
  unfold group at 1. cbn [List.filter].
  destruct (key_eqb k r.1); [|fold (group k rows); lia].
  fold (group k rows). rewrite total_cons. cbn [List.length]. lia.
Qed.

Lemma total_groups (w : incident A B -> Z) (keys : list (key A B)) rows :
  (forall r, In r rows -> matches r.1 keys = 1%nat) ->
  foldr Z.add 0 ((fun k => total w (group k rows)) <$> keys) = total w rows.
Proof.
  induction rows as [|r rows IH]; intros Hone.
  - clear Hone. induction keys as [|k keys IHk]; [reflexivity|].
    rewrite fmap_cons. cbn [foldr]. rewrite IHk. reflexivity.
  - rewrite total_groups_cons, (Hone r (or_introl eq_refl)), total_cons, IH; [lia|].
    intros r' Hr'. apply Hone. now right.
Qed.

Lemma count_total (g : list (incident A B)) :
  count g = total (fun r => if r.2.1 then 1 else 0) g.
Proof.
  induction g as [|r g IH]; [reflexivity|]. now rewrite count_cons, total_cons, IH.
Qed.

Lemma sum_total (g : list (incident A B)) : sum g = total (fun r => r.2.2) g.
Proof. reflexivity. Qed.

(** The aggregation loses nothing and counts nothing twice. *)
Lemma aggregate_by_totals (lat : list A) (lon : list B) present viol :
  let rows := incidents lat lon present viol in
  let keys := sorted_keys lat lon rows in
  foldr Z.add 0 ((fun k => count (group k rows)) <$> keys) = count rows /\
  foldr Z.add 0 ((fun k => sum (group k rows)) <$> keys) = sum rows.
Proof.
  intros rows keys.
  assert (forall r, In r rows -> matches r.1 keys = 1%nat) as Hone
    by (intros r Hr; now apply matches_sorted_keys).
  split.
  - rewrite count_total, <- (total_groups _ keys rows Hone).
    f_equal. apply list_fmap_ext. intros _ k _. apply count_total.
  - rewrite sum_total, <- (total_groups _ keys rows Hone). reflexivity.
Qed.

Lemma count_le_length (g : list (incident A B)) : count g <= Z.of_nat (List.length g).
Proof.
  unfold count. apply inj_le.
  induction g as [|r g IH]; simpl; [lia|]. destruct (r.2.1); simpl; lia.
Qed.

Lemma incidents_length (lat : list A) (lon : list B) present viol :
  (List.length (incidents lat lon present viol) <= List.length lat)%nat.
Proof.
  unfold incidents.
  assert (forall {X} (f : X -> bool) (l : list X),
            (List.length (List.filter f l) <= List.length l)%nat) as Hf.
  { intros X f l. induction l as [|x l IH]; simpl; [lia|].
    destruct (f x); simpl; lia. }
  etransitivity; [apply Hf|]. rewrite !length_zip_with. lia.
Qed.

Lemma incidents_lookup (lat : list A) (lon : list B) present viol i la lo b v :
  lat !! i = Some la -> lon !! i = Some lo ->
  present !! i = Some b -> viol !! i = Some v ->
  key_notnull (la, lo) = true ->
  In ((la, lo), (b, v)) (incidents lat lon present viol).
Proof.
  intros Hla Hlo Hb Hv Hn. unfold incidents. apply filter_In. split; [|exact Hn].
  apply list_elem_of_In, list_elem_of_lookup. exists i.
  rewrite !lookup_zip_with, Hla, Hlo, Hb, Hv. reflexivity.
Qed.

(** *** The incidents of a list of records *)

Lemma incidents_of_records (fa : record -> A) (fb : record -> B) (K : list record) :
  Forall (fun r => key_notnull (fa r, fb r) = true) K ->
  incidents (fa <$> K) (fb <$> K)
    (Series.notnull (Object ((fun r : record => r !! "primary_type") <$> K)))
    (is_violent <$> K)
  = incident_of fa fb <$> K.
Proof.
  intros HK. unfold incidents. cbn [Series.notnull].
  rewrite <- list_fmap_compose, !zip_fmap_same.
  change (fun x : record => _) with (incident_of fa fb).
  apply filter_all, Forall_fmap. eapply Forall_impl; [exact HK|].
  intros r Hr. exact Hr.
Qed.

Lemma count_incident_of (fa : record -> A) (fb : record -> B) (K : list record) :
  count (incident_of fa fb <$> K)
  = Z.of_nat (List.length
      (List.filter (fun r : record => bool_decide (is_Some (r !! "primary_type"))) K)).
Proof.
  induction K as [|r K IH]; [reflexivity|].
  rewrite fmap_cons, count_cons, IH. cbn [List.filter].
  change ((incident_of fa fb r).2.1) with (bool_decide (is_Some (r !! "primary_type"))).
  destruct (bool_decide (is_Some (r !! "primary_type"))); cbn [List.length]; lia.
Qed.

Lemma sum_incident_of (fa : record -> A) (fb : record -> B) (K : list record) :
  sum (incident_of fa fb <$> K)
  = Z.of_nat (List.length
      (List.filter (fun r : record => bool_decide (is_violent r = 1)) K)).
Proof.
  induction K as [|r K IH]; [reflexivity|].
  rewrite fmap_cons, sum_cons, IH. cbn [List.filter].
  change ((incident_of fa fb r).2.2) with (is_violent r).
  unfold ETL.is_violent. destruct (r !! "primary_type") as [t|].
  - destruct (bool_decide (t ∈ violent_crimes)); simpl; cbn [List.length]; lia.
  - simpl. lia.
Qed.

End Groups.

(** *** The aggregate of a frame with float64 coordinates *)

Lemma aggregate_run (df : DataFrame) lat lon pt viol :
  columns df !! "latitude" = Some (Float64 lat) ->
  columns df !! "longitude" = Some (Float64 lon) ->
  columns df !! "primary_type" = Some pt ->
  columns df !! "IsViolent" = Some (Int64 viol) ->
  let rows := incidents lat lon (Series.notnull pt) viol in
  let keys := sorted_keys lat lon rows in
  aggregate df =
  Ok (mkFrame (Z.of_nat <$> seq 0 (List.length keys))
        (<["ViolentCount" := Int64 ((fun k => sum (group k rows)) <$> keys)]>
         (<["CrimeCount" := Int64 ((fun k => count (group k rows)) <$> keys)]>
         (<["longitude" := Float64 (snd <$> keys)]>
         (<["latitude" := Float64 (fst <$> keys)]> ∅))))).
Proof.
  intros Hlat Hlon Hpt Hviol. unfold aggregate, Frame.getitem.
  rewrite Hlat, Hlon, Hpt, Hviol. reflexivity.
Qed.

(** X21. What the aggregator guarantees: in every row it makes from
    normalised incidents, 0 <= ViolentCount <= CrimeCount; CrimeCount
    counts the incidents of the group whose primary_type is present, so
    it is at least 1 when no incident lacks its primary_type. *)
Theorem aggregate_counts (df : DataFrame) lat lon (pt : list (option string)) :
  columns df !! "latitude" = Some (Float64 lat) ->
  columns df !! "longitude" = Some (Float64 lon) ->
  columns df !! "primary_type" = Some (Object pt) ->
  columns df !! "IsViolent" = Some (Series.isin_int violent_crimes (Object pt)) ->
  exists lc cc vc,
    aggregate df = Ok lc /\
    columns lc !! "CrimeCount" = Some (Int64 cc) /\
    columns lc !! "ViolentCount" = Some (Int64 vc) /\
    List.length cc = Frame.nrows lc /\
    List.length vc = Frame.nrows lc /\
    forall i c v, cc !! i = Some c -> vc !! i = Some v ->
      0 <= v <= c /\ (Forall is_Some pt -> 1 <= c).
Proof.
  intros Hlat Hlon Hpt Hviol.
  destruct (Series.isin_int violent_crimes (Object pt)) as [| |viol|] eqn:Eviol;
    try discriminate Eviol.
  pose proof (aggregate_run df lat lon (Object pt) viol Hlat Hlon Hpt Hviol) as Hrun.
  cbv zeta in Hrun.
  set (rows := incidents lat lon (Series.notnull (Object pt)) viol) in *.
  set (keys := sorted_keys lat lon rows) in *.
  eexists _, _, _. split; [exact Hrun|].
  split; [by simplify_map_eq|]. split; [by simplify_map_eq|].
  unfold Frame.nrows; simpl. rewrite !length_fmap, length_seq.
  split; [reflexivity|]. split; [reflexivity|].
  intros i c v Hc Hv.
  apply list_lookup_fmap_Some in Hc as (k & -> & Hk).
  apply list_lookup_fmap_Some in Hv as (k' & -> & Hk').
  assert (k' = k) as -> by congruence.
  apply (aggregate_by_counts float_coord_laws float_coord_laws lat lon pt viol).
  - now rewrite Eviol.
  - apply list_elem_of_In, list_elem_of_lookup; eauto.
Qed.

Example aggregate_counts_one_location :
  exists lc cc vc,
    aggregate Examples.one_location_frame = Ok lc /\
    columns lc !! "CrimeCount" = Some (Int64 cc) /\
    columns lc !! "ViolentCount" = Some (Int64 vc) /\
    forall i c v, cc !! i = Some c -> vc !! i = Some v -> 0 <= v <= c.
Proof.
  destruct (aggregate_counts Examples.one_location_frame
              [41.5; 41.5; 41.5]%float [(-87.5); (-87.5); (-87.5)]%float
              [Some "THEFT"; Some "ROBBERY"; Some "BATTERY"])
    as (lc & cc & vc & Hrun & Hcc & Hvc & _ & _ & Hrows);
    [reflexivity | reflexivity | reflexivity | reflexivity |].
  exists lc, cc, vc. repeat split; try assumption; now apply (Hrows i c v).
Defined.

(** An incident without its [primary_type] is one that [count] skips:
    a location whose only incident has none gets CrimeCount 0. A feed
    of typed records has no such incident. *)
Example count_skips_missing_type :
  (lc ← aggregate Examples.untyped_incident_frame; Frame.getitem lc "CrimeCount")
    = Ok (Int64 [0]) /\
  Frame.nrows Examples.untyped_incident_frame = 1%nat /\
  (nf ← normalize Examples.parse_numeric_sample Examples.parse_datetime_sample
          Examples.untyped_records;
   lc ← aggregate nf; Frame.getitem lc "CrimeCount")
    = Ok (Int64 [0; 1]).
Proof. repeat split; vm_compute; reflexivity. Qed.

(** C7: when every incident is at one location, the aggregator makes
    one row, the median of the CrimeCount column is that row's own
    count, and the row gets Risk 0. *)
Theorem single_location_low_risk (df : DataFrame) lat lon pt viol r0 rest :
  columns df !! "latitude" = Some (Float64 lat) ->
  columns df !! "longitude" = Some (Float64 lon) ->
  columns df !! "primary_type" = Some pt ->
  columns df !! "IsViolent" = Some (Int64 viol) ->
  incidents lat lon (Series.notnull pt) viol = r0 :: rest ->
  Forall (fun r => key_eqb r0.1 r.1 = true) rest ->
  exists lc c out,
    aggregate df = Ok lc /\
    index lc = [0] /\
    columns lc !! "CrimeCount" = Some (Int64 [c]) /\
    Series.median (Int64 [c]) = Ok (F64.of_int c) /\
    label_risk lc = Ok out /\
    index out = [0] /\
    columns out !! "Risk" = Some (Int64 [0]).
Proof.
  intros Hlat Hlon Hpt Hviol Hrows Hall.
  pose proof (aggregate_run df lat lon pt viol Hlat Hlon Hpt Hviol) as Hrun.
  cbv zeta in Hrun. rewrite Hrows in Hrun.
  rewrite (sorted_keys_single lat lon r0 rest Hall) in Hrun.
  eexists _, (count (group (label lat lon r0.1) (r0 :: rest))), _.
  split; [exact Hrun|]. split; [reflexivity|].
  split; [by simplify_map_eq|]. split; [reflexivity|].
  split; [apply LabelFacts.label_risk_run; by simplify_map_eq|].
  split; [reflexivity|].
  unfold Frame.setitem; simpl. rewrite lookup_insert_eq.
  unfold Series.astype_int. cbn [fmap list_fmap List.map].
  change (Series.median_floats [F64.of_int (count (group (label lat lon r0.1) (r0 :: rest)))])
    with (F64.of_int (count (group (label lat lon r0.1) (r0 :: rest)))).
  now rewrite F64Facts.ltb_irrefl.
Qed.

Lemma single_location_low_risk_witness :
  exists lc c out,
    aggregate Examples.one_location_frame = Ok lc /\
    columns lc !! "CrimeCount" = Some (Int64 [c]) /\
    Series.median (Int64 [c]) = Ok (F64.of_int c) /\
    label_risk lc = Ok out /\
    columns out !! "Risk" = Some (Int64 [0]).
Proof.
  destruct (single_location_low_risk Examples.one_location_frame
              [41.5; 41.5; 41.5]%float [(-87.5); (-87.5); (-87.5)]%float
              (Object [Some "THEFT"; Some "ROBBERY"; Some "BATTERY"]) [0; 1; 1]
              ((41.5, -87.5)%float, (true, 0))
              [((41.5, -87.5)%float, (true, 1)); ((41.5, -87.5)%float, (true, 1))])
    as (lc & c & out & Hrun & _ & Hcc & Hm & Hout & _ & Hrisk);
    [reflexivity | reflexivity | reflexivity | reflexivity | reflexivity
    | repeat constructor |].
  exists lc, c, out. auto.
Defined.

End AggregateFacts.

(** ** Boolean masks and positional selection *)

Module MaskFacts.
Import Series.

Lemma mask_nil_r {A} (m : list bool) : mask m (@nil A) = [].
Proof. now destruct m. Qed.



Lemma mask_fmap {A B} (f : A -> B) (m : list bool) (a : list A) :
  mask m (f <$> a) = f <$> mask m a.
Proof.
  revert a. induction m as [| x m IH]; intros [| p a]; simpl; try reflexivity.
  destruct x; simpl; now rewrite IH.
Qed.

Lemma mask_length_eq {A B} (m : list bool) (a : list A) (b : list B) :
  List.length a = List.length b ->
  List.length (mask m a) = List.length (mask m b).
Proof.
  revert a b. induction m as [| x m IH]; intros [| p a] [| q b]; simpl;
    try reflexivity; try discriminate.
  intros [= H]. destruct x; simpl; auto.
Qed.

(** What a mask keeps: the cells at the positions where it is true. *)
Lemma elem_of_mask {A} (m : list bool) (a : list A) x :
  x ∈ mask m a <-> exists i, a !! i = Some x /\ m !! i = Some true.
Proof.
  revert a. induction m as [| b m IH]; intros [| y a]; simpl.
  - rewrite elem_of_nil. split; [tauto | intros (i & H & _); discriminate H].
  - rewrite elem_of_nil. split; [tauto | intros (i & _ & H); discriminate H].
  - rewrite elem_of_nil. split; [tauto | intros (i & H & _); discriminate H].
  - destruct b.
    + rewrite elem_of_cons, IH. split.
      * intros [-> | (i & H1 & H2)]; [now exists 0%nat | now exists (S i)].
      * intros ([| i] & H1 & H2); simpl in *; [left; congruence | right; eauto].
    + rewrite IH. split.
      * intros (i & H1 & H2). now exists (S i).
      * intros ([| i] & H1 & H2); simpl in *; [discriminate | eauto].
Qed.

Lemma lookup_zip3 {A B C} (a : list A) (b : list B) (c : list C) j x y z :
  a !! j = Some x -> b !! j = Some y -> c !! j = Some z ->
  zip a (zip b c) !! j = Some (x, (y, z)).
Proof.
  intros Ha Hb Hc. rewrite !lookup_zip_with, Ha, Hb, Hc. reflexivity.
Qed.

End MaskFacts.

(** ** The normaliser *)

Module NormalizeFacts.
Import ETL MaskFacts.

Lemma select_Ok cs df df' :
  Frame.select cs df = Ok df' ->
  index df' = index df /\
  forall c, c ∈ cs -> is_Some (columns df !! c) /\ columns df' !! c = columns df !! c.
Proof.
  unfold Frame.select.
  destruct (List.find _ cs) as [c0|] eqn:Hfind; [discriminate|].
  intros [= <-]. split; [reflexivity|]. intros c Hc; simpl.
  pose proof (find_none _ _ Hfind c (proj1 (list_elem_of_In _ _) Hc)) as Hn.
  apply bool_decide_eq_false in Hn.
  destruct (columns df !! c) as [s|] eqn:E; [|congruence].
  split; [eauto|]. apply map_lookup_filter_Some. split; [exact E | exact Hc].
Qed.

Lemma getitem_Ok df c s :
  Frame.getitem df c = Ok s -> columns df !! c = Some s.
Proof. unfold Frame.getitem. destruct (columns df !! c); now intros [= <-]. Qed.

Lemma from_records_lookup (results : list record) k c :
  columns (from_records results) !! k = Some c ->
  c = Object ((fun r : record => r !! k) <$> results).
Proof.
  unfold from_records; simpl. rewrite map_lookup_imap.
  destruct (gset_to_gmap () _ !! k); simpl; now intros [= <-].
Qed.

Lemma from_records_index (results : list record) :
  index (from_records results) = Z.of_nat <$> seq 0 (List.length results).
Proof. reflexivity. Qed.

Section Clean.
Variable parse_numeric : string -> option numeral.
Variable parse_datetime : string -> string -> option Z.

(** A frame the cleaning accepts has the four columns. *)
Lemma clean_columns (df nf : DataFrame) :
  clean parse_numeric parse_datetime df = Ok nf ->
  forall c, c ∈ ["date"; "latitude"; "longitude"; "primary_type"] ->
            is_Some (columns df !! c).
Proof.
  unfold clean. intros H c Hc.
  apply result_bind_inv in H as (df1 & Hsel & _).
  apply select_Ok in Hsel as [_ Hsel]. now apply Hsel.
Qed.

End Clean.

End NormalizeFacts.

(** ** The split *)

Module SplitFacts.
Import Series FeatureEngineering MaskFacts.

Lemma in_range_forallb n pos :
  in_range n pos -> forallb (fun i => bool_decide (i < n)%nat) pos = true.
Proof.
  intros H. apply forallb_forall. intros i Hi%list_elem_of_In.
  apply bool_decide_eq_true. unfold in_range in H.
  rewrite Forall_forall in H. now apply H.
Qed.

Lemma take_app {A} (p q : list nat) (xs : list A) :
  take (p ++ q) xs = take p xs ++ take q xs.
Proof. apply omap_app. Qed.

Lemma take_seq_app {A} (pre xs : list A) :
  take (seq (List.length pre) (List.length xs)) (pre ++ xs) = xs.
Proof.
  unfold take. revert pre. induction xs as [| x xs IH]; intros pre; [reflexivity|].
  cbn [List.length seq omap list_omap].
  rewrite list_lookup_middle by reflexivity. f_equal.
  specialize (IH (pre ++ [x])).
  rewrite length_app, Nat.add_1_r, <- app_assoc in IH. exact IH.
Qed.

Lemma take_seq {A} (xs : list A) : take (seq 0 (List.length xs)) xs = xs.
Proof. apply (take_seq_app [] xs). Qed.

Lemma take_length {A} (pos : list nat) (xs : list A) :
  in_range (List.length xs) pos -> List.length (take pos xs) = List.length pos.
Proof.
  unfold take. induction 1 as [| i pos Hi _ IH]; [reflexivity|].
  cbn [omap list_omap]. destruct (lookup_lt_is_Some_2 xs i Hi) as [x ->].
  cbn [List.length]. f_equal. exact IH.
Qed.

Lemma take_fmap {A B} (f : A -> B) (pos : list nat) (xs : list A) :
  take pos (f <$> xs) = f <$> take pos xs.
Proof.
  unfold take. induction pos as [| i pos IH]; [reflexivity|].
  cbn [omap list_omap]. rewrite list_lookup_fmap, IH.
  now destruct (xs !! i).
Qed.


(** Positions that partition a list select a rearrangement of it. *)
Lemma take_partition {A} (p q : list nat) (xs : list A) :
  p ++ q ≡ₚ seq 0 (List.length xs) -> take p xs ++ take q xs ≡ₚ xs.
Proof.
  intros H. rewrite <- take_app. rewrite <- (take_seq xs) at 2.
  unfold take. now apply omap_Permutation.
Qed.

Lemma partition_in_range n (p q : list nat) :
  p ++ q ≡ₚ seq 0 n -> in_range n p /\ in_range n q.
Proof.
  intros H. unfold in_range. rewrite <- Forall_app, H.
  apply Forall_forall. intros i Hi. apply elem_of_seq in Hi. lia.
Qed.

Lemma take_lookup {A} (q : list nat) (l : list A) i :
  in_range (List.length l) q -> take q l !! i = q !! i ≫= (fun j => l !! j).
Proof.
  unfold take. intros H. revert i. induction H as [| j q Hj _ IH]; intros i.
  - reflexivity.
  - cbn [omap list_omap]. destruct (lookup_lt_is_Some_2 l j Hj) as [x Hx].
    rewrite Hx. destruct i as [| i]; simpl; [exact (eq_sym Hx) | apply IH].
Qed.

Lemma take_cons {A} (i : nat) (p : list nat) (l : list A) :
  take (i :: p) l = match l !! i with Some x => x :: take p l | None => take p l end.
Proof. reflexivity. Qed.

(** Selecting from a selection is selecting at the selected positions. *)
Lemma take_take {A} (p q : list nat) (l : list A) :
  in_range (List.length l) q -> take p (take q l) = take (take p q) l.
Proof.
  intros Hq. induction p as [| i p IH]; [reflexivity|].
  rewrite (take_cons i p (take q l)), (take_cons i p q), (take_lookup q l i Hq).
  destruct (q !! i) as [j|]; [|exact IH].
  rewrite take_cons. change (Some j ≫= (fun j0 => l !! j0)) with (l !! j).
  destruct (l !! j); now rewrite IH.
Qed.

Lemma cells_length (c : Column) : List.length (cells c) = Series.length c.
Proof. destruct c; simpl; apply length_fmap. Qed.

Lemma cells_mask (m : list bool) (c : Column) :
  cells (mask_column m c) = mask m (cells c).
Proof. destruct c; simpl; now rewrite mask_fmap. Qed.

Lemma cells_take (pos : list nat) (c : Column) :
  cells (take_column pos c) = take pos (cells c).
Proof. destruct c; simpl; now rewrite take_fmap. Qed.

Lemma take_column_take (p q : list nat) (c : Column) :
  in_range (Series.length c) q ->
  take_column p (take_column q c) = take_column (take p q) c.
Proof. destruct c; simpl; intros H; now rewrite take_take. Qed.

Lemma wf_lookup (df : DataFrame) c col :
  Frame.wf df -> columns df !! c = Some col ->
  List.length (cells col) = List.length (index df).
Proof. intros Hwf Hc. rewrite cells_length. exact (Hwf c col Hc). Qed.

Lemma wf_intro (df : DataFrame) :
  (forall c col, columns df !! c = Some col ->
                 List.length (cells col) = List.length (index df)) ->
  Frame.wf df.
Proof. intros H c col Hc. rewrite <- cells_length. now apply (H c). Qed.

(** Row selection keeps every column and the cells with their labels. *)
Lemma mask_rows_spec (m : list bool) (df : DataFrame) :
  Frame.wf df ->
  Frame.wf (Frame.mask_rows m df) /\
  forall c, columns (Frame.mask_rows m df) !! c = mask_column m <$> columns df !! c.
Proof.
  intros Hwf. split.
  - apply wf_intro. intros c col Hc. simpl in *.
    rewrite lookup_fmap in Hc.
    destruct (columns df !! c) as [col0|] eqn:E; [|discriminate].
    injection Hc as <-. rewrite cells_mask.
    apply mask_length_eq. now apply (wf_lookup df c).
  - intros c. simpl. apply lookup_fmap.
Qed.

Lemma take_rows_spec (pos : list nat) (df : DataFrame) :
  Frame.wf df -> in_range (Frame.nrows df) pos ->
  exists df',
    Frame.take_rows pos df = Ok df' /\
    Frame.wf df' /\
    index df' = take pos (index df) /\
    Frame.nrows df' = List.length pos /\
    forall c, columns df' !! c = take_column pos <$> columns df !! c.
Proof.
  intros Hwf Hpos. eexists. unfold Frame.take_rows.
  rewrite (in_range_forallb _ _ Hpos). split; [reflexivity|].
  split; [|split; [reflexivity|split]].
  - apply wf_intro. intros c col Hc. simpl in *.
    rewrite lookup_fmap in Hc.
    destruct (columns df !! c) as [col0|] eqn:E; [|discriminate].
    injection Hc as <-. rewrite cells_take.
    rewrite !take_length; [reflexivity | exact Hpos |].
    now rewrite (wf_lookup df c col0).
  - unfold Frame.nrows; simpl. now apply take_length.
  - intros c. simpl. apply lookup_fmap.
Qed.



Section Splitter.
Variable shuffle_split :
  nat -> float -> Z -> Column -> result (list nat * list nat).

(** What scikit-learn's split promises: the train and the test
    positions together are the positions [0 .. n-1], each once. *)
Hypothesis shuffle_split_partition :
  forall n test_size random_state stratify train test,
    shuffle_split n test_size random_state stratify = Ok (train, test) ->
    train ++ test ≡ₚ seq 0 n.

Lemma take_labelled_spec (pos : list nat) (y : Labelled) :
  in_range (List.length (labels y)) pos ->
  take_labelled pos y
  = Ok (mkLabelled (take pos (labels y)) (take_column pos (values y))).
Proof.
  intros Hpos. unfold take_labelled. now rewrite (in_range_forallb _ _ Hpos).
Qed.

Lemma train_test_split_spec (X : DataFrame) (y : Labelled) ts rs tr te :
  Frame.wf X ->
  List.length (labels y) = Frame.nrows X ->
  shuffle_split (Frame.nrows X) ts rs (values y) = Ok (tr, te) ->
  exists X_tr X_te,
    train_test_split shuffle_split X y ts rs y
    = Ok (X_tr, X_te,
          mkLabelled (take tr (labels y)) (take_column tr (values y)),
          mkLabelled (take te (labels y)) (take_column te (values y))) /\
    tr ++ te ≡ₚ seq 0 (Frame.nrows X) /\
    (Frame.wf X_tr /\ index X_tr = take tr (index X) /\
     Frame.nrows X_tr = List.length tr /\
     forall c, columns X_tr !! c = take_column tr <$> columns X !! c) /\
    (Frame.wf X_te /\ index X_te = take te (index X) /\
     Frame.nrows X_te = List.length te /\
     forall c, columns X_te !! c = take_column te <$> columns X !! c).
Proof.
  intros Hwf Hlen Hsplit.
  pose proof (shuffle_split_partition _ _ _ _ _ _ Hsplit) as Hperm.
  destruct (partition_in_range _ _ _ Hperm) as [Htr Hte].
  destruct (take_rows_spec tr X Hwf Htr) as (X_tr & Hr1 & Hs1).
  destruct (take_rows_spec te X Hwf Hte) as (X_te & Hr2 & Hs2).
  exists X_tr, X_te. split; [|auto].
  unfold train_test_split. rewrite Hsplit. cbn [mbind result_bind].
  rewrite Hr1, Hr2. cbn [mbind result_bind].
  rewrite !take_labelled_spec by (rewrite Hlen; assumption).
  reflexivity.
Qed.



End Splitter.

Lemma split_in_halves_partition n test_size random_state stratify train test :
  Examples.split_in_halves n test_size random_state stratify = Ok (train, test) ->
  train ++ test ≡ₚ seq 0 n.
Proof.
  unfold Examples.split_in_halves.
  assert (n / 2 <= n)%nat as Hle by (apply Nat.Div0.div_le_upper_bound; lia).
  set (h := (n / 2)%nat) in *. clearbody h.
  intros [= <- <-]. rewrite <- seq_app.
  now replace (h + (n - h))%nat with n by lia.
Qed.

Lemma labelled_frame_wf : Frame.wf Examples.labelled_frame.
Proof. apply (bool_decide_unpack _). vm_compute. exact I. Qed.


End SplitFacts.

(** ** The feature engine and its frame *)

Module StoreFacts.
Import Heap HeapFacts FrameOps FeatureEngineering FeatureFacts.

(** *** What a run assigns to *)

Lemma only_writes_ret {A} l (a : A) : only_writes l (mret a).
Proof. intros σ r σ' [= <- <-] l' _. reflexivity. Qed.

Lemma only_writes_bind {A B} l (m : M A) (f : A -> M B) :
  only_writes l m -> (forall a, only_writes l (f a)) -> only_writes l (m ≫= f).
Proof.
  intros Hm Hf σ r σ' H l' Hl'. unfold mbind, M_bind in H.
  destruct (m σ) as [[a|e] σ1] eqn:E.
  - rewrite (Hf a _ _ _ H l' Hl'). exact (Hm _ _ _ E l' Hl').
  - injection H as <- <-. exact (Hm _ _ _ E l' Hl').
Qed.

Lemma only_writes_lift {A} l (r : result A) : only_writes l (lift r).
Proof. intros σ r' σ' [= <- <-] l' _. reflexivity. Qed.

Lemma only_writes_deref l k : only_writes l (deref k).
Proof.
  intros σ r σ' H l' _. unfold deref in H.
  destruct (σ !! k); injection H as <- <-; reflexivity.
Qed.

Lemma only_writes_getitem l k c : only_writes l (getitem k c).
Proof.
  apply only_writes_bind; [apply only_writes_deref | intros; apply only_writes_lift].
Qed.

Lemma only_writes_setitem l c s : only_writes l (setitem l c s).
Proof.
  apply only_writes_bind; [apply only_writes_deref|].
  intros df σ r σ' [= <- <-] l' Hl'. now rewrite lookup_insert_ne.
Qed.

Lemma engineer_features_only_writes l : only_writes l (engineer_features l).
Proof.
  unfold engineer_features.
  repeat first
    [ apply only_writes_ret
    | apply only_writes_getitem
    | apply only_writes_setitem
    | apply only_writes_lift
    | apply only_writes_bind; [| intros ?] ].
Qed.

(** X3. The call sites hand the feature engine a copy: whether the run
    returns or raises, every frame object that existed before the call
    is as it was. *)
Theorem engineer_features_on_copy_frame (σ : heap) X r σ' :
  engineer_features_on_copy X σ = (r, σ') ->
  forall l, is_Some (σ !! l) -> σ' !! l = σ !! l.
Proof.
  intros H l [df Hl]. unfold engineer_features_on_copy, copy in H.
  unfold mbind at 1, M_bind in H.
  destruct ((deref X ≫= alloc) σ) as [[a|e] σ1] eqn:E.
  - unfold mbind, M_bind, deref in E.
    destruct (σ !! X) as [dfX|] eqn:EX; [|discriminate E].
    unfold alloc in E. injection E as <- <-.
    assert (l <> fresh (dom σ)) as Hne.
    { intros ->. apply (is_fresh (dom σ)). apply elem_of_dom. eauto. }
    rewrite (engineer_features_only_writes _ _ _ _ H l Hne).
    now rewrite lookup_insert_ne.
  - injection H as <- <-.
    unfold mbind, M_bind, deref in E.
    destruct (σ !! X); [discriminate E|]. now injection E as <- <-.
Qed.

Lemma engineer_features_on_copy_frame_witness :
  (engineer_features_on_copy 1%positive Examples.no_violent_heap).1
    = Raise (KeyError "ViolentCount") /\
  (engineer_features_on_copy 1%positive Examples.no_violent_heap).2 !! 1%positive
    = Some Examples.no_violent_frame.
Proof.
  split; [vm_compute; reflexivity|].
  rewrite (engineer_features_on_copy_frame Examples.no_violent_heap 1%positive
             (engineer_features_on_copy 1%positive Examples.no_violent_heap).1
             (engineer_features_on_copy 1%positive Examples.no_violent_heap).2).
  - reflexivity.
  - vm_compute. reflexivity.
  - eexists. reflexivity.
Defined.

(** *** A missing column *)

Lemma run_raise {A B} (m : M A) (f : A -> M B) σ e σ' :
  m σ = (Raise e, σ') -> (m ≫= f) σ = (Raise e, σ').
Proof. intros H. unfold mbind, M_bind. now rewrite H. Qed.

Lemma run_getitem_missing σ l df c :
  σ !! l = Some df -> columns df !! c = None ->
  getitem l c σ = (Raise (KeyError c), σ).
Proof.
  intros Hl Hc. unfold getitem, deref, mbind, M_bind, lift, Frame.getitem.
  now rewrite Hl, Hc.
Qed.

Ltac run_missing :=
  eapply run_raise; eapply run_getitem_missing; by simplify_map_eq.

Lemma crime_density_column_inv lat lon cc cd :
  crime_density_column lat lon cc = Ok cd ->
  exists prod den q,
    Series.mul lat lon = Ok prod /\ Series.abs prod = Ok den /\
    Series.truediv cc (Series.replace_zero_one den) = Ok q /\
    Series.fillna 0 q = Ok cd.
Proof.
  unfold crime_density_column. intros H.
  apply result_bind_inv in H as (prod & Hp & H).
  apply result_bind_inv in H as (den & Hd & H).
  apply result_bind_inv in H as (q & Hq & H).
  eauto 10.
Qed.

(** X4. On a frame that lacks a column the run raises [KeyError] at
    the first statement that reads it. Nothing has been assigned when
    [latitude], [longitude] or [CrimeCount] is the missing one; when
    [ViolentCount] is, the frame already holds its new [CrimeDensity]
    column. *)
Theorem engineer_features_missing_column (σ : heap) l df :
  σ !! l = Some df ->
  (columns df !! "latitude" = None ->
   engineer_features l σ = (Raise (KeyError "latitude"), σ)) /\
  (is_Some (columns df !! "latitude") -> columns df !! "longitude" = None ->
   engineer_features l σ = (Raise (KeyError "longitude"), σ)) /\
  (forall lat lon prod den,
     columns df !! "latitude" = Some lat -> columns df !! "longitude" = Some lon ->
     Series.mul lat lon = Ok prod -> Series.abs prod = Ok den ->
     columns df !! "CrimeCount" = None ->
     engineer_features l σ = (Raise (KeyError "CrimeCount"), σ)) /\
  (forall lat lon cc cd,
     columns df !! "latitude" = Some lat -> columns df !! "longitude" = Some lon ->
     columns df !! "CrimeCount" = Some cc ->
     crime_density_column lat lon cc = Ok cd ->
     columns df !! "ViolentCount" = None ->
     engineer_features l σ
     = (Raise (KeyError "ViolentCount"), <[l := Frame.setitem df "CrimeDensity" cd]> σ)).
Proof.
  intros Hl. repeat split.
  - intros Hlat. unfold engineer_features. run_missing.
  - intros [lat Hlat] Hlon. unfold engineer_features. run_get. run_missing.
  - intros lat lon prod den Hlat Hlon Hp Hd Hcc. unfold engineer_features.
    run_get. run_get. run_pure Hp. run_pure Hd. run_missing.
  - intros lat lon cc cd Hlat Hlon Hcc Hcd Hvc.
    apply crime_density_column_inv in Hcd as (prod & den & q & Hp & Hd & Hq & Hf).
    unfold engineer_features.
    run_get. run_get. run_pure Hp. run_pure Hd. run_get. run_pure Hq.
    run_set. run_get. run_pure Hf. run_set.
    rewrite insert_insert_eq. unfold Frame.setitem. simpl.
    rewrite insert_insert_eq.
    eapply run_raise, run_getitem_missing; [apply lookup_insert_eq|].
    simpl. now rewrite lookup_insert_ne.
Qed.

Lemma engineer_features_missing_column_witness :
  exists cd,
    engineer_features 1%positive Examples.no_violent_heap
    = (Raise (KeyError "ViolentCount"),
       <[1%positive := Frame.setitem Examples.no_violent_frame "CrimeDensity" cd]>
         Examples.no_violent_heap).
Proof.
  destruct (engineer_features_missing_column Examples.no_violent_heap 1%positive
              Examples.no_violent_frame eq_refl) as (_ & _ & _ & H).
  eexists. eapply H; reflexivity.
Defined.

(** *** Lengths of the columns *)

Lemma astype_float_length a xs :
  Series.astype_float a = Ok xs -> List.length xs = Series.length a.
Proof.
  destruct a; simpl; intros [= <-]; [reflexivity | apply length_fmap].
Qed.

Lemma mul_length a b p :
  Series.mul a b = Ok p ->
  Series.length p = (Series.length a `min` Series.length b)%nat.
Proof.
  unfold Series.mul.
  destruct a as [xs|xs|xs|xs], b as [ys|ys|ys|ys]; simpl; try discriminate;
    intros [= <-]; simpl; rewrite length_zip_with, ?length_fmap; reflexivity.
Qed.

Lemma add_length a b p :
  Series.add a b = Ok p ->
  Series.length p = (Series.length a `min` Series.length b)%nat.
Proof.
  unfold Series.add.
  destruct a as [xs|xs|xs|xs], b as [ys|ys|ys|ys]; simpl; try discriminate;
    intros [= <-]; simpl; rewrite length_zip_with, ?length_fmap; reflexivity.
Qed.

Lemma truediv_length a b p :
  Series.truediv a b = Ok p ->
  Series.length p = (Series.length a `min` Series.length b)%nat.
Proof.
  unfold Series.truediv.
  destruct a as [xs|xs|xs|xs], b as [ys|ys|ys|ys]; simpl; try discriminate;
    intros [= <-]; simpl; rewrite length_zip_with, ?length_fmap; reflexivity.
Qed.

Lemma abs_length a p : Series.abs a = Ok p -> Series.length p = Series.length a.
Proof.
  destruct a; simpl; try discriminate; intros [= <-]; simpl; apply length_fmap.
Qed.

Lemma replace_zero_one_length a :
  Series.length (Series.replace_zero_one a) = Series.length a.
Proof. destruct a; simpl; rewrite ?length_fmap; reflexivity. Qed.

Lemma fillna_length v a p :
  Series.fillna v a = Ok p -> Series.length p = Series.length a.
Proof.
  destruct a; simpl; try discriminate; intros [= <-]; simpl;
    rewrite ?length_fmap; reflexivity.
Qed.

Lemma map_float_length (f : float -> float) a p :
  (xs ← Series.astype_float a; Ok (Float64 (f <$> xs))) = Ok p ->
  Series.length p = Series.length a.
Proof.
  destruct a; simpl; try discriminate; intros [= <-]; simpl;
    rewrite ?length_fmap; reflexivity.
Qed.

Lemma crime_density_column_length lat lon cc cd :
  crime_density_column lat lon cc = Ok cd ->
  Series.length cd
  = (Series.length cc `min` (Series.length lat `min` Series.length lon))%nat.
Proof.
  intros (prod & den & q & Hp & Hd & Hq & Hf)%crime_density_column_inv.
  rewrite (fillna_length _ _ _ Hf), (truediv_length _ _ _ Hq),
    replace_zero_one_length, (abs_length _ _ Hd), (mul_length _ _ _ Hp).
  reflexivity.
Qed.

Lemma violent_ratio_column_length vc cc vr :
  violent_ratio_column vc cc = Ok vr ->
  Series.length vr = (Series.length vc `min` Series.length cc)%nat.
Proof.
  unfold violent_ratio_column. intros (r & Hr & Hf)%result_bind_inv.
  rewrite (fillna_length _ _ _ Hf), (truediv_length _ _ _ Hr),
    replace_zero_one_length.
  reflexivity.
Qed.

Lemma distance_column_length lat lon d :
  distance_column lat lon = Ok d ->
  Series.length d = (Series.length lat `min` Series.length lon)%nat.
Proof.
  unfold distance_column. intros H.
  apply result_bind_inv in H as (lat' & H1 & H).
  apply result_bind_inv in H as (dlat & H2 & H).
  apply result_bind_inv in H as (dlat2 & H3 & H).
  apply result_bind_inv in H as (lon' & H4 & H).
  apply result_bind_inv in H as (dlon & H5 & H).
  apply result_bind_inv in H as (dlon2 & H6 & H).
  apply result_bind_inv in H as (s & H7 & H).
  unfold Series.sqrt in H. rewrite (map_float_length _ _ _ H).
  rewrite (add_length _ _ _ H7).
  unfold Series.square in H3, H6. unfold Series.sub_scalar in H2, H5.
  rewrite (map_float_length _ _ _ H3), (map_float_length _ _ _ H2),
    (fillna_length _ _ _ H1).
  rewrite (map_float_length _ _ _ H6), (map_float_length _ _ _ H5),
    (fillna_length _ _ _ H4).
  reflexivity.
Qed.

(** The three feature columns of a frame have one value per row. *)
Lemma feature_columns_length (df : DataFrame) lat lon cc vc cd vr d :
  Frame.wf df ->
  columns df !! "latitude" = Some lat -> columns df !! "longitude" = Some lon ->
  columns df !! "CrimeCount" = Some cc -> columns df !! "ViolentCount" = Some vc ->
  crime_density_column lat lon cc = Ok cd ->
  violent_ratio_column vc cc = Ok vr ->
  distance_column lat lon = Ok d ->
  Series.length cd = Frame.nrows df /\ Series.length vr = Frame.nrows df /\
  Series.length d = Frame.nrows df.
Proof.
  intros Hwf Hlat Hlon Hcc Hvc Hcd Hvr Hd.
  pose proof (Hwf _ _ Hlat) as Llat. pose proof (Hwf _ _ Hlon) as Llon.
  pose proof (Hwf _ _ Hcc) as Lcc. pose proof (Hwf _ _ Hvc) as Lvc.
  simpl in Llat, Llon, Lcc, Lvc.
  apply crime_density_column_length in Hcd.
  apply violent_ratio_column_length in Hvr.
  apply distance_column_length in Hd.
  repeat split; lia.
Qed.

Lemma with_features_wf (df : DataFrame) cd vr d :
  Frame.wf df ->
  Series.length cd = Frame.nrows df -> Series.length vr = Frame.nrows df ->
  Series.length d = Frame.nrows df ->
  Frame.wf (with_features df cd vr d).
Proof.
  intros Hwf Lcd Lvr Ld c col Hc. unfold with_features in Hc. simpl in Hc.
  unfold Frame.nrows. simpl. fold (Frame.nrows df).
  apply lookup_insert_Some in Hc as [[_ <-]|[_ Hc]]; [exact Ld|].
  apply lookup_insert_Some in Hc as [[_ <-]|[_ Hc]]; [exact Lvr|].
  apply lookup_insert_Some in Hc as [[_ <-]|[_ Hc]]; [exact Lcd|].
  exact (Hwf _ _ Hc).
Qed.

(** X5. A run that returns keeps the rows of its frame: the index is
    as before, the columns still have one value per row, and each of
    the three new columns has one value per row. *)
Theorem engineer_features_keeps_rows (σ : heap) l r σ1 df :
  σ !! l = Some df -> Frame.wf df ->
  engineer_features l σ = (Ok r, σ1) ->
  exists df',
    σ1 !! l = Some df' /\ index df' = index df /\ Frame.wf df' /\
    forall c, c ∈ ["CrimeDensity"; "ViolentRatio"; "DistanceFromCenter"] ->
      exists col, columns df' !! c = Some col /\ Series.length col = Frame.nrows df.
Proof.
  intros Hl Hwf H.
  apply engineer_features_inv in H
    as (-> & df0 & lat & lon & cc & vc & cd & vr & d
        & Hl0 & Hlat & Hlon & Hcc & Hvc & Hcd & Hvr & Hd & ->).
  rewrite Hl in Hl0. injection Hl0 as <-.
  destruct (feature_columns_length df lat lon cc vc cd vr d
              Hwf Hlat Hlon Hcc Hvc Hcd Hvr Hd) as (Lcd & Lvr & Ld).
  exists (with_features df cd vr d).
  split; [apply lookup_insert_eq|]. split; [reflexivity|]. split.
  - now apply with_features_wf.
  - intros c Hc. unfold with_features. simpl.
    apply elem_of_cons in Hc as [->|Hc]; [exists cd; by simplify_map_eq|].
    apply elem_of_cons in Hc as [->|Hc]; [exists vr; by simplify_map_eq|].
    apply list_elem_of_singleton in Hc as ->. exists d. by simplify_map_eq.
Qed.

Lemma engineer_features_keeps_rows_witness :
  exists df',
    (engineer_features 1%positive Examples.features_heap).2 !! 1%positive = Some df' /\
    index df' = [0; 1; 2] /\ Frame.wf df'.
Proof.
  destruct (engineer_features_keeps_rows Examples.features_heap 1%positive 1%positive
              (engineer_features 1%positive Examples.features_heap).2
              Examples.features_frame)
    as (df' & H1 & H2 & H3 & _).
  - reflexivity.
  - apply (bool_decide_unpack _). vm_compute. exact I.
  - vm_compute. reflexivity.
  - exists df'. repeat split; assumption.
Defined.

(** C10: a run that returns hands back the very frame object it was
    given, updated in place: the object has the columns it had plus
    CrimeDensity, ViolentRatio and DistanceFromCenter, the same index,
    and every column but those three (latitude, longitude, CrimeCount
    and ViolentCount among them) as it was; no other object changes.
    The three new columns have one value for every row of the input
    frame, and on a frame of the notebook's dtypes the value at each
    row is the feature computed from the cells of that row. Run on a
    copy, as at the call sites, it returns a new object and the
    caller's frame is as it was. *)
Theorem engineer_features_frame (σ : heap) l r σ1 :
  engineer_features l σ = (Ok r, σ1) ->
  r = l /\
  exists df df',
    σ !! l = Some df /\
    σ1 = <[l := df']> σ /\
    index df' = index df /\
    dom (columns df') = dom (columns df) ∪ new_columns /\
    (forall c, c ∈ ["latitude"; "longitude"; "CrimeCount"; "ViolentCount"] ->
               columns df' !! c = columns df !! c) /\
    (forall c, c ∉ new_columns -> columns df' !! c = columns df !! c) /\
    (Frame.wf df ->
       Frame.wf df' /\
       forall c, c ∈ ["CrimeDensity"; "ViolentRatio"; "DistanceFromCenter"] ->
         exists col, columns df' !! c = Some col /\
                     Series.length col = Frame.nrows df) /\
    (forall lat lon cc vc, has_schema df lat lon cc vc ->
       forall i la lo c v,
         lat !! i = Some la -> lon !! i = Some lo ->
         cc !! i = Some c -> vc !! i = Some v ->
         frame_cell df' "CrimeDensity" i = Some (Flt (crime_density c la lo)) /\
         frame_cell df' "ViolentRatio" i = Some (Flt (violent_ratio v c)) /\
         frame_cell df' "DistanceFromCenter" i
           = Some (Flt (distance_from_center la lo))) /\
    exists l' cp,
      engineer_features_on_copy l σ = (Ok l', <[l' := cp]> (<[l' := df]> σ)) /\
      l' <> l /\
      σ !! l' = None /\
      <[l' := cp]> (<[l' := df]> σ) !! l = Some df /\
      columns cp = columns df'.
Proof.
  intros H.
  apply engineer_features_inv in H
    as (-> & df & lat & lon & cc & vc & cd & vr & d &
        Hl & Hlat & Hlon & Hcc & Hvc & Hcd & Hvr & Hd & ->).
  split; [reflexivity|].
  exists df, (with_features df cd vr d).
  split; [exact Hl|]. split; [reflexivity|]. split; [reflexivity|].
  split.
  { unfold with_features, new_columns; simpl.
    rewrite !dom_insert_L. apply set_eq. intros x.
    rewrite !elem_of_union, !elem_of_singleton. tauto. }
  split.
  { intros c Hc. apply with_features_base, base_not_new, Hc. }
  split.
  { intros c Hc. now apply with_features_base. }
  split.
  { intros Hwf.
    destruct (feature_columns_length df lat lon cc vc cd vr d
                Hwf Hlat Hlon Hcc Hvc Hcd Hvr Hd) as (Lcd & Lvr & Ld).
    split; [now apply with_features_wf|].
    intros c Hc. unfold with_features. simpl.
    apply elem_of_cons in Hc as [->|Hc]; [exists cd; by simplify_map_eq|].
    apply elem_of_cons in Hc as [->|Hc]; [exists vr; by simplify_map_eq|].
    apply list_elem_of_singleton in Hc as ->. exists d. by simplify_map_eq. }
  split.
  { intros lat' lon' cc' vc' (Hlat' & Hlon' & Hcc' & Hvc') i la lo c v Hla Hlo Hc Hv.
    rewrite Hlat in Hlat'. injection Hlat' as ->.
    rewrite Hlon in Hlon'. injection Hlon' as ->.
    rewrite Hcc in Hcc'. injection Hcc' as ->.
    rewrite Hvc in Hvc'. injection Hvc' as ->.
    rewrite crime_density_schema in Hcd. injection Hcd as <-.
    rewrite violent_ratio_schema in Hvr. injection Hvr as <-.
    destruct (distance_schema lat' lon') as (d' & Hd' & Hrow).
    rewrite Hd' in Hd. injection Hd as <-.
    unfold frame_cell, with_features. simpl.
    split; [|split].
    - rewrite lookup_insert_ne, lookup_insert_ne, lookup_insert_eq by discriminate.
      simpl. now rewrite (crime_density_lookup lat' lon' cc' i c la lo Hc Hla Hlo).
    - rewrite lookup_insert_ne, lookup_insert_eq by discriminate.
      simpl. now rewrite (violent_ratio_lookup vc' cc' i v c Hv Hc).
    - rewrite lookup_insert_eq. simpl. now rewrite (Hrow i la lo Hla Hlo). }
  destruct (run_copy_fresh σ l df Hl) as (l' & Hcopy & Hfresh & Hne).
  exists l', (with_features df cd vr d).
  split.
  { unfold engineer_features_on_copy.
    eapply run_step; [exact Hcopy | cbv beta].
    apply (engineer_features_run _ _ df lat lon cc vc cd vr d); try assumption.
    apply lookup_insert_eq. }
  split; [exact Hne|]. split; [exact Hfresh|]. split; [|reflexivity].
  rewrite !lookup_insert_ne by exact Hne. exact Hl.
Qed.

Lemma engineer_features_frame_witness :
  exists df df',
    Examples.features_heap !! 1%positive = Some df /\
    dom (columns df') = dom (columns df) ∪ new_columns /\
    (forall c, c ∈ ["latitude"; "longitude"; "CrimeCount"; "ViolentCount"] ->
               columns df' !! c = columns df !! c) /\
    Frame.wf df' /\
    frame_cell df' "ViolentRatio" 0 = Some (Flt 0.5%float) /\
    frame_cell df' "DistanceFromCenter" 0 = Some (Flt 0%float).
Proof.
  destruct (engineer_features_frame Examples.features_heap 1%positive 1%positive
              (engineer_features 1%positive Examples.features_heap).2)
    as (_ & df & df' & Hl & _ & _ & Hdom & Hbase & _ & Hwf & Hrows & _).
  - vm_compute. reflexivity.
  - exists df, df'.
    assert (Examples.features_heap !! 1%positive = Some Examples.features_frame)
      as Hl' by reflexivity.
    rewrite Hl' in Hl. injection Hl as <-.
    destruct Hwf as [Hwf _].
    { apply (bool_decide_unpack _). vm_compute. exact I. }
    destruct (Hrows _ _ _ _ ltac:(repeat split; reflexivity) 0%nat
                _ _ _ _ eq_refl eq_refl eq_refl eq_refl) as (_ & Hvr & Hd).
    repeat split; try assumption.
Defined.

End StoreFacts.

(** ** The partitions of the split *)

Module RowFacts.
Import Series FeatureEngineering MaskFacts SplitFacts.

(** *** Masks and missing labels *)

Lemma mask_length_filter {A} (m : list bool) (l : list A) :
  List.length m = List.length l ->
  (List.length (mask m l) + List.length (List.filter negb m))%nat = List.length l.
Proof.
  revert l. induction m as [|b m IH]; intros [|x l]; simpl; try discriminate; auto.
  intros [= H]. specialize (IH l H). destruct b; simpl; lia.
Qed.

Lemma notnull_length (c : Column) : List.length (notnull c) = Series.length c.
Proof. destruct c; simpl; apply length_fmap. Qed.

(** After the filter on [notnull], no cell is missing. *)
Lemma notnull_mask_column (c : Column) :
  Forall (fun b => b = true) (notnull (mask_column (notnull c) c)).
Proof.
  destruct c as [xs|xs|xs|xs]; simpl.
  - induction xs as [|[x|] xs IH]; simpl; [constructor| |exact IH].
    constructor; [reflexivity | exact IH].
  - induction xs as [|x xs IH]; simpl; [constructor|].
    destruct (F64.notnull x) eqn:E; simpl; [|exact IH]. now constructor.
  - induction xs as [|x xs IH]; simpl; [constructor|]. now constructor.
  - induction xs as [|[x|] xs IH]; simpl; [constructor| |exact IH].
    constructor; [reflexivity | exact IH].
Qed.

Lemma notnull_take_column (p : list nat) (c : Column) :
  Forall (fun b => b = true) (notnull c) ->
  Forall (fun b => b = true) (notnull (take_column p c)).
Proof.
  intros H. apply Forall_forall. intros b Hb.
  assert (notnull (take_column p c) = take p (notnull c)) as E.
  { destruct c; simpl; now rewrite take_fmap. }
  rewrite E in Hb. unfold take in Hb.
  apply list_elem_of_omap in Hb as (i & _ & Hi).
  rewrite Forall_forall in H. apply H. eapply list_elem_of_lookup_2, Hi.
Qed.

Section Splitter.
Variable shuffle_split :
  nat -> float -> Z -> Column -> result (list nat * list nat).

Hypothesis shuffle_split_partition :
  forall n test_size random_state stratify train test,
    shuffle_split n test_size random_state stratify = Ok (train, test) ->
    train ++ test ≡ₚ seq 0 n.

Lemma in_range_take n (p q : list nat) : in_range n q -> in_range n (take p q).
Proof.
  intros H. apply Forall_forall. intros i Hi. unfold take in Hi.
  apply list_elem_of_omap in Hi as (j & _ & Hj).
  unfold in_range in H. rewrite Forall_forall in H.
  apply H. eapply list_elem_of_lookup_2, Hj.
Qed.

(** What the split returns: the filtered rows at three lists of
    positions that together are all positions, each once; the labels are
    taken at the same positions as the rows. *)
Lemma split_run (df : DataFrame) risk tr1 te1 tr2 te2 :
  Frame.wf df ->
  columns df !! "Risk" = Some risk ->
  let m := notnull risk in
  let X := Frame.mask_rows m (mkFrame (index df) (delete "Risk" (columns df))) in
  let y := mask_column m risk in
  shuffle_split (List.length (mask m (index df))) test_size_train 42 y = Ok (tr1, te1) ->
  shuffle_split (List.length te1) test_size_temp 42 (take_column te1 y) = Ok (tr2, te2) ->
  exists s,
    split shuffle_split df = Ok s /\
    Frame.wf X /\
    tr1 ++ take tr2 te1 ++ take te2 te1 ≡ₚ seq 0 (Frame.nrows X) /\
    selects X y tr1 (X_train s) (y_train s) /\
    selects X y (take tr2 te1) (X_val s) (y_val s) /\
    selects X y (take te2 te1) (X_test s) (y_test s).
Proof.
  intros Hwf Hrisk m X y H1 H2.
  set (X0 := mkFrame (index df) (delete "Risk" (columns df))).
  assert (Frame.wf X0) as Hwf0.
  { intros c col Hc. simpl in Hc. apply lookup_delete_Some in Hc as [_ Hc].
    exact (Hwf c col Hc). }
  set (yl := mask_labelled m (mkLabelled (index df) risk)).
  destruct (mask_rows_spec m X0 Hwf0) as [HwfX HcolsX]. fold X in HwfX, HcolsX.
  destruct (train_test_split_spec shuffle_split shuffle_split_partition
              X yl test_size_train 42 tr1 te1 HwfX eq_refl H1)
    as (X_tr & X_temp & Hrun1 & Hperm1 & (Hwf1 & Hidx1 & Hn1 & Hc1)
        & (Hwft & Hidxt & Hnt & Hct)).
  set (y_temp := mkLabelled (take te1 (labels yl)) (take_column te1 (values yl))) in *.
  assert (List.length (labels y_temp) = Frame.nrows X_temp) as Hlent.
  { unfold Frame.nrows. now rewrite Hidxt. }
  assert (shuffle_split (Frame.nrows X_temp) test_size_temp 42 (values y_temp)
          = Ok (tr2, te2)) as H2' by (rewrite Hnt; exact H2).
  destruct (train_test_split_spec shuffle_split shuffle_split_partition
              X_temp y_temp test_size_temp 42 tr2 te2 Hwft Hlent H2')
    as (X_va & X_te & Hrun2 & Hperm2 & (Hwf2 & Hidx2 & Hn2 & Hc2)
        & (Hwf3 & Hidx3 & Hn3 & Hc3)).
  destruct (partition_in_range _ _ _ Hperm1) as [Htr1 Hte1].
  assert (forall c col, columns X !! c = Some col ->
            in_range (Series.length col) te1) as Hrange.
  { intros c col Hc. now rewrite (HwfX c col Hc). }
  assert (in_range (Series.length y) te1) as Hry.
  { unfold y. rewrite <- cells_length, cells_mask.
    rewrite (mask_length_eq m (cells risk) (index df)); [exact Hte1|].
    apply (wf_lookup df "Risk" risk Hwf Hrisk). }
  eexists. split.
  { unfold split, Frame.drop, Frame.getitem. rewrite Hrisk.
    cbn [mbind result_bind].
    change (Frame.mask_rows _ _) with X.
    change (mask_labelled _ _) with yl.
    rewrite Hrun1. cbn [mbind result_bind]. fold y_temp.
    rewrite Hrun2. cbn [mbind result_bind]. reflexivity. }
  cbn [X_train X_val X_test y_train y_val y_test].
  split; [exact HwfX|]. split.
  { rewrite (take_partition tr2 te2 te1); [exact Hperm1|]. now rewrite <- Hnt. }
  split; [|split].
  - repeat split; auto.
  - split; [apply in_range_take, Hte1|].
    split; [rewrite Hidx2, Hidxt; now apply take_take|].
    split; [|split].
    + intros c. rewrite Hc2, Hct.
      destruct (columns X !! c) as [col|] eqn:E; [|reflexivity].
      simpl. f_equal. apply take_column_take. now apply (Hrange c).
    + simpl. now apply take_take.
    + simpl. now apply take_column_take.
  - split; [apply in_range_take, Hte1|].
    split; [rewrite Hidx3, Hidxt; now apply take_take|].
    split; [|split].
    + intros c. rewrite Hc3, Hct.
      destruct (columns X !! c) as [col|] eqn:E; [|reflexivity].
      simpl. f_equal. apply take_column_take. now apply (Hrange c).
    + simpl. now apply take_take.
    + simpl. now apply take_column_take.
Qed.

End Splitter.

(** *** A partition row by row *)

Lemma mask_lookup {A} (m : list bool) (l : list A) q :
  mask m l !! q = nth_true m q ≫= (fun i => l !! i).
Proof.
  revert l q. induction m as [|b m IH]; intros l q; [reflexivity|].
  destruct l as [|x l].
  - simpl. destruct b, q; simpl; try reflexivity;
      destruct (nth_true m _); reflexivity.
  - destruct b; simpl.
    + destruct q as [|q]; [reflexivity|]. simpl. rewrite IH.
      destruct (nth_true m q); reflexivity.
    + rewrite IH. destruct (nth_true m q); reflexivity.
Qed.

Lemma nth_true_lookup (m : list bool) q i :
  nth_true m q = Some i -> m !! i = Some true.
Proof.
  revert q i. induction m as [|b m IH]; intros q i; [discriminate|].
  destruct b; simpl.
  - destruct q as [|q]; [now intros [= <-]|].
    destruct (nth_true m q) eqn:E; [|discriminate]. intros [= <-]. simpl. eauto.
  - destruct (nth_true m q) eqn:E; [|discriminate]. intros [= <-]. simpl. eauto.
Qed.

Lemma cell_cells (c : Column) i : Series.cell c i = cells c !! i.
Proof. destruct c; simpl; now rewrite list_lookup_fmap. Qed.

Lemma cell_mask_column (m : list bool) (c : Column) q :
  Series.cell (mask_column m c) q = nth_true m q ≫= Series.cell c.
Proof.
  rewrite cell_cells, cells_mask, mask_lookup.
  destruct (nth_true m q); simpl; [now rewrite cell_cells | reflexivity].
Qed.

Lemma cell_take_column (p : list nat) (c : Column) j :
  in_range (Series.length c) p ->
  Series.cell (take_column p c) j = p !! j ≫= Series.cell c.
Proof.
  intros H. rewrite cell_cells, cells_take, take_lookup
    by (now rewrite cells_length).
  destruct (p !! j); simpl; [now rewrite cell_cells | reflexivity].
Qed.

Lemma notnull_cell (c : Column) i :
  notnull c !! i = Some true ->
  exists v, Series.cell c i = Some v /\ scalar_notnull v = true.
Proof.
  destruct c as [xs|xs|xs|xs]; simpl; rewrite !list_lookup_fmap;
    destruct (xs !! i) as [x|]; simpl; try discriminate; intros H.
  - destruct x; [eexists; split; reflexivity | discriminate].
  - injection H as H. eauto.
  - eauto.
  - destruct x; [eexists; split; reflexivity | discriminate].
Qed.

(** Row [j] of a selection is the row of the unfiltered frame at one
    position [i]: same index label, same label value, same features. *)
Lemma selects_row (df : DataFrame) risk p X_p y_p j k :
  Frame.wf df ->
  columns df !! "Risk" = Some risk ->
  let m := notnull risk in
  let X := Frame.mask_rows m (mkFrame (index df) (delete "Risk" (columns df))) in
  selects X (mask_column m risk) p X_p y_p ->
  index X_p !! j = Some k ->
  exists i v,
    index df !! i = Some k /\
    labels y_p !! j = Some k /\
    Series.cell risk i = Some v /\ scalar_notnull v = true /\
    Series.cell (values y_p) j = Some v /\
    forall c col, c <> "Risk" -> columns df !! c = Some col ->
      exists col', columns X_p !! c = Some col' /\
                   Series.cell col' j = Series.cell col i.
Proof.
  intros Hwf Hrisk m X (Hp & Hidx & Hcols & Hlab & Hval) Hk.
  assert (Frame.nrows X = List.length (mask m (index df))) as HnX by reflexivity.
  rewrite Hidx, take_lookup in Hk by exact Hp.
  destruct (p !! j) as [q|] eqn:Hq; [simpl in Hk | discriminate].
  change (index X) with (mask m (index df)) in Hk.
  rewrite mask_lookup in Hk.
  destruct (nth_true m q) as [i|] eqn:Hi; [simpl in Hk | discriminate].
  destruct (notnull_cell risk i (nth_true_lookup _ _ _ Hi)) as (v & Hv & Hvn).
  assert (forall col, Series.length col = Frame.nrows df ->
            Series.cell (take_column p (mask_column m col)) j = Series.cell col i)
    as Hcell.
  { intros col Hlen. rewrite cell_take_column.
    - rewrite Hq. simpl. rewrite cell_mask_column, Hi. reflexivity.
    - rewrite <- cells_length, cells_mask.
      rewrite (mask_length_eq m (cells col) (index df)); [exact Hp|].
      now rewrite cells_length. }
  exists i, v. split; [exact Hk|]. split.
  { rewrite Hlab, take_lookup, Hq by exact Hp. simpl.
    change (index X) with (mask m (index df)). now rewrite mask_lookup, Hi. }
  split; [exact Hv|]. split; [exact Hvn|]. split.
  { rewrite Hval, Hcell; [exact Hv | exact (Hwf _ _ Hrisk)]. }
  intros c col Hne Hcol.
  exists (take_column p (mask_column m col)). split.
  - rewrite Hcols. unfold X. simpl.
    now rewrite lookup_fmap, lookup_delete_ne, Hcol by congruence.
  - apply Hcell, (Hwf _ _ Hcol).
Qed.

Section SplitterExtras.
Variable shuffle_split :
  nat -> float -> Z -> Column -> result (list nat * list nat).

Hypothesis shuffle_split_partition :
  forall n test_size random_state stratify train test,
    shuffle_split n test_size random_state stratify = Ok (train, test) ->
    train ++ test ≡ₚ seq 0 n.

(** X6. Every row of a partition is one row of the input, whole: it
    has the index label, the feature cells and the Risk value of the
    input row at one position, and that Risk value is present. *)
Theorem split_rows_intact (df : DataFrame) risk tr1 te1 tr2 te2 :
  Frame.wf df ->
  columns df !! "Risk" = Some risk ->
  let m := notnull risk in
  shuffle_split (List.length (mask m (index df))) test_size_train 42
    (mask_column m risk) = Ok (tr1, te1) ->
  shuffle_split (List.length te1) test_size_temp 42
    (take_column te1 (mask_column m risk)) = Ok (tr2, te2) ->
  exists s,
    split shuffle_split df = Ok s /\
    forall X_p y_p,
      (X_p, y_p) ∈ [(X_train s, y_train s); (X_val s, y_val s); (X_test s, y_test s)] ->
      forall j k, index X_p !! j = Some k ->
        exists i v,
          index df !! i = Some k /\
          labels y_p !! j = Some k /\
          Series.cell risk i = Some v /\ scalar_notnull v = true /\
          Series.cell (values y_p) j = Some v /\
          forall c col, c <> "Risk" -> columns df !! c = Some col ->
            exists col', columns X_p !! c = Some col' /\
                         Series.cell col' j = Series.cell col i.
Proof.
  intros Hwf Hrisk m H1 H2.
  destruct (split_run shuffle_split shuffle_split_partition df risk tr1 te1 tr2 te2
              Hwf Hrisk H1 H2) as (s & Hs & _ & _ & S1 & S2 & S3).
  exists s. split; [exact Hs|].
  intros X_p y_p Hin j k Hk.
  apply elem_of_cons in Hin as [[= -> ->]|Hin];
    [exact (selects_row df risk _ _ _ j k Hwf Hrisk S1 Hk)|].
  apply elem_of_cons in Hin as [[= -> ->]|Hin];
    [exact (selects_row df risk _ _ _ j k Hwf Hrisk S2 Hk)|].
  apply list_elem_of_singleton in Hin as [= -> ->].
  exact (selects_row df risk _ _ _ j k Hwf Hrisk S3 Hk).
Qed.

Lemma selects_shape (df : DataFrame) risk p X_p y_p :
  let m := notnull risk in
  let X := Frame.mask_rows m (mkFrame (index df) (delete "Risk" (columns df))) in
  selects X (mask_column m risk) p X_p y_p ->
  Frame.nrows X_p = List.length p /\
  List.length (labels y_p) = List.length p /\
  dom (columns X_p) = dom (columns df) ∖ {["Risk"]}.
Proof.
  intros m X (Hp & Hidx & Hcols & Hlab & Hval).
  split; [unfold Frame.nrows; rewrite Hidx; now apply take_length|].
  split; [rewrite Hlab; now apply take_length|].
  apply set_eq. intros c.
  rewrite elem_of_dom, Hcols, elem_of_difference, elem_of_dom, not_elem_of_singleton.
  unfold X. simpl. rewrite lookup_fmap.
  destruct (decide (c = "Risk")) as [->|Hne].
  - rewrite lookup_delete_eq. simpl. split; [intros [? [=]] | tauto].
  - rewrite lookup_delete_ne by congruence.
    destruct (columns df !! c); simpl; split; eauto.
    intros [[? [=]] _].
Qed.

(** X7. The shapes the notebook prints: the three partitions have
    together as many rows as the input has rows less its missing labels,
    each partition has one label per row, and each has the columns of
    the input other than Risk. *)
Theorem split_shapes (df : DataFrame) risk tr1 te1 tr2 te2 :
  Frame.wf df ->
  columns df !! "Risk" = Some risk ->
  let m := notnull risk in
  shuffle_split (List.length (mask m (index df))) test_size_train 42
    (mask_column m risk) = Ok (tr1, te1) ->
  shuffle_split (List.length te1) test_size_temp 42
    (take_column te1 (mask_column m risk)) = Ok (tr2, te2) ->
  exists s,
    split shuffle_split df = Ok s /\
    Z.of_nat (Frame.nrows (X_train s) + Frame.nrows (X_val s) + Frame.nrows (X_test s))
      = Z.of_nat (Frame.nrows df) - isnull_sum risk /\
    forall X_p y_p,
      (X_p, y_p) ∈ [(X_train s, y_train s); (X_val s, y_val s); (X_test s, y_test s)] ->
      List.length (labels y_p) = Frame.nrows X_p /\
      dom (columns X_p) = dom (columns df) ∖ {["Risk"]}.
Proof.
  intros Hwf Hrisk m H1 H2.
  destruct (split_run shuffle_split shuffle_split_partition df risk tr1 te1 tr2 te2
              Hwf Hrisk H1 H2) as (s & Hs & _ & Hperm & S1 & S2 & S3).
  exists s. split; [exact Hs|].
  destruct (selects_shape df risk _ _ _ S1) as (N1 & L1 & D1).
  destruct (selects_shape df risk _ _ _ S2) as (N2 & L2 & D2).
  destruct (selects_shape df risk _ _ _ S3) as (N3 & L3 & D3).
  split.
  - apply Permutation_length in Hperm.
    rewrite !length_app, length_seq in Hperm.
    unfold Frame.nrows at 1 in Hperm. simpl in Hperm.
    pose proof (mask_length_filter m (index df)) as Hm.
    unfold isnull_sum. fold m. unfold Frame.nrows at 4.
    rewrite N1, N2, N3.
    assert (List.length m = List.length (index df)) as Hlen.
    { unfold m. rewrite notnull_length. exact (Hwf _ _ Hrisk). }
    specialize (Hm Hlen). unfold m in *. lia.
  - intros X_p y_p Hin.
    apply elem_of_cons in Hin as [[= -> ->]|Hin]; [split; [lia | exact D1]|].
    apply elem_of_cons in Hin as [[= -> ->]|Hin]; [split; [lia | exact D2]|].
    apply list_elem_of_singleton in Hin as [= -> ->]. split; [lia | exact D3].
Qed.

(** X8. A frame without a Risk column is rejected with [KeyError];
    when scikit-learn rejects the first or the second split, so does the
    splitter, with the same exception. *)
Theorem split_errors (df : DataFrame) :
  (columns df !! "Risk" = None -> split shuffle_split df = Raise (KeyError "Risk")) /\
  (forall risk e,
     columns df !! "Risk" = Some risk ->
     let m := notnull risk in
     shuffle_split (List.length (mask m (index df))) test_size_train 42
       (mask_column m risk) = Raise e ->
     split shuffle_split df = Raise e) /\
  (forall risk tr1 te1 e,
     Frame.wf df ->
     columns df !! "Risk" = Some risk ->
     let m := notnull risk in
     shuffle_split (List.length (mask m (index df))) test_size_train 42
       (mask_column m risk) = Ok (tr1, te1) ->
     shuffle_split (List.length te1) test_size_temp 42
       (take_column te1 (mask_column m risk)) = Raise e ->
     split shuffle_split df = Raise e).
Proof.
  split; [|split].
  - intros H. unfold split, Frame.drop. now rewrite H.
  - intros risk e Hrisk m H. unfold split, Frame.drop, Frame.getitem.
    rewrite Hrisk. cbn [mbind result_bind]. unfold train_test_split.
    unfold Frame.nrows, Frame.mask_rows. cbn [index values mask_labelled].
    fold m. rewrite H. reflexivity.
  - intros risk tr1 te1 e Hwf Hrisk m H1 H2.
    set (X0 := mkFrame (index df) (delete "Risk" (columns df))).
    assert (Frame.wf X0) as Hwf0.
    { intros c col Hc. simpl in Hc. apply lookup_delete_Some in Hc as [_ Hc].
      exact (Hwf c col Hc). }
    set (yl := mask_labelled m (mkLabelled (index df) risk)).
    destruct (mask_rows_spec m X0 Hwf0) as [HwfX HcolsX].
    destruct (train_test_split_spec shuffle_split shuffle_split_partition
                (Frame.mask_rows m X0) yl test_size_train 42 tr1 te1 HwfX eq_refl H1)
      as (X_tr & X_temp & Hrun1 & Hperm1 & _ & (Hwft & Hidxt & Hnt & Hct)).
    unfold split, Frame.drop, Frame.getitem. rewrite Hrisk.
    cbn [mbind result_bind].
    change (Frame.mask_rows _ _) with (Frame.mask_rows m X0).
    change (mask_labelled _ _) with yl.
    rewrite Hrun1. cbn [mbind result_bind].
    unfold train_test_split. rewrite Hnt. cbn [values]. 
    change (values yl) with (mask_column m risk). rewrite H2. reflexivity.
Qed.

End SplitterExtras.

Lemma split_rows_intact_witness :
  exists s,
    split Examples.split_in_halves Examples.labelled_frame = Ok s /\
    forall j k, index (X_train s) !! j = Some k ->
      exists i v,
        index Examples.labelled_frame !! i = Some k /\
        labels (y_train s) !! j = Some k /\
        Series.cell (Float64 [0; 0; 1; nan; 0; 1]%float) i = Some v /\
        scalar_notnull v = true /\
        Series.cell (values (y_train s)) j = Some v.
Proof.
  destruct (split_rows_intact Examples.split_in_halves split_in_halves_partition
              Examples.labelled_frame (Float64 [0; 0; 1; nan; 0; 1]%float)
              [0; 1]%nat [2; 3; 4]%nat [0]%nat [1; 2]%nat)
    as (s & Hrun & Hrows);
    [exact labelled_frame_wf | reflexivity | reflexivity | reflexivity |].
  exists s. split; [exact Hrun|]. intros j k Hk.
  destruct (Hrows (X_train s) (y_train s) (list_elem_of_here _ _) j k Hk)
    as (i & v & H1 & H2 & H3 & H4 & H5 & _).
  exists i, v. repeat split; assumption.
Defined.

Lemma split_shapes_witness :
  exists s,
    split Examples.split_in_halves Examples.labelled_frame = Ok s /\
    (Frame.nrows (X_train s) + Frame.nrows (X_val s) + Frame.nrows (X_test s) = 5)%nat.
Proof.
  destruct (split_shapes Examples.split_in_halves split_in_halves_partition
              Examples.labelled_frame (Float64 [0; 0; 1; nan; 0; 1]%float)
              [0; 1]%nat [2; 3; 4]%nat [0]%nat [1; 2]%nat)
    as (s & Hrun & Hn & _);
    [exact labelled_frame_wf | reflexivity | reflexivity | reflexivity |].
  exists s. split; [exact Hrun|].
  apply Nat2Z.inj. rewrite Hn. reflexivity.
Defined.

Lemma split_errors_witness :
  split Examples.split_in_halves Examples.features_frame = Raise (KeyError "Risk").
Proof.
  destruct (split_errors Examples.split_in_halves split_in_halves_partition
              Examples.features_frame)
    as [H _].
  apply H. reflexivity.
Defined.

End RowFacts.

(** ** Features and labels recombined *)

Module RecombineFacts.
Import Heap HeapFacts Series FrameOps FeatureEngineering FeatureFacts MaskFacts SplitFacts StoreFacts RowFacts.

Lemma pad_column_id n c : Series.length c = n -> pad_column n c = c.
Proof.
  intros <-. unfold pad_column. rewrite Nat.sub_diag.
  destruct c; simpl; now rewrite ?app_nil_r.
Qed.

Lemma range_index_length n : List.length (range_index n) = n.
Proof. unfold range_index. now rewrite length_fmap, length_seq. Qed.

(** With as many labels as rows, recombining changes no cell: the frame
    gets the default index and the labels as its Risk column. *)
Lemma recombine_aligned (X_fe : DataFrame) (y : Labelled) :
  Frame.wf X_fe ->
  List.length (labels y) = Frame.nrows X_fe ->
  Series.length (values y) = Frame.nrows X_fe ->
  recombine X_fe y
  = mkFrame (range_index (Frame.nrows X_fe)) (<["Risk" := values y]> (columns X_fe)).
Proof.
  intros Hwf Hl Hv. unfold recombine, concat_columns, reset_index_drop,
    reset_index_labelled, Frame.nrows. simpl.
  rewrite !range_index_length. fold (Frame.nrows X_fe). rewrite Hl, Nat.max_id.
  rewrite pad_column_id by exact Hv. f_equal. f_equal.
  apply map_eq. intros c. rewrite lookup_fmap.
  destruct (columns X_fe !! c) as [col|] eqn:E; [simpl|reflexivity].
  now rewrite pad_column_id by exact (Hwf _ _ E).
Qed.

Lemma selects_wf (X : DataFrame) y p X_p y_p :
  Frame.wf X -> selects X y p X_p y_p -> Frame.wf X_p.
Proof.
  intros Hwf (Hp & Hidx & Hcols & _) c col Hc.
  rewrite Hcols in Hc. destruct (columns X !! c) as [col0|] eqn:E; [|discriminate].
  injection Hc as <-. unfold Frame.nrows. rewrite Hidx.
  rewrite <- cells_length, cells_take, !take_length; auto.
  rewrite cells_length, (Hwf _ _ E). exact Hp.
Qed.

Lemma take_length_column p c :
  in_range (Series.length c) p -> Series.length (take_column p c) = List.length p.
Proof.
  intros H. rewrite <- cells_length, cells_take. apply take_length.
  now rewrite cells_length.
Qed.

(** Steps 2 and 3 on one partition of the split: the recombined frame
    has one row per row of the partition, and each is a row of the
    input with its own Risk value and the three features computed from
    its own coordinates and counts. *)
Lemma recombined_partition_rows (df : DataFrame) risk lat lon cc vc p X_p y_p
    (σ : heap) l :
  Frame.wf df ->
  columns df !! "Risk" = Some risk ->
  has_schema df lat lon cc vc ->
  let m := notnull risk in
  let X := Frame.mask_rows m (mkFrame (index df) (delete "Risk" (columns df))) in
  selects X (mask_column m risk) p X_p y_p ->
  σ !! l = Some X_p ->
  exists out σ',
    engineer_and_recombine l y_p σ = (Ok out, σ') /\
    (forall l0, is_Some (σ !! l0) -> σ' !! l0 = σ !! l0) /\
    index out = range_index (List.length p) /\
    Frame.wf out /\
    dom (columns out) = dom (columns df) ∪ new_columns /\
    forall j, (j < List.length p)%nat ->
      exists i la lo c v r,
        lat !! i = Some la /\ lon !! i = Some lo /\
        cc !! i = Some c /\ vc !! i = Some v /\
        Series.cell risk i = Some r /\ scalar_notnull r = true /\
        frame_cell out "latitude" j = Some (Flt la) /\
        frame_cell out "longitude" j = Some (Flt lo) /\
        frame_cell out "CrimeCount" j = Some (Int c) /\
        frame_cell out "ViolentCount" j = Some (Int v) /\
        frame_cell out "CrimeDensity" j = Some (Flt (crime_density c la lo)) /\
        frame_cell out "ViolentRatio" j = Some (Flt (violent_ratio v c)) /\
        frame_cell out "DistanceFromCenter" j = Some (Flt (distance_from_center la lo)) /\
        frame_cell out "Risk" j = Some r.
Proof.
  intros Hwf Hrisk (Hlat & Hlon & Hcc & Hvc) m X Hsel Hl.
  assert (Frame.wf X) as HwfX.
  { apply mask_rows_spec. intros c col Hc. simpl in Hc.
    apply lookup_delete_Some in Hc as [_ Hc]. exact (Hwf c col Hc). }
  pose proof (selects_wf _ _ _ _ _ HwfX Hsel) as HwfP.
  pose proof Hsel as (Hp & Hidx & Hcols & Hlab & Hval).
  assert (forall c col, c <> "Risk" -> columns df !! c = Some col ->
            columns X_p !! c = Some (take_column p (mask_column m col))) as Hcol.
  { intros c col Hne Hc. rewrite Hcols. unfold X. simpl.
    now rewrite lookup_fmap, lookup_delete_ne, Hc by congruence. }
  assert (Frame.nrows X_p = List.length p) as Hn.
  { unfold Frame.nrows. rewrite Hidx. now apply take_length. }
  set (lat' := take p (mask m lat)). set (lon' := take p (mask m lon)).
  set (cc' := take p (mask m cc)). set (vc' := take p (mask m vc)).
  assert (has_schema X_p lat' lon' cc' vc') as Hs'.
  { repeat split.
    - now rewrite (Hcol "latitude" _ ltac:(discriminate) Hlat).
    - now rewrite (Hcol "longitude" _ ltac:(discriminate) Hlon).
    - now rewrite (Hcol "CrimeCount" _ ltac:(discriminate) Hcc).
    - now rewrite (Hcol "ViolentCount" _ ltac:(discriminate) Hvc). }
  destruct Hs' as (Hlat' & Hlon' & Hcc' & Hvc').
  destruct (distance_schema lat' lon') as (d & Hd & Hdrow).
  pose proof (crime_density_schema lat' lon' cc') as Hcd.
  pose proof (violent_ratio_schema vc' cc') as Hvr.
  set (cd := F64.fillna 0 <$> _) in Hcd. set (vr := F64.fillna 0 <$> _) in Hvr.
  set (l' := fresh (dom σ)).
  set (fe := with_features X_p (Float64 cd) (Float64 vr) (Float64 d)).
  assert (engineer_features_on_copy l σ
          = (Ok l', <[l' := fe]> (<[l' := X_p]> σ))) as Hrun.
  { unfold engineer_features_on_copy.
    eapply run_step; [apply run_copy; exact Hl|].
    eapply engineer_features_run; try eassumption. apply lookup_insert_eq. }
  assert (Frame.wf fe /\ Frame.nrows fe = Frame.nrows X_p) as [Hwfe Hnfe].
  { split; [|reflexivity].
    destruct (feature_columns_length X_p _ _ _ _ _ _ _
                HwfP Hlat' Hlon' Hcc' Hvc' Hcd Hvr Hd) as (L1 & L2 & L3).
    now apply with_features_wf. }
  assert (List.length (labels y_p) = Frame.nrows fe) as Hly.
  { rewrite Hnfe, Hn, Hlab. now apply take_length. }
  assert (Series.length (values y_p) = Frame.nrows fe) as Hvy.
  { rewrite Hnfe, Hn, Hval. apply take_length_column.
    rewrite <- cells_length, cells_mask.
    rewrite (mask_length_eq m (cells risk) (index df)); [exact Hp|].
    rewrite cells_length. exact (Hwf _ _ Hrisk). }
  exists (recombine fe y_p), (<[l' := fe]> (<[l' := X_p]> σ)).
  split.
  { unfold engineer_and_recombine.
    eapply run_step; [exact Hrun|]. cbv beta.
    eapply run_step; [|reflexivity].
    unfold deref. now rewrite lookup_insert_eq. }
  split.
  { intros l0 [x Hl0]. rewrite insert_insert_eq, lookup_insert_ne; [reflexivity|].
    intros <-. apply (is_fresh (dom σ)). apply elem_of_dom. eauto. }
  rewrite (recombine_aligned fe y_p Hwfe Hly Hvy).
  split; [cbn [index]; now rewrite Hnfe, Hn|].
  split.
  { intros c col Hc. cbn [columns] in Hc. unfold Frame.nrows at 1. cbn [index].
    rewrite range_index_length.
    apply lookup_insert_Some in Hc as [[_ <-]|[_ Hc]];
      [exact Hvy | exact (Hwfe _ _ Hc)]. }
  simpl.
  split.
  { unfold fe, with_features. simpl. rewrite !dom_insert_L.
    destruct (selects_shape df risk p X_p y_p Hsel) as (_ & _ & ->).
    assert ("Risk" ∈ dom (columns df)) as HR by (apply elem_of_dom; eauto).
    unfold new_columns. apply set_eq. intros c.
    rewrite !elem_of_union, elem_of_difference, !elem_of_singleton.
    destruct (decide (c = "Risk")) as [->|Hne]; tauto. }
  intros j Hj.
  assert (exists k, index X_p !! j = Some k) as [k Hk].
  { apply lookup_lt_is_Some. fold (Frame.nrows X_p). now rewrite Hn. }
  destruct (selects_row df risk p X_p y_p j k Hwf Hrisk Hsel Hk)
    as (i & r & Hi & _ & Hr & Hrn & Hyr & Hrow).
  destruct (Hrow "latitude" _ ltac:(discriminate) Hlat) as (c1 & E1 & R1).
  destruct (Hrow "longitude" _ ltac:(discriminate) Hlon) as (c2 & E2 & R2).
  destruct (Hrow "CrimeCount" _ ltac:(discriminate) Hcc) as (c3 & E3 & R3).
  destruct (Hrow "ViolentCount" _ ltac:(discriminate) Hvc) as (c4 & E4 & R4).
  rewrite Hlat' in E1. injection E1 as <-.
  rewrite Hlon' in E2. injection E2 as <-.
  rewrite Hcc' in E3. injection E3 as <-.
  rewrite Hvc' in E4. injection E4 as <-.
  simpl in R1, R2, R3, R4.
  assert (is_Some (lat' !! j)) as [la Hla].
  { apply lookup_lt_is_Some. pose proof (HwfP _ _ Hlat') as L. simpl in L. lia. }
  assert (is_Some (lon' !! j)) as [lo Hlo].
  { apply lookup_lt_is_Some. pose proof (HwfP _ _ Hlon') as L. simpl in L. lia. }
  assert (is_Some (cc' !! j)) as [c Hc].
  { apply lookup_lt_is_Some. pose proof (HwfP _ _ Hcc') as L. simpl in L. lia. }
  assert (is_Some (vc' !! j)) as [v Hv].
  { apply lookup_lt_is_Some. pose proof (HwfP _ _ Hvc') as L. simpl in L. lia. }
  rewrite Hla in R1. rewrite Hlo in R2. rewrite Hc in R3. rewrite Hv in R4.
  simpl in R1, R2, R3, R4.
  exists i, la, lo, c, v, r.
  assert (lat !! i = Some la) as Ila.
  { destruct (lat !! i); simpl in R1; congruence. }
  assert (lon !! i = Some lo) as Ilo.
  { destruct (lon !! i); simpl in R2; congruence. }
  assert (cc !! i = Some c) as Ic.
  { destruct (cc !! i); simpl in R3; congruence. }
  assert (vc !! i = Some v) as Iv.
  { destruct (vc !! i); simpl in R4; congruence. }
  repeat split; try assumption; unfold frame_cell, fe, with_features; simpl.
  - rewrite !lookup_insert_ne, Hlat' by discriminate. simpl. now rewrite Hla.
  - rewrite !lookup_insert_ne, Hlon' by discriminate. simpl. now rewrite Hlo.
  - rewrite !lookup_insert_ne, Hcc' by discriminate. simpl. now rewrite Hc.
  - rewrite !lookup_insert_ne, Hvc' by discriminate. simpl. now rewrite Hv.
  - rewrite !lookup_insert_ne by discriminate. rewrite lookup_insert_eq. simpl.
    unfold cd. rewrite (crime_density_lookup lat' lon' cc' j c la lo Hc Hla Hlo).
    reflexivity.
  - rewrite !lookup_insert_ne by discriminate. rewrite lookup_insert_eq. simpl.
    unfold vr. rewrite (violent_ratio_lookup vc' cc' j v c Hv Hc). reflexivity.
  - rewrite lookup_insert_ne by discriminate. rewrite lookup_insert_eq. simpl.
    now rewrite (Hdrow j la lo Hla Hlo).
  - rewrite lookup_insert_eq. simpl. exact Hyr.
Qed.

Section Splitter.
Variable shuffle_split :
  nat -> float -> Z -> Column -> result (list nat * list nat).

Hypothesis shuffle_split_partition :
  forall n test_size random_state stratify train test,
    shuffle_split n test_size random_state stratify = Ok (train, test) ->
    train ++ test ≡ₚ seq 0 n.

(** X9. The notebook from the split to the recombined frames: for each
    of the three partitions, engineering the features of a copy and
    concatenating the labels gives a frame with the default index, the
    columns of the input and the three new ones, and one value in each
    column per row of the partition; each row holds the coordinates, the counts and the
    present Risk value of one input row, with the three features
    computed from them. The frames that existed before are unchanged. *)
Theorem feature_notebook_rows (df : DataFrame) risk lat lon cc vc tr1 te1 tr2 te2 :
  Frame.wf df ->
  columns df !! "Risk" = Some risk ->
  has_schema df lat lon cc vc ->
  let m := notnull risk in
  shuffle_split (List.length (mask m (index df))) test_size_train 42
    (mask_column m risk) = Ok (tr1, te1) ->
  shuffle_split (List.length te1) test_size_temp 42
    (take_column te1 (mask_column m risk)) = Ok (tr2, te2) ->
  exists s,
    split shuffle_split df = Ok s /\
    forall X_p y_p,
      (X_p, y_p) ∈ [(X_train s, y_train s); (X_val s, y_val s); (X_test s, y_test s)] ->
      forall (σ : heap) l, σ !! l = Some X_p ->
        exists out σ',
          engineer_and_recombine l y_p σ = (Ok out, σ') /\
          (forall l0, is_Some (σ !! l0) -> σ' !! l0 = σ !! l0) /\
          index out = range_index (Frame.nrows X_p) /\
          Frame.wf out /\
          dom (columns out) = dom (columns df) ∪ new_columns /\
          forall j, (j < Frame.nrows X_p)%nat ->
            exists i la lo c v r,
              lat !! i = Some la /\ lon !! i = Some lo /\
              cc !! i = Some c /\ vc !! i = Some v /\
              Series.cell risk i = Some r /\ scalar_notnull r = true /\
              frame_cell out "latitude" j = Some (Flt la) /\
              frame_cell out "longitude" j = Some (Flt lo) /\
              frame_cell out "CrimeCount" j = Some (Int c) /\
              frame_cell out "ViolentCount" j = Some (Int v) /\
              frame_cell out "CrimeDensity" j = Some (Flt (crime_density c la lo)) /\
              frame_cell out "ViolentRatio" j = Some (Flt (violent_ratio v c)) /\
              frame_cell out "DistanceFromCenter" j
                = Some (Flt (distance_from_center la lo)) /\
              frame_cell out "Risk" j = Some r.
Proof.
  intros Hwf Hrisk Hs m H1 H2.
  destruct (split_run shuffle_split shuffle_split_partition df risk tr1 te1 tr2 te2
              Hwf Hrisk H1 H2) as (s & Hrun & _ & _ & S1 & S2 & S3).
  exists s. split; [exact Hrun|].
  assert (forall p X_p y_p,
            selects (Frame.mask_rows m (mkFrame (index df) (delete "Risk" (columns df))))
              (mask_column m risk) p X_p y_p ->
            forall (σ : heap) l, σ !! l = Some X_p ->
            exists out σ',
              engineer_and_recombine l y_p σ = (Ok out, σ') /\
              (forall l0, is_Some (σ !! l0) -> σ' !! l0 = σ !! l0) /\
              index out = range_index (Frame.nrows X_p) /\
              Frame.wf out /\
              dom (columns out) = dom (columns df) ∪ new_columns /\
              forall j, (j < Frame.nrows X_p)%nat ->
                exists i la lo c v r,
                  lat !! i = Some la /\ lon !! i = Some lo /\
                  cc !! i = Some c /\ vc !! i = Some v /\
                  Series.cell risk i = Some r /\ scalar_notnull r = true /\
                  frame_cell out "latitude" j = Some (Flt la) /\
                  frame_cell out "longitude" j = Some (Flt lo) /\
                  frame_cell out "CrimeCount" j = Some (Int c) /\
                  frame_cell out "ViolentCount" j = Some (Int v) /\
                  frame_cell out "CrimeDensity" j = Some (Flt (crime_density c la lo)) /\
                  frame_cell out "ViolentRatio" j = Some (Flt (violent_ratio v c)) /\
                  frame_cell out "DistanceFromCenter" j
                    = Some (Flt (distance_from_center la lo)) /\
                  frame_cell out "Risk" j = Some r) as Hpart.
  { intros p X_p y_p Hsel σ l Hl.
    destruct (selects_shape df risk p X_p y_p Hsel) as (-> & _ & _).
    exact (recombined_partition_rows df risk lat lon cc vc p X_p y_p σ l
             Hwf Hrisk Hs Hsel Hl). }
  intros X_p y_p Hin.
  apply elem_of_cons in Hin as [[= -> ->]|Hin]; [exact (Hpart _ _ _ S1)|].
  apply elem_of_cons in Hin as [[= -> ->]|Hin]; [exact (Hpart _ _ _ S2)|].
  apply list_elem_of_singleton in Hin as [= -> ->]. exact (Hpart _ _ _ S3).
Qed.

End Splitter.

Lemma feature_notebook_rows_witness :
  exists s,
    split Examples.split_in_halves Examples.labelled_frame = Ok s /\
    exists out σ',
      engineer_and_recombine 1%positive (y_train s) {[1%positive := X_train s]}
        = (Ok out, σ') /\
      index out = range_index (Frame.nrows (X_train s)).
Proof.
  destruct (feature_notebook_rows Examples.split_in_halves split_in_halves_partition
              Examples.labelled_frame (Float64 [0; 0; 1; nan; 0; 1]%float)
              [1; 2; 3; 4; 5; 6]%float [1; 2; 3; 4; 5; 6]%float
              [1; 1; 3; 1; 1; 4] [0; 1; 2; 0; 0; 1]
              [0; 1]%nat [2; 3; 4]%nat [0]%nat [1; 2]%nat)
    as (s & Hrun & Hrows);
    [exact labelled_frame_wf | reflexivity | repeat split; reflexivity
    | reflexivity | reflexivity |].
  exists s. split; [exact Hrun|].
  destruct (Hrows (X_train s) (y_train s) (list_elem_of_here _ _)
              {[1%positive := X_train s]} 1%positive (lookup_singleton_eq _ _))
    as (out & σ' & H1 & _ & H2 & _).
  exists out, σ'. split; assumption.
Defined.

(** *** The missing values the notebook counts before saving *)

Lemma notnull_lookup_cell (c : Column) i v :
  Series.cell c i = Some v -> notnull c !! i = Some (scalar_notnull v).
Proof.
  destruct c as [xs|xs|xs|xs]; simpl; rewrite !list_lookup_fmap;
    destruct (xs !! i) as [x|]; simpl; try discriminate; intros [= <-];
    try reflexivity; destruct x; reflexivity.
Qed.

(** A column whose cells all hold a value has no missing one to count. *)
Lemma isnull_sum_zero (col : Column) :
  (forall j, (j < Series.length col)%nat ->
     exists v, Series.cell col j = Some v /\ scalar_notnull v = true) ->
  isnull_sum col = 0.
Proof.
  intros H. unfold isnull_sum.
  rewrite AggregateFacts.filter_nil_bool; [reflexivity|].
  intros b Hb. apply list_elem_of_In, list_elem_of_lookup in Hb as [j Hj].
  assert (j < Series.length col)%nat as Hlt.
  { rewrite <- notnull_length. eapply lookup_lt_Some, Hj. }
  destruct (H j Hlt) as (v & Hv & Hn).
  apply notnull_lookup_cell in Hv. rewrite Hv in Hj. injection Hj as <-.
  now rewrite Hn.
Qed.

Lemma feature_cells_notnull (c v : Z) (la lo : float) :
  scalar_notnull (Flt (crime_density c la lo)) = true /\
  scalar_notnull (Flt (violent_ratio v c)) = true /\
  scalar_notnull (Flt (distance_from_center la lo)) = true.
Proof.
  unfold scalar_notnull, F64.notnull, crime_density, violent_ratio.
  rewrite !F64Facts.fillna_notnull by reflexivity.
  destruct (SignFacts.SFnonneg_spec _ (SignFacts.distance_nonneg la lo)) as [-> _].
  repeat split.
Qed.

Section Saved.
Variable shuffle_split :
  nat -> float -> Z -> Column -> result (list nat * list nat).

Hypothesis shuffle_split_partition :
  forall n test_size random_state stratify train test,
    shuffle_split n test_size random_state stratify = Ok (train, test) ->
    train ++ test ≡ₚ seq 0 n.

(** X23. The check before saving: in each of the three recombined
    frames, Risk and the three engineered columns have one value per
    row of the partition and none of them is missing, so
    [isnull().sum()] is 0 for these four columns. *)
Theorem recombined_nan_counts (df : DataFrame) risk lat lon cc vc tr1 te1 tr2 te2 :
  Frame.wf df ->
  columns df !! "Risk" = Some risk ->
  has_schema df lat lon cc vc ->
  let m := notnull risk in
  shuffle_split (List.length (mask m (index df))) test_size_train 42
    (mask_column m risk) = Ok (tr1, te1) ->
  shuffle_split (List.length te1) test_size_temp 42
    (take_column te1 (mask_column m risk)) = Ok (tr2, te2) ->
  exists s,
    split shuffle_split df = Ok s /\
    forall X_p y_p,
      (X_p, y_p) ∈ [(X_train s, y_train s); (X_val s, y_val s); (X_test s, y_test s)] ->
      forall (σ : heap) l, σ !! l = Some X_p ->
        exists out σ',
          engineer_and_recombine l y_p σ = (Ok out, σ') /\
          forall c,
            c ∈ ["CrimeDensity"; "ViolentRatio"; "DistanceFromCenter"; "Risk"] ->
            exists col,
              columns out !! c = Some col /\
              Series.length col = Frame.nrows X_p /\
              isnull_sum col = 0.
Proof.
  intros Hwf Hrisk Hs m H1 H2.
  destruct (split_run shuffle_split shuffle_split_partition df risk tr1 te1 tr2 te2
              Hwf Hrisk H1 H2) as (s & Hrun & _ & _ & S1 & S2 & S3).
  exists s. split; [exact Hrun|].
  assert (forall p X_p y_p,
            selects (Frame.mask_rows m (mkFrame (index df) (delete "Risk" (columns df))))
              (mask_column m risk) p X_p y_p ->
            forall (σ : heap) l, σ !! l = Some X_p ->
            exists out σ',
              engineer_and_recombine l y_p σ = (Ok out, σ') /\
              forall c,
                c ∈ ["CrimeDensity"; "ViolentRatio"; "DistanceFromCenter"; "Risk"] ->
                exists col,
                  columns out !! c = Some col /\
                  Series.length col = Frame.nrows X_p /\
                  isnull_sum col = 0) as Hpart.
  { intros p X_p y_p Hsel σ l Hl.
    destruct (recombined_partition_rows df risk lat lon cc vc p X_p y_p σ l
                Hwf Hrisk Hs Hsel Hl)
      as (out & σ' & Hout & _ & Hidx & Hwfo & Hdom & Hrows).
    destruct (selects_shape df risk p X_p y_p Hsel) as (Hn & _ & _).
    exists out, σ'. split; [exact Hout|]. intros c Hc.
    assert (c ∈ dom (columns out)) as [col Hcol]%elem_of_dom.
    { rewrite Hdom. unfold new_columns.
      assert ("Risk" ∈ dom (columns df)) as HR by (apply elem_of_dom; eauto).
      rewrite !elem_of_union, !elem_of_singleton.
      repeat (apply elem_of_cons in Hc as [->|Hc]; [auto 6|]).
      apply elem_of_nil in Hc as []. }
    assert (Series.length col = List.length p) as Hlen.
    { rewrite (Hwfo _ _ Hcol). unfold Frame.nrows. rewrite Hidx.
      apply range_index_length. }
    exists col. split; [exact Hcol|]. split; [now rewrite Hn|].
    apply isnull_sum_zero. intros j Hj. rewrite Hlen in Hj.
    destruct (Hrows j Hj)
      as (i & la & lo & c0 & v & r & _ & _ & _ & _ & _ & Hr & _ & _ & _ & _
          & Ccd & Cvr & Cd & Crisk).
    destruct (feature_cells_notnull c0 v la lo) as (N1 & N2 & N3).
    unfold frame_cell in Ccd, Cvr, Cd, Crisk.
    repeat (apply elem_of_cons in Hc as [->|Hc];
            [rewrite Hcol in *; cbn [mbind option_bind] in *; eauto|]).
    apply elem_of_nil in Hc as []. }
  intros X_p y_p Hin.
  apply elem_of_cons in Hin as [[= -> ->]|Hin]; [exact (Hpart _ _ _ S1)|].
  apply elem_of_cons in Hin as [[= -> ->]|Hin]; [exact (Hpart _ _ _ S2)|].
  apply list_elem_of_singleton in Hin as [= -> ->]. exact (Hpart _ _ _ S3).
Qed.

End Saved.

Lemma recombined_nan_counts_witness :
  exists s,
    split Examples.split_in_halves Examples.labelled_frame = Ok s /\
    exists out σ' col,
      engineer_and_recombine 1%positive (y_val s) {[1%positive := X_val s]}
        = (Ok out, σ') /\
      columns out !! "Risk" = Some col /\ isnull_sum col = 0.
Proof.
  destruct (recombined_nan_counts Examples.split_in_halves split_in_halves_partition
              Examples.labelled_frame (Float64 [0; 0; 1; nan; 0; 1]%float)
              [1; 2; 3; 4; 5; 6]%float [1; 2; 3; 4; 5; 6]%float
              [1; 1; 3; 1; 1; 4] [0; 1; 2; 0; 0; 1]
              [0; 1]%nat [2; 3; 4]%nat [0]%nat [1; 2]%nat)
    as (s & Hrun & Hrows);
    [exact labelled_frame_wf | reflexivity | repeat split; reflexivity
    | reflexivity | reflexivity |].
  exists s. split; [exact Hrun|].
  destruct (Hrows (X_val s) (y_val s)
              (list_elem_of_further _ _ _ (list_elem_of_here _ _))
              {[1%positive := X_val s]} 1%positive (lookup_singleton_eq _ _))
    as (out & σ' & H1 & H2).
  destruct (H2 "Risk") as (col & Hcol & _ & Hsum).
  { repeat first [apply list_elem_of_here | apply list_elem_of_further]. }
  exists out, σ', col. repeat split; assumption.
Defined.

End RecombineFacts.

(** ** The loading cells of the modelling notebooks *)

Module LoadingFacts.
Import Heap Series FrameOps FeatureEngineering Modeling MaskFacts SplitFacts RowFacts RecombineFacts.

Lemma zip_with_andb_true (m : list bool) n :
  List.length m = n -> zip_with andb m (replicate n true) = m.
Proof.
  intros <-. induction m as [|b m IH]; simpl; [reflexivity|].
  now rewrite andb_true_r, IH.
Qed.

Lemma notnull_mask_Risk (df : DataFrame) risk :
  Frame.wf df -> columns df !! "Risk" = Some risk ->
  ETL.notnull_mask ["Risk"] df = Ok (notnull risk).
Proof.
  intros Hwf Hr. simpl. unfold Frame.getitem. rewrite Hr. simpl.
  rewrite zip_with_andb_true; [reflexivity|].
  rewrite notnull_length. exact (Hwf _ _ Hr).
Qed.

Lemma mask_all_true {A} (m : list bool) (l : list A) :
  Forall (fun b => b = true) m -> List.length m = List.length l -> mask m l = l.
Proof.
  intros H. revert l. induction H as [|b m -> _ IH]; intros [|x l]; simpl;
    try discriminate; [reflexivity|].
  intros [= Hl]. now rewrite IH.
Qed.

Lemma mask_column_all_true (m : list bool) (c : Column) :
  Forall (fun b => b = true) m -> List.length m = Series.length c ->
  mask_column m c = c.
Proof.
  intros H Hl. destruct c; simpl in *; now rewrite mask_all_true.
Qed.

(** What the loading cell of the pipeline notebook returns for a frame
    with a Risk column. *)
Lemma features_and_target_run (df : DataFrame) risk :
  Frame.wf df -> columns df !! "Risk" = Some risk ->
  let m := notnull risk in
  exists X y,
    features_and_target df = Ok (X, y) /\
    index X = mask m (index df) /\
    labels y = index X /\
    values y = mask_column m risk /\
    Forall (fun b => b = true) (notnull (values y)) /\
    columns X = mask_column m <$> delete "Risk" (columns df) /\
    Frame.wf X.
Proof.
  intros Hwf Hr m.
  unfold features_and_target, ETL.dropna.
  rewrite (notnull_mask_Risk df risk Hwf Hr). cbn [mbind result_bind].
  unfold Frame.drop, Frame.getitem, Frame.mask_rows. cbn [columns index].
  rewrite lookup_fmap, Hr. cbn [fmap option_fmap option_map mbind result_bind].
  eexists _, _. split; [reflexivity|]. cbn [index labels values columns].
  fold m. split; [reflexivity|]. split; [reflexivity|]. split; [reflexivity|].
  split; [apply notnull_mask_column|]. split.
  - now rewrite fmap_delete.
  - intros c col Hc. cbn [columns] in Hc.
    rewrite lookup_delete_Some, lookup_fmap in Hc. destruct Hc as [_ Hc].
    destruct (columns df !! c) as [col0|] eqn:E; [|discriminate].
    injection Hc as <-. unfold Frame.nrows. cbn [index].
    rewrite <- cells_length, cells_mask.
    apply (mask_length_eq m (cells col0) (index df)).
    rewrite cells_length. exact (Hwf _ _ E).
Qed.

(** X10. The loading cell of the pipeline notebook, applied to a
    recombined frame whose labels are all present, gives back the
    engineered features and the labels, both under the default index. *)
Theorem recombine_round_trip (X_fe : DataFrame) (y : Labelled) :
  Frame.wf X_fe ->
  columns X_fe !! "Risk" = None ->
  List.length (labels y) = Frame.nrows X_fe ->
  Series.length (values y) = Frame.nrows X_fe ->
  Forall (fun b => b = true) (notnull (values y)) ->
  features_and_target (recombine X_fe y)
  = Ok (reset_index_drop X_fe, reset_index_labelled y).
Proof.
  intros Hwf Hno Hl Hv Hnn.
  rewrite (recombine_aligned X_fe y Hwf Hl Hv).
  set (F := mkFrame _ _).
  assert (Frame.wf F) as HwfF.
  { intros c col Hc. unfold F in *. cbn [columns] in Hc.
    unfold Frame.nrows. cbn [index]. rewrite range_index_length.
    apply lookup_insert_Some in Hc as [[_ <-]|[_ Hc]]; [exact Hv | exact (Hwf _ _ Hc)]. }
  destruct (features_and_target_run F (values y) HwfF (lookup_insert_eq _ _ _))
    as (X & y' & -> & HiX & Hly & Hvy & _ & HcX & _).
  assert (List.length (notnull (values y)) = Frame.nrows X_fe) as Hm
    by now rewrite notnull_length.
  f_equal. f_equal.
  - destruct X as [iX cX]. simpl in *. subst iX cX. unfold reset_index_drop. f_equal.
    + apply mask_all_true; [exact Hnn|]. now rewrite range_index_length.
    + rewrite delete_insert_eq, delete_id by exact Hno.
      apply map_eq. intros c. rewrite lookup_fmap.
      destruct (columns X_fe !! c) as [col|] eqn:E; [simpl|reflexivity].
      rewrite mask_column_all_true; [reflexivity | exact Hnn|].
      now rewrite Hm, (Hwf _ _ E).
  - destruct y' as [ly vy]. simpl in *. subst ly vy. unfold reset_index_labelled.
    rewrite HiX. f_equal.
    + rewrite Hl. apply mask_all_true; [exact Hnn|]. now rewrite range_index_length.
    + apply mask_column_all_true; [exact Hnn|]. now rewrite Hm.
Qed.

Lemma recombine_round_trip_witness :
  features_and_target (recombine Examples.features_frame Examples.sample_labels)
  = Ok (reset_index_drop Examples.features_frame,
        reset_index_labelled Examples.sample_labels).
Proof.
  apply recombine_round_trip.
  - apply (bool_decide_unpack _). vm_compute. exact I.
  - reflexivity.
  - reflexivity.
  - reflexivity.
  - apply (bool_decide_unpack _). vm_compute. exact I.
Defined.

(** X11. The loading cell of the pipeline notebook rejects a frame
    without a Risk column with [KeyError]; otherwise the features and
    the target are the rows whose Risk is present, under their index
    labels: the target has no missing value and the features have the
    other columns. *)
Theorem features_and_target_spec (df : DataFrame) :
  (columns df !! "Risk" = None ->
   features_and_target df = Raise (KeyError "Risk")) /\
  (forall risk, Frame.wf df -> columns df !! "Risk" = Some risk ->
     let m := notnull risk in
     exists X y,
       features_and_target df = Ok (X, y) /\
       index X = mask m (index df) /\
       labels y = index X /\
       values y = mask_column m risk /\
       Forall (fun b => b = true) (notnull (values y)) /\
       columns X = mask_column m <$> delete "Risk" (columns df) /\
       Frame.wf X).
Proof.
  split.
  - intros H. unfold features_and_target, ETL.dropna. simpl.
    unfold Frame.getitem. now rewrite H.
  - exact (features_and_target_run df).
Qed.

Lemma features_and_target_spec_witness :
  features_and_target Examples.features_frame = Raise (KeyError "Risk") /\
  exists X y,
    features_and_target Examples.labelled_frame = Ok (X, y) /\
    index X = [0; 1; 2; 4; 5] /\ labels y = index X.
Proof.
  split.
  - destruct (features_and_target_spec Examples.features_frame) as [H _].
    apply H. reflexivity.
  - destruct (features_and_target_spec Examples.labelled_frame) as [_ H].
    destruct (H (Float64 [0; 0; 1; nan; 0; 1]%float) labelled_frame_wf eq_refl)
      as (X & y & H1 & H2 & H3 & _).
    exists X, y. repeat split; assumption.
Defined.

Lemma notnull_all_spec (df : DataFrame) :
  Frame.wf df ->
  List.length (notnull_all df) = Frame.nrows df /\
  forall i, notnull_all df !! i = Some true <->
    (i < Frame.nrows df)%nat /\
    forall c col, columns df !! c = Some col -> notnull col !! i = Some true.
Proof.
  unfold notnull_all, Frame.wf. generalize (Frame.nrows df) as n. intros n.
  apply (map_fold_weak_ind
    (fun r (cols : gmap string Column) =>
       map_Forall (fun _ c => Series.length c = n) cols ->
       List.length r = n /\
       forall i, r !! i = Some true <->
         (i < n)%nat /\
         forall c col, cols !! c = Some col -> notnull col !! i = Some true)).
  - intros _. split; [apply length_replicate|]. intros i.
    rewrite lookup_replicate. split.
    + intros [_ Hi]. split; [exact Hi|]. intros c col Hc. rewrite lookup_empty in Hc. discriminate Hc.
    + intros [Hi _]. auto.
  - intros c col cols r Hfresh IH Hall.
    apply map_Forall_insert in Hall as [Hcol Hall]; [|exact Hfresh].
    destruct (IH Hall) as [Hlen Hr].
    split; [rewrite length_zip_with, notnull_length; lia|].
    intros i. rewrite lookup_zip_with. split.
    + intros H.
      destruct (notnull col !! i) as [b1|] eqn:E1; [simpl in H|discriminate].
      destruct (r !! i) as [b2|] eqn:E2; [simpl in H|discriminate].
      injection H as H. apply andb_true_iff in H as [-> ->].
      apply Hr in E2 as [Hi Hrest]. split; [exact Hi|].
      intros c' col' Hc'. apply lookup_insert_Some in Hc' as [[<- <-]|[_ Hc']]; eauto.
    + intros [Hi Hrest].
      rewrite (Hrest c col (lookup_insert_eq _ _ _)). simpl.
      assert (r !! i = Some true) as ->; [|reflexivity].
      apply Hr. split; [exact Hi|]. intros c' col' Hc'.
      apply (Hrest c'). rewrite lookup_insert_ne; [exact Hc'|]. congruence.
Qed.

Lemma mask_sublist {A} (m1 m2 : list bool) (l : list A) :
  List.length m1 = List.length m2 ->
  (forall i, m1 !! i = Some true -> m2 !! i = Some true) ->
  sublist (mask m1 l) (mask m2 l).
Proof.
  revert m2 l. induction m1 as [|b1 m1 IH]; intros [|b2 m2] l; try discriminate.
  - intros _ _. simpl. constructor.
  - intros [= Hl] H. destruct l as [|x l]; [simpl; destruct b1, b2; constructor|].
    assert (sublist (mask m1 l) (mask m2 l)) as Hs.
    { apply IH; [exact Hl|]. intros i. apply (H (S i)). }
    destruct b1; simpl.
    + pose proof (H 0%nat eq_refl) as H0. simpl in H0. injection H0 as ->.
      now constructor.
    + destruct b2; [now constructor | exact Hs].
Qed.

Lemma mask_ext {A} (m1 m2 : list bool) (l : list A) :
  List.length m1 = List.length m2 ->
  (forall i, m1 !! i = Some true <-> m2 !! i = Some true) ->
  m1 = m2.
Proof.
  revert m2. induction m1 as [|b1 m1 IH]; intros [|b2 m2]; try discriminate;
    [reflexivity|].
  intros [= Hl] H. f_equal.
  - specialize (H 0%nat). simpl in H. destruct b1, b2; try reflexivity.
    + destruct H as [H _]. specialize (H eq_refl). discriminate.
    + destruct H as [_ H]. specialize (H eq_refl). discriminate.
  - apply IH; [exact Hl|]. intros i. apply (H (S i)).
Qed.

(** [dropna()] against [dropna(subset=['Risk'])]: the first keeps a
    part of the rows of the second, in the same order, and the same
    rows when no feature cell is missing. *)
Lemma dropna_any_sublist (df : DataFrame) risk :
  Frame.wf df -> columns df !! "Risk" = Some risk ->
  exists kept,
    ETL.dropna ["Risk"] df = Ok kept /\
    sublist (index (dropna_any df)) (index kept) /\
    ((forall c col, c <> "Risk" -> columns df !! c = Some col ->
        Forall (fun b => b = true) (notnull col)) ->
     dropna_any df = kept).
Proof.
  intros Hwf Hr. unfold ETL.dropna. rewrite (notnull_mask_Risk df risk Hwf Hr).
  eexists. split; [reflexivity|].
  destruct (notnull_all_spec df Hwf) as [Hlen Hspec].
  assert (List.length (notnull risk) = Frame.nrows df) as Hlr.
  { rewrite notnull_length. exact (Hwf _ _ Hr). }
  split.
  - apply mask_sublist; [congruence|].
    intros i Hi. apply Hspec in Hi as [_ Hi]. exact (Hi _ _ Hr).
  - intros Hfeat. unfold dropna_any. f_equal.
    apply (mask_ext _ _ (index df)); [congruence|].
    intros i. rewrite Hspec. split.
    + intros [_ Hi]. exact (Hi _ _ Hr).
    + intros Hi. split; [apply lookup_lt_Some in Hi; lia|].
      intros c col Hc. destruct (decide (c = "Risk")) as [->|Hne].
      * rewrite Hr in Hc. now injection Hc as <-.
      * specialize (Hfeat c col Hne Hc). 
        assert (i < List.length (notnull col))%nat as Hlt.
        { rewrite notnull_length, (Hwf _ _ Hc). apply lookup_lt_Some in Hi. lia. }
        apply lookup_lt_is_Some in Hlt as [b Hb]. rewrite Hb. f_equal.
        rewrite Forall_forall in Hfeat. apply Hfeat.
        eapply list_elem_of_lookup_2, Hb.
Qed.

(** X12. The two loading cells on one frame: the workflow notebook
    keeps a part of the rows the pipeline notebook keeps, in the same
    order, and both return the same features and target when no
    feature cell is missing. *)
Theorem loading_cells_agree (df : DataFrame) risk :
  Frame.wf df -> columns df !! "Risk" = Some risk ->
  exists Xw yw Xp yp,
    workflow_features_and_target df = Ok (Xw, yw) /\
    features_and_target df = Ok (Xp, yp) /\
    sublist (index Xw) (index Xp) /\
    labels yw = index Xw /\
    Forall (fun b => b = true) (notnull (values yp)) /\
    ((forall c col, c <> "Risk" -> columns df !! c = Some col ->
        Forall (fun b => b = true) (notnull col)) ->
     Xw = Xp /\ yw = yp).
Proof.
  intros Hwf Hr.
  destruct (dropna_any_sublist df risk Hwf Hr) as (kept & Hk & Hsub & Heq).
  unfold workflow_features_and_target, features_and_target. rewrite Hk.
  cbn [mbind result_bind].
  assert (columns (dropna_any df) !! "Risk" = Some (mask_column (notnull_all df) risk))
    as Hrw.
  { unfold dropna_any, Frame.mask_rows. cbn [columns]. now rewrite lookup_fmap, Hr. }
  assert (columns kept !! "Risk" = Some (mask_column (notnull risk) risk)) as Hrk.
  { unfold ETL.dropna in Hk. rewrite (notnull_mask_Risk df risk Hwf Hr) in Hk.
    injection Hk as <-. unfold Frame.mask_rows. cbn [columns].
    now rewrite lookup_fmap, Hr. }
  unfold Frame.drop, Frame.getitem. rewrite Hrw, Hrk. cbn [mbind result_bind].
  eexists _, _, _, _. split; [reflexivity|]. split; [reflexivity|].
  cbn [index labels values]. split; [exact Hsub|]. split; [reflexivity|].
  split; [apply notnull_mask_column|].
  intros Hfeat. specialize (Heq Hfeat). rewrite Heq in *.
  rewrite Hrw in Hrk. injection Hrk as ->. split; reflexivity.
Qed.

Lemma loading_cells_agree_witness :
  exists Xw yw Xp yp,
    workflow_features_and_target Examples.labelled_frame = Ok (Xw, yw) /\
    features_and_target Examples.labelled_frame = Ok (Xp, yp) /\
    sublist (index Xw) (index Xp) /\
    labels yw = index Xw.
Proof.
  destruct (loading_cells_agree Examples.labelled_frame
              (Float64 [0; 0; 1; nan; 0; 1]%float))
    as (Xw & yw & Xp & yp & H1 & H2 & H3 & H4 & _);
    [exact labelled_frame_wf | reflexivity |].
  exists Xw, yw, Xp, yp. repeat split; assumption.
Defined.

End LoadingFacts.

(** ** The normaliser on a feed *)

Module FeedFacts.
Import Series FrameOps ETL MaskFacts NormalizeFacts RowFacts LoadingFacts.

(** *** The cleaning statement by statement *)

Lemma select_run (df : DataFrame) :
  (forall c, c ∈ raw_columns -> is_Some (columns df !! c)) ->
  Frame.select raw_columns df
  = Ok (mkFrame (index df) (filter (fun kv => kv.1 ∈ raw_columns) (columns df))).
Proof.
  intros H. unfold Frame.select.
  destruct (List.find _ raw_columns) as [c|] eqn:E; [|reflexivity].
  apply find_some in E as [Hin Hc]. apply bool_decide_eq_true in Hc.
  apply list_elem_of_In in Hin. destruct (H c Hin) as [x Hx]. congruence.
Qed.

Ltac lookup_insert_step :=
  match goal with
  | |- context [ (<[?i := ?x]> ?m) !! ?j ] =>
      tryif constr_eq i j then rewrite (lookup_insert_eq m i x)
      else rewrite (lookup_insert_ne m i j x) by discriminate
  end.

Section Clean.
Variable parse_numeric : string -> option numeral.
Variable parse_datetime : string -> string -> option Z.

Local Abbreviation kept_mask := (ETL.kept_mask parse_numeric).

(** The cleaning on a frame that has the four columns, of any dtype. *)
Lemma clean_eval_columns (df : DataFrame) cdate clat clon cpt :
  columns df !! "date" = Some cdate ->
  columns df !! "latitude" = Some clat ->
  columns df !! "longitude" = Some clon ->
  columns df !! "primary_type" = Some cpt ->
  clean parse_numeric parse_datetime df =
  latv ← to_numeric parse_numeric clat;
  lonv ← to_numeric parse_numeric clon;
  let m := zip_with andb (notnull latv)
             (zip_with andb (notnull lonv) (replicate (Frame.nrows df) true)) in
  ts ← to_datetime parse_datetime (mask_column m cdate);
  h ← dt hour ts;
  d ← dt dayofweek ts;
  Ok (mkFrame (mask m (index df))
        (<["IsViolent" := isin_int violent_crimes (mask_column m cpt)]>
         (<["DayOfWeek" := d]>
         (<["Hour" := h]>
         (<["date" := ts]>
         (<["primary_type" := mask_column m cpt]>
         (<["longitude" := mask_column m lonv]>
         (<["latitude" := mask_column m latv]> ∅)))))))).
Proof.
  intros Hdate Hlat Hlon Hpt.
  unfold clean. rewrite select_run.
  2:{ intros c Hc. unfold raw_columns in Hc.
      repeat (apply elem_of_cons in Hc as [->|Hc]; [eauto|]).
      now apply elem_of_nil in Hc. }
  cbn [mbind result_bind].
  assert (filter (fun kv : string * Column => kv.1 ∈ raw_columns) (columns df)
          = <["date" := cdate]> (<["latitude" := clat]>
              (<["longitude" := clon]> (<["primary_type" := cpt]> ∅))))
    as ->.
  { apply map_eq. intros c.
    destruct (decide (c ∈ raw_columns)) as [Hc|Hc].
    - transitivity (columns df !! c).
      + destruct (columns df !! c) as [x|] eqn:E.
        * apply map_lookup_filter_Some. split; [exact E | exact Hc].
        * apply map_lookup_filter_None. left. exact E.
      + unfold raw_columns in Hc.
        repeat (apply elem_of_cons in Hc as [->|Hc]; [by simplify_map_eq|]).
        now apply elem_of_nil in Hc.
    - transitivity (@None Column).
      + apply map_lookup_filter_None. right. intros x _. exact Hc.
      + unfold raw_columns in Hc. rewrite !not_elem_of_cons in Hc.
        destruct Hc as (? & ? & ? & ? & _). by simplify_map_eq. }
  unfold Frame.getitem, Frame.setitem, dropna. cbn [columns index].
  repeat lookup_insert_step.
  cbn [mbind result_bind].
  destruct (to_numeric parse_numeric clat) as [latv|e]; [|reflexivity].
  cbn [mbind result_bind].
  repeat lookup_insert_step.
  cbn [mbind result_bind].
  destruct (to_numeric parse_numeric clon) as [lonv|e]; [|reflexivity].
  cbn [mbind result_bind notnull_mask].
  unfold Frame.getitem. cbn [columns index].
  repeat lookup_insert_step.
  cbn [mbind result_bind].
  match goal with
  | |- context [replicate (Frame.nrows ?f) true] =>
      change (Frame.nrows f) with (Frame.nrows df)
  end.
  set (m := zip_with andb (notnull latv) _).
  unfold Frame.mask_rows. cbn [columns index].
  rewrite lookup_fmap. repeat lookup_insert_step.
  cbn [fmap option_fmap option_map mbind result_bind].
  destruct (to_datetime parse_datetime (mask_column m cdate)) as [ts|e]; [|reflexivity].
  cbn [mbind result_bind].
  repeat lookup_insert_step. cbn [mbind result_bind].
  destruct (dt hour ts) as [h|e]; [|reflexivity].
  cbn [mbind result_bind].
  repeat lookup_insert_step. cbn [mbind result_bind].
  destruct (dt dayofweek ts) as [d|e]; [|reflexivity].
  cbn [mbind result_bind].
  repeat lookup_insert_step. rewrite lookup_fmap. repeat lookup_insert_step.
  cbn [fmap option_fmap option_map mbind result_bind].
  reflexivity.
Qed.

(** A column of integer literals has a number in every cell. *)
Lemma to_int_cell_notnull (o : option string) :
  is_Some (to_int_cell parse_numeric o) ->
  F64.notnull (to_numeric_cell parse_numeric o) = true.
Proof.
  unfold to_int_cell, to_numeric_cell. intros [z Hz].
  destruct (o ≫= parse_numeric) as [[z'|f]|]; simpl in *; try discriminate.
  unfold F64.notnull. now rewrite SignFacts.of_int_notnull.
Qed.

Lemma notnull_numeric_column (xs : list (option string)) :
  notnull (numeric_column parse_numeric xs)
  = F64.notnull <$> (to_numeric_cell parse_numeric <$> xs).
Proof.
  unfold numeric_column.
  destruct (forallb _ xs) eqn:E; [|reflexivity].
  simpl. rewrite <- !list_fmap_compose. apply list_fmap_ext.
  intros i o Ho. simpl. symmetry. apply to_int_cell_notnull.
  rewrite forallb_forall in E. apply (bool_decide_eq_true_1 _), E, list_elem_of_In.
  eapply list_elem_of_lookup_2, Ho.
Qed.

Lemma numeric_column_length (xs : list (option string)) :
  Series.length (numeric_column parse_numeric xs) = List.length xs.
Proof.
  unfold numeric_column. destruct (forallb _ xs); simpl; apply length_fmap.
Qed.

(** The cleaning, on a frame of raw records, statement by statement. *)
Lemma clean_eval (df : DataFrame) date lat lon pt :
  Frame.wf df ->
  columns df !! "date" = Some (Object date) ->
  columns df !! "latitude" = Some (Object lat) ->
  columns df !! "longitude" = Some (Object lon) ->
  columns df !! "primary_type" = Some (Object pt) ->
  let m := kept_mask lat lon in
  clean parse_numeric parse_datetime df =
  ts ← to_datetime_cells parse_datetime (mask m date);
  h ← dt hour (Datetime64 ts);
  d ← dt dayofweek (Datetime64 ts);
  Ok (mkFrame (mask m (index df))
        (<["IsViolent" := isin_int violent_crimes (Object (mask m pt))]>
         (<["DayOfWeek" := d]>
         (<["Hour" := h]>
         (<["date" := Datetime64 ts]>
         (<["primary_type" := Object (mask m pt)]>
         (<["longitude" := mask_column m (numeric_column parse_numeric lon)]>
         (<["latitude" := mask_column m (numeric_column parse_numeric lat)]> ∅)))))))).
Proof.
  intros Hwf Hdate Hlat Hlon Hpt m.
  rewrite (clean_eval_columns df _ _ _ _ Hdate Hlat Hlon Hpt).
  cbn [to_numeric mbind result_bind]. cbv zeta.
  rewrite !notnull_numeric_column.
  rewrite (zip_with_andb_true
             (F64.notnull <$> (to_numeric_cell parse_numeric <$> lon)))
    by (rewrite !length_fmap; exact (Hwf _ _ Hlon)).
  change (zip_with andb (F64.notnull <$> (to_numeric_cell parse_numeric <$> lat))
            (F64.notnull <$> (to_numeric_cell parse_numeric <$> lon))) with m.
  cbn [mask_column to_datetime].
  destruct (to_datetime_cells parse_datetime (mask m date)) as [ts|e]; reflexivity.
Qed.

End Clean.

(** *** Frames of records *)

Lemma from_records_column (results : list record) k :
  Exists (fun r : record => is_Some (r !! k)) results ->
  columns (from_records results) !! k
  = Some (Object ((fun r : record => r !! k) <$> results)).
Proof.
  intros H. unfold from_records; simpl. rewrite map_lookup_imap.
  rewrite lookup_gset_to_gmap, option_guard_True; [reflexivity|].
  apply Exists_exists in H as (r & Hr & Hk).
  apply elem_of_union_list. exists (dom r). split.
  - apply list_elem_of_fmap. eauto.
  - now apply elem_of_dom.
Qed.

Lemma from_records_no_column (results : list record) k :
  Forall (fun r : record => r !! k = None) results ->
  columns (from_records results) !! k = None.
Proof.
  intros H. unfold from_records; simpl. rewrite map_lookup_imap.
  rewrite lookup_gset_to_gmap, option_guard_False; [reflexivity|].
  intros (X & (r & -> & Hr)%list_elem_of_fmap & Hk)%elem_of_union_list.
  rewrite Forall_forall in H. apply elem_of_dom in Hk as [x Hx].
  rewrite (H r Hr) in Hx. discriminate.
Qed.

Lemma from_records_wf (results : list record) : Frame.wf (from_records results).
Proof.
  intros k c Hc. apply from_records_lookup in Hc as ->.
  unfold Frame.nrows. simpl. now rewrite !length_fmap, length_seq.
Qed.

Lemma mask_filter {A} (f : A -> bool) (l : list A) :
  mask (f <$> l) l = List.filter f l.
Proof.
  induction l as [|x l IH]; [reflexivity|].
  rewrite fmap_cons. simpl. destruct (f x); now rewrite IH.
Qed.

Lemma mask_fmap_filter {A B} (f : A -> bool) (g : A -> B) (l : list A) :
  mask (f <$> l) (g <$> l) = g <$> List.filter f l.
Proof. now rewrite mask_fmap, mask_filter. Qed.

Lemma zip_with_fmap_same {A B C D} (h : B -> C -> D) (f : A -> B) (g : A -> C)
    (l : list A) :
  zip_with h (f <$> l) (g <$> l) = (fun x => h (f x) (g x)) <$> l.
Proof.
  induction l as [|x l IH]; [reflexivity|].
  rewrite !fmap_cons. cbn [zip_with]. now rewrite IH.
Qed.

Ltac in_list :=
  repeat first [ apply list_elem_of_here | apply list_elem_of_further ].

Section Normalize.
Variable parse_numeric : string -> option numeral.
Variable parse_datetime : string -> string -> option Z.

Local Abbreviation kept := (ETL.kept parse_numeric).
Local Abbreviation date_of := (ETL.date_of parse_numeric parse_datetime).
Local Abbreviation normalized := (ETL.normalized parse_numeric).
Local Abbreviation coordinate := (ETL.coordinate parse_numeric).
Local Abbreviation feed_first_date := (ETL.feed_first_date parse_numeric).

Lemma is_violent_column (K : list record) :
  isin_int violent_crimes (Object ((fun r : record => r !! "primary_type") <$> K))
  = Int64 (is_violent <$> K).
Proof. unfold isin_int. now rewrite <- list_fmap_compose. Qed.

Lemma kept_mask_records (results : list record) :
  kept_mask parse_numeric ((fun r : record => r !! "latitude") <$> results)
    ((fun r : record => r !! "longitude") <$> results)
  = kept <$> results.
Proof.
  unfold ETL.kept_mask. rewrite <- !list_fmap_compose.
  rewrite zip_with_fmap_same. reflexivity.
Qed.

Lemma forallb_fmap {A B} (f : B -> bool) (g : A -> B) (l : list A) :
  forallb f (g <$> l) = forallb (fun x => f (g x)) l.
Proof.
  induction l as [|x l IH]; [reflexivity|].
  rewrite fmap_cons. cbn [forallb]. now rewrite IH.
Qed.

(** The coordinate column of the kept records is the parsed column of
    the feed without the dropped rows. *)
Lemma coordinate_column (field : string) (results : list record) :
  mask_column (kept <$> results)
    (numeric_column parse_numeric ((fun r : record => r !! field) <$> results))
  = coordinate field results (List.filter kept results).
Proof.
  unfold numeric_column, ETL.coordinate, all_int.
  rewrite forallb_fmap.
  destruct (forallb _ results); cbn [mask_column];
    rewrite <- !list_fmap_compose, mask_fmap_filter; reflexivity.
Qed.

Lemma coordinate_length (field : string) (results K : list record) :
  Series.length (coordinate field results K) = List.length K.
Proof.
  unfold ETL.coordinate. destruct (all_int _ _ _); simpl; apply length_fmap.
Qed.

Lemma to_datetime_cells_Ok (first : string) (xs : list (option string)) :
  Forall (fun o => forall v, o = Some v -> is_Some (parse_datetime first v)) xs ->
  to_datetime_cells_in parse_datetime first xs
  = Ok ((fun o => o ≫= parse_datetime first) <$> xs).
Proof.
  induction 1 as [|o xs Ho _ IH]; [reflexivity|].
  rewrite fmap_cons. destruct o as [v|]; simpl.
  - destruct (Ho v eq_refl) as [ns Hns]. rewrite Hns, IH. reflexivity.
  - rewrite IH. reflexivity.
Qed.

Lemma to_datetime_cells_Raise (first : string) (xs : list (option string)) :
  Exists (fun o => exists v, o = Some v /\ parse_datetime first v = None) xs ->
  to_datetime_cells_in parse_datetime first xs = Raise ValueError.
Proof.
  induction 1 as [o xs (v & -> & Hv)|o xs _ IH]; simpl.
  - now rewrite Hv.
  - destruct o as [v|]; [destruct (parse_datetime first v)|]; rewrite ?IH; reflexivity.
Qed.

Lemma to_datetime_cells_inv (first : string) (xs : list (option string)) ts :
  to_datetime_cells_in parse_datetime first xs = Ok ts ->
  ts = (fun o => o ≫= parse_datetime first) <$> xs /\
  Forall (fun o => forall v, o = Some v -> is_Some (parse_datetime first v)) xs.
Proof.
  revert ts. induction xs as [|o xs IH]; intros ts; simpl.
  - intros [= <-]. split; [reflexivity | constructor].
  - destruct o as [v|].
    + destruct (parse_datetime first v) as [ns|] eqn:E; [|discriminate].
      destruct (to_datetime_cells_in parse_datetime first xs) as [ts'|] eqn:E';
        [|discriminate].
      intros [= <-]. destruct (IH ts' eq_refl) as [-> HF].
      split; [simpl; now rewrite E|]. constructor; [|exact HF].
      intros v' [= <-]. rewrite E. eauto.
    + destruct (to_datetime_cells_in parse_datetime first xs) as [ts'|] eqn:E';
        [|discriminate].
      intros [= <-]. destruct (IH ts' eq_refl) as [-> HF].
      split; [reflexivity|]. constructor; [|exact HF]. discriminate.
Qed.

Lemma normalize_eval (results : list record) :
  has_raw_columns results ->
  normalize parse_numeric parse_datetime results =
  ts ← to_datetime_cells_in parse_datetime (feed_first_date results)
         ((fun r : record => r !! "date") <$> List.filter kept results);
  h ← dt hour (Datetime64 ts);
  d ← dt dayofweek (Datetime64 ts);
  Ok (normalized results ts h d).
Proof.
  intros H. unfold has_raw_columns in H. rewrite Forall_forall in H. unfold normalize.
  rewrite (clean_eval parse_numeric parse_datetime (from_records results)
             _ _ _ _ (from_records_wf results)
             (from_records_column results "date" (H "date" ltac:(in_list)))
             (from_records_column results "latitude" (H "latitude" ltac:(in_list)))
             (from_records_column results "longitude" (H "longitude" ltac:(in_list)))
             (from_records_column results "primary_type" (H "primary_type" ltac:(in_list)))).
  rewrite kept_mask_records, !coordinate_column.
  rewrite !mask_fmap_filter, is_violent_column. reflexivity.
Qed.

Lemma dt_Datetime64 (f : Z -> Z) (ts : list (option Z)) :
  exists c,
    dt f (Datetime64 ts) = Ok c /\ Series.length c = List.length ts /\
    (Forall is_Some ts -> c = Int64 ((fun o => f (default 0 o)) <$> ts)).
Proof.
  unfold dt. destruct (forallb _ ts) eqn:E.
  - eexists. split; [reflexivity|]. split; [simpl; apply length_fmap | reflexivity].
  - eexists. split; [reflexivity|]. split; [simpl; apply length_fmap|].
    intros H. exfalso. apply not_true_iff_false in E. apply E.
    apply forallb_forall. intros o Ho. apply bool_decide_eq_true.
    rewrite Forall_forall in H. apply H. now apply list_elem_of_In.
Qed.

Lemma missing_column_dec (results : list record) k :
  Exists (fun r : record => is_Some (r !! k)) results \/
  Forall (fun r : record => r !! k = None) results.
Proof.
  induction results as [|r rs [IH|IH]]; [right; constructor | left; now right |].
  destruct (r !! k) as [x|] eqn:E.
  - left. left. rewrite E. eauto.
  - right. now constructor.
Qed.

Lemma first_string_app (xs ys : list (option string)) v :
  Forall (fun o => o = None) xs ->
  first_string (xs ++ Some v :: ys) = v.
Proof.
  unfold first_string. induction 1 as [|o xs -> _ IH]; [reflexivity | exact IH].
Qed.

(** X13. What the normaliser does with a feed: [KeyError] when one of
    the four columns occurs in no record. Otherwise the dates of the
    records that have both coordinates are read in one format, the one
    of the first of these dates: [ValueError] when one of these records
    has a date that is none in that format, also when the string is a
    date on its own, and a frame with one row per record that has both
    coordinates when all these dates are read. A date that is none in
    a record without coordinates is never looked at. *)
Theorem normalize_outcome (results : list record) :
  let parse := parse_datetime (feed_first_date results) in
  (forall K0 r K1 v,
     List.filter kept results = K0 ++ r :: K1 ->
     Forall (fun r' : record => r' !! "date" = None) K0 ->
     r !! "date" = Some v ->
     feed_first_date results = v) /\
  (~ has_raw_columns results ->
   exists c, c ∈ raw_columns /\
     Forall (fun r : record => r !! c = None) results /\
     normalize parse_numeric parse_datetime results = Raise (KeyError c)) /\
  (has_raw_columns results ->
   (Exists (fun r : record => kept r = true /\
              exists v, r !! "date" = Some v /\ parse v = None) results ->
    normalize parse_numeric parse_datetime results = Raise ValueError) /\
   (Forall (fun r : record => kept r = true ->
              forall v, r !! "date" = Some v -> is_Some (parse v)) results ->
    exists nf,
      normalize parse_numeric parse_datetime results = Ok nf /\
      Frame.nrows nf = List.length (List.filter kept results))).
Proof.
  cbv zeta. split; [|split].
  - intros K0 r K1 v HK HK0 Hv. unfold ETL.feed_first_date.
    rewrite HK, fmap_app, fmap_cons, Hv.
    apply first_string_app. apply Forall_fmap. exact HK0.
  - intros Hno. unfold normalize, clean, Frame.select.
    fold raw_columns.
    destruct (List.find _ raw_columns) as [c|] eqn:E.
    + apply find_some in E as [Hin Hc]. apply bool_decide_eq_true in Hc.
      exists c. split; [now apply list_elem_of_In|]. split; [|reflexivity].
      destruct (missing_column_dec results c) as [Hex|Hall]; [|exact Hall].
      rewrite (from_records_column results c Hex) in Hc. discriminate.
    + exfalso. apply Hno. apply Forall_forall. intros k Hk.
      apply list_elem_of_In in Hk.
      pose proof (find_none _ _ E k Hk) as Hn. apply bool_decide_eq_false in Hn.
      destruct (missing_column_dec results k) as [Hex|Hall]; [exact Hex|].
      now rewrite (from_records_no_column results k Hall) in Hn.
  - intros Hhas. rewrite (normalize_eval results Hhas). split.
    + intros Hbad. rewrite to_datetime_cells_Raise; [reflexivity|].
      apply Exists_exists in Hbad as (r & Hr & Hk & v & Hv & Hp).
      apply Exists_exists. exists (r !! "date"). split; [|eauto].
      apply list_elem_of_fmap. exists r. split; [reflexivity|].
      apply list_elem_of_In, filter_In. split; [now apply list_elem_of_In | exact Hk].
    + intros Hgood. rewrite to_datetime_cells_Ok.
      2:{ apply Forall_forall. intros o (r & -> & Hr)%list_elem_of_fmap.
          apply list_elem_of_In, filter_In in Hr as [Hr Hk].
          rewrite Forall_forall in Hgood. apply Hgood; [now apply list_elem_of_In | exact Hk]. }
      cbn [mbind result_bind].
      destruct (dt_Datetime64 hour
                  ((fun o => o ≫= parse_datetime (feed_first_date results)) <$>
                  ((fun r : record => r !! "date") <$> List.filter kept results)))
        as (h & -> & _).
      destruct (dt_Datetime64 dayofweek
                  ((fun o => o ≫= parse_datetime (feed_first_date results)) <$>
                  ((fun r : record => r !! "date") <$> List.filter kept results)))
        as (d & -> & _).
      cbn [mbind result_bind]. eexists. split; [reflexivity|].
      unfold Frame.nrows, ETL.normalized. cbn [index].
      rewrite <- (mask_filter kept results).
      apply mask_length_eq. now rewrite length_fmap, length_seq.
Qed.

(** A feed the normaliser accepts, and the frame it returns. *)
Lemma normalize_inv (results : list record) (nf : DataFrame) :
  normalize parse_numeric parse_datetime results = Ok nf ->
  let K := List.filter kept results in
  has_raw_columns results /\
  Forall (fun r : record => forall v, r !! "date" = Some v ->
            is_Some (parse_datetime (feed_first_date results) v)) K /\
  exists h d,
    dt hour (Datetime64 (date_of results <$> K)) = Ok h /\
    dt dayofweek (Datetime64 (date_of results <$> K)) = Ok d /\
    nf = normalized results (date_of results <$> K) h d.
Proof.
  intros H K.
  assert (has_raw_columns results) as Hhas.
  { apply Forall_forall. intros k Hk.
    destruct (missing_column_dec results k) as [Hex|Hall]; [exact Hex|].
    destruct (clean_columns _ _ _ _ H k Hk) as [x Hx].
    now rewrite (from_records_no_column results k Hall) in Hx. }
  split; [exact Hhas|].
  rewrite (normalize_eval results Hhas) in H.
  apply result_bind_inv in H as (ts & Hts & H).
  apply to_datetime_cells_inv in Hts as [-> Hparse].
  rewrite <- list_fmap_compose in H.
  change ((fun o => o ≫= parse_datetime (feed_first_date results))
            ∘ (fun r : record => r !! "date"))
    with (date_of results) in H.
  apply result_bind_inv in H as (h & Hh & H).
  apply result_bind_inv in H as (d & Hd & H).
  injection H as <-.
  split; [|eauto 6].
  apply Forall_forall. intros r Hr. rewrite Forall_forall in Hparse.
  apply (Hparse (r !! "date")). apply list_elem_of_fmap. eauto.
Qed.

Lemma mask_sublist_self {A} (m : list bool) (l : list A) : sublist (mask m l) l.
Proof.
  revert l. induction m as [|b m IH]; intros [|x l]; simpl;
    [constructor | apply sublist_nil_l | destruct b; constructor |].
  destruct b; constructor; apply IH.
Qed.

Lemma kept_rows_length (results : list record) :
  List.length (mask (kept <$> results) (Z.of_nat <$> seq 0 (List.length results)))
  = List.length (List.filter kept results).
Proof.
  rewrite <- (mask_filter kept results).
  apply mask_length_eq. now rewrite length_fmap, length_seq.
Qed.

(** The frame the normaliser returns has one value per row in every
    column, and one row per record kept. *)
Lemma normalize_rows (results : list record) (nf : DataFrame) :
  normalize parse_numeric parse_datetime results = Ok nf ->
  Frame.wf nf /\ Frame.nrows nf = List.length (List.filter kept results).
Proof.
  intros (_ & _ & h & d & Hh & Hd & ->)%normalize_inv.
  destruct (dt_Datetime64 hour (date_of results <$> List.filter kept results))
    as (h' & Hh' & Lh & _).
  destruct (dt_Datetime64 dayofweek (date_of results <$> List.filter kept results))
    as (d' & Hd' & Ld & _).
  rewrite Hh in Hh'. injection Hh' as <-. rewrite Hd in Hd'. injection Hd' as <-.
  rewrite length_fmap in Lh, Ld.
  split; [|apply kept_rows_length].
  intros c col Hc. unfold Frame.nrows, ETL.normalized in *. cbn [columns index] in *.
  rewrite kept_rows_length.
  repeat (apply lookup_insert_Some in Hc as [[_ <-]|[_ Hc]];
          [first [exact Lh | exact Ld | apply coordinate_length
                 | simpl; now rewrite length_fmap]|]).
  now rewrite lookup_empty in Hc.
Qed.

(** X14. The frame the normaliser returns has the seven columns, one
    value per row in each; its rows are in the order of the feed and
    keep the positions in the feed as their index labels. *)
Theorem normalize_shape (results : list record) (nf : DataFrame) :
  normalize parse_numeric parse_datetime results = Ok nf ->
  dom (columns nf)
    = list_to_set ["date"; "latitude"; "longitude"; "primary_type";
                   "Hour"; "DayOfWeek"; "IsViolent"] /\
  Frame.wf nf /\
  Frame.nrows nf = List.length (List.filter kept results) /\
  sublist (index nf) (Z.of_nat <$> seq 0 (List.length results)).
Proof.
  intros (_ & _ & h & d & Hh & Hd & ->)%normalize_inv.
  destruct (dt_Datetime64 hour (date_of results <$> List.filter kept results))
    as (h' & Hh' & Lh & _).
  destruct (dt_Datetime64 dayofweek (date_of results <$> List.filter kept results))
    as (d' & Hd' & Ld & _).
  rewrite Hh in Hh'. injection Hh' as <-. rewrite Hd in Hd'. injection Hd' as <-.
  rewrite length_fmap in Lh, Ld.
  split; [|split; [|split]].
  - unfold ETL.normalized. cbn [columns]. rewrite !dom_insert_L, dom_empty_L.
    cbn [list_to_set]. apply set_eq. intros c.
    rewrite !elem_of_union, !elem_of_singleton, elem_of_empty. tauto.
  - intros c col Hc. unfold Frame.nrows, ETL.normalized in *. cbn [columns index] in *.
    rewrite kept_rows_length.
    repeat (apply lookup_insert_Some in Hc as [[_ <-]|[_ Hc]];
            [first [exact Lh | exact Ld | apply coordinate_length
                   | simpl; now rewrite length_fmap]|]).
    now rewrite lookup_empty in Hc.
  - apply kept_rows_length.
  - apply mask_sublist_self.
Qed.

(** The [j]-th record that is kept, and where it is in the feed. *)
Lemma kept_row (results : list record) j r :
  List.filter kept results !! j = Some r ->
  exists i,
    results !! i = Some r /\ kept r = true /\
    mask (kept <$> results) (Z.of_nat <$> seq 0 (List.length results)) !! j
    = Some (Z.of_nat i).
Proof.
  intros H. rewrite <- mask_filter, mask_lookup in H.
  destruct (nth_true (kept <$> results) j) as [i|] eqn:E; [simpl in H|discriminate].
  exists i. split; [exact H|]. split.
  - apply nth_true_lookup in E. rewrite list_lookup_fmap, H in E. now injection E.
  - rewrite mask_lookup, E. simpl.
    rewrite list_lookup_fmap, lookup_seq_lt; [reflexivity|].
    now apply lookup_lt_Some in H.
Qed.

Lemma hour_range (ns : Z) : 0 <= hour ns <= 23.
Proof. unfold hour. pose proof (Z.mod_pos_bound (ns / ns_per_hour) 24). lia. Qed.

Lemma dayofweek_range (ns : Z) : 0 <= dayofweek ns <= 6.
Proof. unfold dayofweek. pose proof (Z.mod_pos_bound (ns / ns_per_day + 3) 7). lia. Qed.

(** The hour and the weekday of a timestamp: with [day] whole days
    since 1970-01-01, a Thursday, the hour is the number of whole hours
    into the day and the weekday is [day + 3] modulo 7, Monday being 0. *)
Lemma hour_dayofweek_spec (ns : Z) :
  exists day rest,
    ns = (day * 24 + hour ns) * 3600000000000 + rest /\
    0 <= rest < 3600000000000 /\
    dayofweek ns = (day + 3) mod 7.
Proof.
  exists (ns / 86400000000000), (ns mod 3600000000000).
  unfold hour, dayofweek, ns_per_day, ns_per_hour.
  change (3600 * 1000000000) with 3600000000000.
  change (24 * 3600000000000) with 86400000000000.
  pose proof (Z.mod_pos_bound ns 3600000000000 ltac:(lia)) as Hr.
  pose proof (Z.div_mod ns 3600000000000 ltac:(lia)) as Hq.
  pose proof (Z.div_mod (ns / 3600000000000) 24 ltac:(lia)) as Hd.
  assert (ns / 3600000000000 / 24 = ns / 86400000000000) as Hdd
    by (rewrite Z.div_div by lia; reflexivity).
  rewrite Hdd in Hd. split; [lia|]. split; [lia | reflexivity].
Qed.

(** X15. The date of every row is the date of its record, read in the
    format of the feed, and Hour and DayOfWeek are the hour and the
    weekday of that date: for a timestamp of [ns] nanoseconds since
    1970-01-01, a Thursday, and [day] whole days since then, Hour is
    the number of whole hours into the day (0 to 23) and DayOfWeek is
    [day + 3] modulo 7 (Monday 0 to Sunday 6). They are integers when
    every kept record has a date, float64 otherwise. *)
Theorem normalize_time_features (results : list record) (nf : DataFrame) :
  normalize parse_numeric parse_datetime results = Ok nf ->
  let K := List.filter kept results in
  forall j r, K !! j = Some r ->
    frame_cell nf "date" j = Some (from_option Timestamp Missing (date_of results r)) /\
    forall v, r !! "date" = Some v ->
      exists ns hr wd,
        parse_datetime (feed_first_date results) v = Some ns /\
        frame_cell nf "date" j = Some (Timestamp ns) /\
        (exists day rest,
           ns = (day * 24 + hr) * 3600000000000 + rest /\
           0 <= rest < 3600000000000 /\
           0 <= hr <= 23 /\
           wd = (day + 3) mod 7) /\
        hr = hour ns /\ wd = dayofweek ns /\
        (Forall (fun r : record => is_Some (r !! "date")) K ->
         frame_cell nf "Hour" j = Some (Int hr) /\
         frame_cell nf "DayOfWeek" j = Some (Int wd)) /\
        (~ Forall (fun r : record => is_Some (r !! "date")) K ->
         frame_cell nf "Hour" j = Some (Flt (F64.of_int hr)) /\
         frame_cell nf "DayOfWeek" j = Some (Flt (F64.of_int wd))).
Proof.
  intros (_ & Hparse & h & d & Hh & Hd & ->)%normalize_inv K j r Hr.
  subst K. set (K := List.filter kept results) in *.
  assert (frame_cell (normalized results (date_of results <$> K) h d) "date" j
          = Some (from_option Timestamp Missing (date_of results r))) as Hdate.
  { unfold frame_cell, ETL.normalized. cbn [columns].
    repeat lookup_insert_step. simpl.
    now rewrite !list_lookup_fmap, Hr. }
  split; [exact Hdate|]. intros v Hv.
  rewrite Forall_forall in Hparse.
  destruct (Hparse r (list_elem_of_lookup_2 _ _ _ Hr) v Hv) as [ns Hns].
  assert (date_of results r = Some ns) as Hd_r by (unfold ETL.date_of; now rewrite Hv).
  exists ns, (hour ns), (dayofweek ns).
  split; [exact Hns|]. split; [now rewrite Hdate, Hd_r|].
  split.
  { destruct (hour_dayofweek_spec ns) as (day & rest & H1 & H2 & H3).
    exists day, rest. split; [exact H1|]. split; [exact H2|].
    split; [apply hour_range | exact H3]. }
  split; [reflexivity|]. split; [reflexivity|].
  assert (forallb (fun o : option Z => bool_decide (is_Some o)) (date_of results <$> K) = true
          <-> Forall (fun r : record => is_Some (r !! "date")) K) as Hall.
  { rewrite forallb_forall, Forall_forall. split.
    - intros H r' Hr'.
      assert (is_Some (date_of results r')) as [x Hx].
      { eapply bool_decide_eq_true, H, list_elem_of_In, list_elem_of_fmap. eauto. }
      unfold ETL.date_of in Hx. destruct (r' !! "date"); [eauto | discriminate].
    - intros H o (r' & -> & Hr')%list_elem_of_In%list_elem_of_fmap.
      apply bool_decide_eq_true. destruct (H r' Hr') as [v' Hv'].
      destruct (Hparse r' Hr' v' Hv') as [ns' Hns'].
      unfold ETL.date_of. rewrite Hv'. simpl. eauto. }
  unfold dt in Hh, Hd. unfold frame_cell, ETL.normalized. cbn [columns].
  destruct (forallb _ (date_of results <$> K)) eqn:E.
  - injection Hh as <-. injection Hd as <-. split.
    + intros _. repeat lookup_insert_step. simpl.
      now rewrite !list_lookup_fmap, Hr; simpl; rewrite Hd_r.
    + intros Hn. exfalso. apply Hn, Hall. reflexivity.
  - injection Hh as <-. injection Hd as <-. split.
    + intros Hy. apply Hall in Hy. discriminate.
    + intros _. repeat lookup_insert_step. simpl.
      now rewrite !list_lookup_fmap, Hr; simpl; rewrite Hd_r.
Qed.

(** X16. IsViolent is 1 for a record whose primary_type is one of the
    five violent types, and 0 for every other record, one without a
    type included; each row carries the type and the position of its
    record. *)
Theorem normalize_is_violent (results : list record) (nf : DataFrame) :
  normalize parse_numeric parse_datetime results = Ok nf ->
  forall j r, List.filter kept results !! j = Some r ->
    (exists i, results !! i = Some r /\ index nf !! j = Some (Z.of_nat i)) /\
    frame_cell nf "primary_type" j
      = Some (from_option Str Missing (r !! "primary_type")) /\
    frame_cell nf "IsViolent" j = Some (Int (is_violent r)) /\
    (is_violent r = 1 <->
     exists t, r !! "primary_type" = Some t /\ t ∈ violent_crimes) /\
    (is_violent r = 0 \/ is_violent r = 1).
Proof.
  intros (_ & _ & h & d & _ & _ & ->)%normalize_inv j r Hr.
  split.
  { destruct (kept_row results j r Hr) as (i & Hi & _ & Hidx). eauto. }
  unfold frame_cell, ETL.normalized. cbn [columns].
  split; [|split].
  - repeat lookup_insert_step. simpl. now rewrite !list_lookup_fmap, Hr.
  - repeat lookup_insert_step. simpl. now rewrite !list_lookup_fmap, Hr.
  - unfold is_violent. destruct (r !! "primary_type") as [t|].
    + destruct (bool_decide (t ∈ violent_crimes)) eqn:E.
      * apply bool_decide_eq_true in E. split; [|now right].
        split; [eauto | reflexivity].
      * apply bool_decide_eq_false in E. split; [|now left].
        split; [discriminate|]. intros (t' & [= <-] & Ht). contradiction.
    + split; [|now left]. split; [discriminate|]. intros (t & [=] & _).
Qed.

(** *** The coordinates of the rows *)

(** The cell of a coordinate column at a kept record: the integer of
    the record's literal in an int64 column, its float64 value in a
    float64 column. *)
Lemma coordinate_cell (field : string) (results : list record) j r :
  List.filter kept results !! j = Some r ->
  F64.notnull (float_of parse_numeric field r) = true ->
  exists n,
    r !! field ≫= parse_numeric = Some n /\
    F64.notnull (numeral_float n) = true /\
    (all_int parse_numeric field results = true ->
     exists z, n = Integer z /\
       Series.cell (coordinate field results (List.filter kept results)) j
       = Some (Int z)) /\
    (all_int parse_numeric field results = false ->
     Series.cell (coordinate field results (List.filter kept results)) j
     = Some (Flt (numeral_float n))).
Proof.
  intros Hr Hn. unfold float_of, to_numeric_cell in Hn.
  destruct (r !! field ≫= parse_numeric) as [n|] eqn:E; [|discriminate Hn].
  simpl in Hn. exists n. split; [reflexivity|]. split; [exact Hn|].
  unfold ETL.coordinate. split; intros Hall; rewrite Hall; simpl.
  - unfold all_int in Hall. rewrite forallb_forall in Hall.
    assert (In r results) as Hin.
    { apply list_elem_of_lookup_2, list_elem_of_In, filter_In in Hr. tauto. }
    apply Hall, (bool_decide_eq_true_1 _) in Hin as [z Hz].
    unfold to_int_cell in Hz. rewrite E in Hz. simpl in Hz.
    destruct n as [z'|f]; [|discriminate Hz]. injection Hz as ->.
    exists z. split; [reflexivity|].
    rewrite list_lookup_fmap, Hr. simpl.
    unfold int_of, to_int_cell. now rewrite E.
  - rewrite list_lookup_fmap, Hr. simpl.
    unfold float_of, to_numeric_cell. now rewrite E.
Qed.

(** C8. What the normaliser does with coordinates, and with a feed
    without records. A record stays exactly when both its coordinates
    are present and are numbers, so one whose latitude or longitude is
    missing or is no number is dropped, never filled in; every row of
    the output is one of the input records (the one its index label
    names) and holds the numbers read from that record's own latitude
    and longitude, as integers in an int64 column (every literal of the
    feed an integer) and as float64 values otherwise.
    The feed without records, which the extraction cell falls back to
    when the request fails, makes a frame without columns, and the
    normaliser raises [KeyError] on it, where it returns a frame without
    rows for a table that has the four columns and no row and for a
    feed all of whose records are dropped. *)
Theorem normalize_coordinates (results : list record) :
  (forall nf, normalize parse_numeric parse_datetime results = Ok nf ->
     let K := List.filter kept results in
     Frame.nrows nf = List.length K /\
     Frame.wf nf /\
     (forall i r, results !! i = Some r ->
        (Z.of_nat i ∈ index nf <->
         exists la lo,
           r !! "latitude" ≫= parse_numeric = Some la /\
           r !! "longitude" ≫= parse_numeric = Some lo /\
           F64.notnull (numeral_float la) = true /\
           F64.notnull (numeral_float lo) = true)) /\
     (forall j k, index nf !! j = Some k ->
        exists i r la lo,
          k = Z.of_nat i /\ results !! i = Some r /\ K !! j = Some r /\
          r !! "latitude" ≫= parse_numeric = Some la /\
          r !! "longitude" ≫= parse_numeric = Some lo /\
          F64.notnull (numeral_float la) = true /\
          F64.notnull (numeral_float lo) = true /\
          (frame_cell nf "latitude" j = Some (Flt (numeral_float la)) \/
           exists z, la = Integer z /\ frame_cell nf "latitude" j = Some (Int z)) /\
          (frame_cell nf "longitude" j = Some (Flt (numeral_float lo)) \/
           exists z, lo = Integer z /\ frame_cell nf "longitude" j = Some (Int z)))) /\
  normalize parse_numeric parse_datetime [] = Raise (KeyError "date") /\
  columns (from_records []) = ∅ /\
  (exists out,
     clean parse_numeric parse_datetime Examples.empty_raw_frame = Ok out /\
     index out = [] /\ Frame.wf out /\
     dom (columns out)
       = list_to_set ["date"; "latitude"; "longitude"; "primary_type";
                      "Hour"; "DayOfWeek"; "IsViolent"]) /\
  (List.filter kept results = [] -> has_raw_columns results ->
   exists nf, normalize parse_numeric parse_datetime results = Ok nf /\
              index nf = []).
Proof.
  split; [|split; [|split; [|split]]].
  - intros nf Hrun K.
    pose proof (normalize_rows results nf Hrun) as (Hwf & Hn).
    split; [exact Hn|]. split; [exact Hwf|].
    apply normalize_inv in Hrun as (_ & _ & h & d & _ & _ & ->).
    assert (forall r, kept r = true <->
              exists la lo,
                r !! "latitude" ≫= parse_numeric = Some la /\
                r !! "longitude" ≫= parse_numeric = Some lo /\
                F64.notnull (numeral_float la) = true /\
                F64.notnull (numeral_float lo) = true) as Hkept.
    { intros r. unfold ETL.kept, to_numeric_cell. rewrite andb_true_iff. split.
      - intros [H1 H2].
        destruct (r !! "latitude" ≫= parse_numeric) as [la|]; [|discriminate H1].
        destruct (r !! "longitude" ≫= parse_numeric) as [lo|]; [|discriminate H2].
        exists la, lo. auto.
      - intros (la & lo & -> & -> & H1 & H2). auto. }
    split.
    + intros i r Hr. rewrite <- Hkept. unfold ETL.normalized. cbn [index].
      rewrite elem_of_mask. split.
      * intros (i' & Hi' & Hm).
        apply list_lookup_fmap_Some in Hi' as (i'' & Heq & Hi'').
        apply lookup_seq in Hi'' as [-> _]. simpl in Heq.
        apply Nat2Z.inj in Heq as <-.
        rewrite list_lookup_fmap, Hr in Hm. now injection Hm.
      * intros Hk. exists i. split.
        -- rewrite list_lookup_fmap, lookup_seq_lt; [reflexivity|].
           now apply lookup_lt_Some in Hr.
        -- now rewrite list_lookup_fmap, Hr, <- Hk.
    + intros j k Hk.
      assert (is_Some (K !! j)) as [r Hr].
      { apply lookup_lt_is_Some_2. apply lookup_lt_Some in Hk.
        unfold ETL.normalized in Hk. cbn [index] in Hk.
        now rewrite kept_rows_length in Hk. }
      destruct (kept_row results j r Hr) as (i & Hi & Hkr & Hidx).
      unfold ETL.normalized in Hk. cbn [index] in Hk.
      rewrite Hidx in Hk. injection Hk as <-.
      pose proof Hkr as [H1 H2]%andb_true_iff.
      destruct (coordinate_cell "latitude" results j r Hr H1)
        as (la & Hla & Nla & Ila & Fla).
      destruct (coordinate_cell "longitude" results j r Hr H2)
        as (lo & Hlo & Nlo & Ilo & Flo).
      exists i, r, la, lo. do 7 (split; [first [reflexivity | assumption]|]).
      unfold frame_cell, ETL.normalized. cbn [columns].
      split.
      * repeat lookup_insert_step. cbn [mbind option_bind].
        destruct (all_int parse_numeric "latitude" results) eqn:E.
        -- right. destruct (Ila eq_refl) as (z & -> & Hz). eauto.
        -- left. exact (Fla eq_refl).
      * repeat lookup_insert_step. cbn [mbind option_bind].
        destruct (all_int parse_numeric "longitude" results) eqn:E.
        -- right. destruct (Ilo eq_refl) as (z & -> & Hz). eauto.
        -- left. exact (Flo eq_refl).
  - reflexivity.
  - reflexivity.
  - eexists. split; [vm_compute; reflexivity|].
    split; [reflexivity|]. split.
    + apply (bool_decide_unpack _). vm_compute. exact I.
    + vm_compute. reflexivity.
  - intros HK Hhas. rewrite (normalize_eval results Hhas), HK.
    cbn [fmap list_fmap to_datetime_cells_in mbind result_bind dt forallb].
    eexists. split; [reflexivity|].
    unfold ETL.normalized. cbn [index].
    apply length_zero_iff_nil. now rewrite kept_rows_length, HK.
Qed.

End Normalize.

(** *** The cleaning cell run again *)

Section Rerun.
Variable parse_numeric : string -> option numeral.
Variable parse_datetime : string -> string -> option Z.

Lemma kept_filter_notnull (results : list record) (f : record -> float) :
  (forall r, kept parse_numeric r = true -> F64.notnull (f r) = true) ->
  Forall (fun b => b = true)
    (F64.notnull <$> (f <$> List.filter (kept parse_numeric) results)).
Proof.
  intros H. apply Forall_forall. intros b Hb.
  apply list_elem_of_fmap in Hb as (x & -> & Hx).
  apply list_elem_of_fmap in Hx as (r & -> & Hr).
  apply list_elem_of_In, filter_In in Hr as [_ Hr]. now apply H.
Qed.

Lemma Forall_true_zip_with_andb (a b : list bool) :
  Forall (fun x => x = true) a -> Forall (fun x => x = true) b ->
  Forall (fun x => x = true) (zip_with andb a b).
Proof.
  intros Ha. revert b. induction Ha as [|x a -> _ IH]; intros b Hb; [constructor|].
  destruct Hb as [|y b -> Hb]; [constructor|]. simpl. constructor; auto.
Qed.

(** No cell of a coordinate column of the kept records is missing. *)
Lemma coordinate_notnull (field : string) (results : list record) :
  (forall r, kept parse_numeric r = true ->
             F64.notnull (float_of parse_numeric field r) = true) ->
  Forall (fun b => b = true)
    (notnull (coordinate parse_numeric field results
                (List.filter (kept parse_numeric) results))).
Proof.
  intros H. unfold coordinate. destruct (all_int _ _ _); simpl.
  - apply Forall_fmap, Forall_forall. reflexivity.
  - now apply kept_filter_notnull.
Qed.

Lemma to_numeric_coordinate (field : string) (results K : list record) :
  to_numeric parse_numeric (coordinate parse_numeric field results K)
  = Ok (coordinate parse_numeric field results K).
Proof. unfold coordinate. destruct (all_int _ _ _); reflexivity. Qed.

(** X17. Running the cleaning cell again, on the frame the normaliser
    returned, returns that same frame. *)
Theorem clean_rerun (results : list record) (nf : DataFrame) :
  normalize parse_numeric parse_datetime results = Ok nf ->
  clean parse_numeric parse_datetime nf = Ok nf.
Proof.
  intros H.
  apply normalize_inv in H as (_ & _ & h & d & Hh & Hd & ->).
  set (K := List.filter (kept parse_numeric) results) in *.
  set (ts := date_of parse_numeric parse_datetime results <$> K) in *.
  set (nf := normalized parse_numeric results ts h d) in *.
  assert (Frame.nrows nf = List.length K) as Hn
    by apply (kept_rows_length parse_numeric results).
  rewrite (clean_eval_columns parse_numeric parse_datetime nf
             (Datetime64 ts)
             (coordinate parse_numeric "latitude" results K)
             (coordinate parse_numeric "longitude" results K)
             (Object ((fun r : record => r !! "primary_type") <$> K)))
    by reflexivity.
  rewrite !to_numeric_coordinate.
  cbn [mbind result_bind]. cbv zeta.
  set (m := zip_with andb _ _).
  assert (Forall (fun b => b = true) m) as Hm.
  { unfold m. apply Forall_true_zip_with_andb; [|apply Forall_true_zip_with_andb].
    - apply coordinate_notnull. intros r Hr. unfold ETL.kept in Hr.
      now apply andb_true_iff in Hr as [? _].
    - apply coordinate_notnull. intros r Hr. unfold ETL.kept in Hr.
      now apply andb_true_iff in Hr as [_ ?].
    - apply Forall_forall. intros b Hb. now apply elem_of_replicate in Hb as [-> _]. }
  assert (forall c, List.length (notnull c) = Series.length c) as Lnn.
  { intros [xs|xs|xs|xs]; simpl; apply length_fmap. }
  assert (List.length m = List.length K) as Hlm.
  { unfold m. rewrite !length_zip_with, !Lnn, !coordinate_length, length_replicate, Hn.
    lia. }
  rewrite !mask_column_all_true
    by (try exact Hm; rewrite Hlm; symmetry;
        first [apply coordinate_length | unfold ts; simpl; now rewrite ?length_fmap]).
  cbn [to_datetime mbind result_bind]. rewrite Hh. cbn [mbind result_bind].
  rewrite Hd. cbn [mbind result_bind].
  rewrite mask_all_true; [|exact Hm|].
  2:{ rewrite Hlm, <- Hn. reflexivity. }
  rewrite is_violent_column. reflexivity.
Qed.

End Rerun.

Ltac has_columns :=
  unfold has_raw_columns, raw_columns;
  repeat (constructor; [apply Exists_cons_hd; eexists; reflexivity|]);
  constructor.

Lemma normalize_outcome_witness :
  normalize Examples.parse_numeric_sample Examples.parse_datetime_sample Examples.bad_date_records = Raise ValueError /\
  normalize Examples.parse_numeric_sample Examples.parse_datetime_sample Examples.mixed_format_records = Raise ValueError /\
  exists nf,
    normalize Examples.parse_numeric_sample Examples.parse_datetime_sample Examples.bad_date_dropped_records = Ok nf /\
    Frame.nrows nf = 1%nat.
Proof.
  split; [|split].
  - destruct (normalize_outcome Examples.parse_numeric_sample Examples.parse_datetime_sample Examples.bad_date_records) as (_ & _ & H).
    destruct H as [H _]; [has_columns|].
    apply H. apply Exists_cons_hd. split; [reflexivity|].
    eexists. split; reflexivity.
  - destruct (normalize_outcome Examples.parse_numeric_sample Examples.parse_datetime_sample Examples.mixed_format_records) as (_ & _ & H).
    destruct H as [H _]; [has_columns|].
    apply H. apply Exists_cons_tl, Exists_cons_hd. split; [reflexivity|].
    eexists. split; reflexivity.
  - destruct (normalize_outcome Examples.parse_numeric_sample Examples.parse_datetime_sample Examples.bad_date_dropped_records) as (_ & _ & H).
    destruct H as [_ H]; [has_columns|].
    destruct H as (nf & H1 & H2).
    + constructor; [intros Hk; vm_compute in Hk; discriminate Hk|].
      constructor; [|constructor].
      intros _ v Hv. vm_compute in Hv. injection Hv as <-.
      eexists. reflexivity.
    + exists nf. split; [exact H1|]. rewrite H2. reflexivity.
Defined.

Lemma normalize_shape_witness :
  exists nf,
    normalize Examples.parse_numeric_sample Examples.parse_datetime_sample Examples.raw_records = Ok nf /\
    Frame.wf nf /\ Frame.nrows nf = 1%nat.
Proof.
  destruct (normalize Examples.parse_numeric_sample Examples.parse_datetime_sample Examples.raw_records) as [nf | e] eqn:Hrun;
    [| vm_compute in Hrun; discriminate Hrun].
  destruct (normalize_shape Examples.parse_numeric_sample Examples.parse_datetime_sample Examples.raw_records nf Hrun) as (_ & Hwf & Hn & _).
  exists nf. split; [reflexivity|]. split; [exact Hwf|]. rewrite Hn. reflexivity.
Defined.

Lemma normalize_time_features_witness :
  exists nf,
    normalize Examples.parse_numeric_sample Examples.parse_datetime_sample Examples.weekday_records = Ok nf /\
    frame_cell nf "Hour" 0 = Some (Int 13) /\
    frame_cell nf "DayOfWeek" 0 = Some (Int 2).
Proof.
  destruct (normalize Examples.parse_numeric_sample Examples.parse_datetime_sample Examples.weekday_records) as [nf | e] eqn:Hrun;
    [| vm_compute in Hrun; discriminate Hrun].
  destruct (normalize_time_features Examples.parse_numeric_sample Examples.parse_datetime_sample Examples.weekday_records nf Hrun 0%nat _ eq_refl)
    as [_ H].
  destruct (H "2024-09-04T13:30:00.000" eq_refl)
    as (ns & hr & wd & Hns & _ & _ & -> & -> & Hall & _).
  vm_compute in Hns. injection Hns as <-.
  destruct Hall as [Hh Hd].
  { constructor; [eexists; reflexivity | constructor]. }
  exists nf. split; [reflexivity|]. rewrite Hh, Hd. split; reflexivity.
Defined.

Lemma normalize_is_violent_witness :
  exists nf,
    normalize Examples.parse_numeric_sample Examples.parse_datetime_sample Examples.raw_records = Ok nf /\
    index nf !! 0%nat = Some 0 /\
    frame_cell nf "primary_type" 0 = Some (Str "THEFT") /\
    frame_cell nf "IsViolent" 0 = Some (Int 0).
Proof.
  destruct (normalize Examples.parse_numeric_sample Examples.parse_datetime_sample Examples.raw_records) as [nf | e] eqn:Hrun;
    [| vm_compute in Hrun; discriminate Hrun].
  destruct (normalize_is_violent Examples.parse_numeric_sample Examples.parse_datetime_sample Examples.raw_records nf Hrun 0%nat _ eq_refl)
    as ((i & Hi & Hidx) & Ht & Hv & _).
  exists nf. split; [reflexivity|].
  split; [|split; [exact Ht | exact Hv]].
  destruct i as [|[|[|i]]]; try discriminate Hi. exact Hidx.
Defined.

Lemma clean_rerun_witness :
  exists nf,
    normalize Examples.parse_numeric_sample Examples.parse_datetime_sample Examples.raw_records = Ok nf /\
    clean Examples.parse_numeric_sample Examples.parse_datetime_sample nf = Ok nf.
Proof.
  destruct (normalize Examples.parse_numeric_sample Examples.parse_datetime_sample Examples.raw_records) as [nf | e] eqn:Hrun;
    [| vm_compute in Hrun; discriminate Hrun].
  exists nf. split; [reflexivity|].
  exact (clean_rerun Examples.parse_numeric_sample Examples.parse_datetime_sample Examples.raw_records nf Hrun).
Defined.

Lemma normalize_coordinates_witness :
  (exists nf,
     normalize Examples.parse_numeric_sample Examples.parse_datetime_sample Examples.raw_records = Ok nf /\
     index nf = [0] /\
     frame_cell nf "latitude" 0 = Some (Flt 41.5%float)) /\
  (exists nf,
     normalize Examples.parse_numeric_sample Examples.parse_datetime_sample Examples.integer_records = Ok nf /\
     frame_cell nf "latitude" 2 = Some (Int (-87))) /\
  normalize Examples.parse_numeric_sample Examples.parse_datetime_sample [] = Raise (KeyError "date") /\
  (exists nf, normalize Examples.parse_numeric_sample Examples.parse_datetime_sample Examples.all_dropped_records = Ok nf /\ index nf = []).
Proof.
  split; [|split; [|split]].
  - destruct (normalize Examples.parse_numeric_sample Examples.parse_datetime_sample Examples.raw_records) as [nf | e] eqn:Hrun;
      [| vm_compute in Hrun; discriminate Hrun].
    destruct (normalize_coordinates Examples.parse_numeric_sample Examples.parse_datetime_sample Examples.raw_records) as (H & _).
    destruct (H nf Hrun) as (_ & _ & _ & _).
    exists nf. split; [reflexivity|].
    vm_compute in Hrun. injection Hrun as <-. split; reflexivity.
  - destruct (normalize Examples.parse_numeric_sample Examples.parse_datetime_sample Examples.integer_records) as [nf | e] eqn:Hrun;
      [| vm_compute in Hrun; discriminate Hrun].
    exists nf. split; [reflexivity|].
    vm_compute in Hrun. injection Hrun as <-. reflexivity.
  - apply (normalize_coordinates Examples.parse_numeric_sample Examples.parse_datetime_sample []).
  - destruct (normalize_coordinates Examples.parse_numeric_sample Examples.parse_datetime_sample Examples.all_dropped_records)
      as (_ & _ & _ & _ & H).
    apply H; [reflexivity | has_columns].
Defined.

End FeedFacts.

(** ** Locations and totals of the aggregation *)

Module LocationFacts.
Import Series FrameOps ETL MaskFacts AggregateFacts RowFacts FeedFacts.

Lemma zip_fst_snd_fmap {A B} (l : list (A * B)) : zip (fst <$> l) (snd <$> l) = l.
Proof.
  induction l as [|[a b] l IH]; [reflexivity|].
  rewrite !fmap_cons. cbn [zip_with]. now rewrite IH.
Qed.

Lemma isin_int_indicator (pt : list (option string)) :
  exists viol,
    isin_int violent_crimes (Object pt) = Int64 viol /\
    List.length viol = List.length pt /\
    Forall (fun v => v = 0 \/ v = 1) viol.
Proof.
  eexists. split; [reflexivity|]. split; [apply length_fmap|].
  apply Forall_fmap, Forall_forall. intros [t|] _; simpl; [|now left].
  case_bool_decide; auto.
Qed.

(** X18. The aggregation loses nothing and counts nothing twice: on
    a frame whose IsViolent column is the 0/1 indicator the cleaning
    cell makes, the CrimeCounts of all rows add up to the number of
    incidents that have a location and a primary_type, the
    ViolentCounts to the number of those of a violent type; neither
    total is above the number of input rows. *)
Theorem aggregate_totals (df : DataFrame) lat lon (pt : list (option string)) :
  columns df !! "latitude" = Some (Float64 lat) ->
  columns df !! "longitude" = Some (Float64 lon) ->
  columns df !! "primary_type" = Some (Object pt) ->
  columns df !! "IsViolent" = Some (isin_int violent_crimes (Object pt)) ->
  exists lc cc vc viol,
    isin_int violent_crimes (Object pt) = Int64 viol /\
    Forall (fun v => v = 0 \/ v = 1) viol /\
    aggregate df = Ok lc /\
    columns lc !! "CrimeCount" = Some (Int64 cc) /\
    columns lc !! "ViolentCount" = Some (Int64 vc) /\
    let rows := incidents lat lon (notnull (Object pt)) viol in
    foldr Z.add 0 cc = count rows /\
    foldr Z.add 0 vc = sum rows /\
    0 <= sum rows <= count rows /\
    count rows <= Z.of_nat (List.length lat).
Proof.
  intros Hlat Hlon Hpt Hviol.
  destruct (isin_int_indicator pt) as (viol & Eviol & _ & H01).
  rewrite Eviol in Hviol.
  set (rows := incidents lat lon (notnull (Object pt)) viol).
  exists (aggregate_by lat lon (notnull (Object pt)) viol),
    ((fun k => count (group k rows)) <$> sorted_keys lat lon rows),
    ((fun k => sum (group k rows)) <$> sorted_keys lat lon rows), viol.
  split; [exact Eviol|]. split; [exact H01|].
  split; [unfold aggregate, Frame.getitem; now rewrite Hlat, Hlon, Hpt, Hviol|].
  split; [reflexivity|]. split; [reflexivity|].
  cbv zeta.
  destruct (aggregate_by_totals float_coord_laws float_coord_laws lat lon
              (notnull (Object pt)) viol) as [Hc Hs].
  split; [exact Hc|]. split; [exact Hs|]. split.
  - apply sum_le_count, incidents_indicator. now rewrite Eviol.
  - etransitivity; [apply count_le_length|]. apply inj_le, incidents_length.
Qed.

(** X19. One row per location: the aggregate has the default index
    and the four columns; every input row that has a location is at the
    location of exactly one aggregate row, and every aggregate row is at
    the location of an input row. The latitude of an aggregate row is
    the first cell of the latitude column that is equal to it as a
    number, and so is its longitude in the longitude column. Without an
    input row that has a location the aggregate is empty. *)
Theorem aggregate_locations (df : DataFrame) lat lon pt viol :
  Frame.wf df ->
  columns df !! "latitude" = Some (Float64 lat) ->
  columns df !! "longitude" = Some (Float64 lon) ->
  columns df !! "primary_type" = Some pt ->
  columns df !! "IsViolent" = Some (Int64 viol) ->
  exists lc keys,
    aggregate df = Ok lc /\
    index lc = range_index (List.length keys) /\
    dom (columns lc)
      = list_to_set ["latitude"; "longitude"; "CrimeCount"; "ViolentCount"] /\
    Frame.wf lc /\
    columns lc !! "latitude" = Some (Float64 (fst <$> keys)) /\
    columns lc !! "longitude" = Some (Float64 (snd <$> keys)) /\
    (forall i la lo, lat !! i = Some la -> lon !! i = Some lo ->
       key_notnull (la, lo) = true -> matches (la, lo) keys = 1%nat) /\
    (forall k, k ∈ keys ->
       key_notnull k = true /\
       (exists i la lo, lat !! i = Some la /\ lon !! i = Some lo /\
                        key_eqb k (la, lo) = true) /\
       (exists i, lat !! i = Some k.1 /\
          forall i' x, (i' < i)%nat -> lat !! i' = Some x ->
                       PrimFloat.eqb x k.1 = false) /\
       (exists i, lon !! i = Some k.2 /\
          forall i' x, (i' < i)%nat -> lon !! i' = Some x ->
                       PrimFloat.eqb x k.2 = false)) /\
    (keys = [] <-> forall i la lo, lat !! i = Some la -> lon !! i = Some lo ->
                     key_notnull (la, lo) = false).
Proof.
  intros Hwf Hlat Hlon Hpt Hviol.
  set (rows := incidents lat lon (notnull pt) viol).
  exists (aggregate_by lat lon (notnull pt) viol), (sorted_keys lat lon rows).
  pose proof (Hwf _ _ Hlat) as Llat. pose proof (Hwf _ _ Hlon) as Llon.
  pose proof (Hwf _ _ Hpt) as Lpt. pose proof (Hwf _ _ Hviol) as Lviol.
  pose proof (notnull_length pt) as Lnn.
  unfold Frame.nrows in *. simpl in Llat, Llon, Lviol.
  assert (forall i la lo, lat !! i = Some la -> lon !! i = Some lo ->
            key_notnull (la, lo) = true ->
            exists b v, In ((la, lo), (b, v)) rows) as Hin.
  { intros i la lo Hla Hlo Hn.
    pose proof (lookup_lt_Some _ _ _ Hla) as Hi.
    destruct (lookup_lt_is_Some_2 (notnull pt) i ltac:(lia)) as [b Hb].
    destruct (lookup_lt_is_Some_2 viol i ltac:(lia)) as [v Hv].
    exists b, v. now apply (incidents_lookup lat lon _ viol i). }
  assert (forall k, k ∈ sorted_keys lat lon rows ->
            key_notnull k = true /\
            exists i la lo, lat !! i = Some la /\ lon !! i = Some lo /\
                            key_eqb k (la, lo) = true) as Hkeys.
  { intros k Hk. apply list_elem_of_In in Hk.
    apply (sorted_keys_In float_coord_laws float_coord_laws) in Hk
      as (r & Hr & _ & Hkr).
    split; [exact (key_eqb_notnull float_coord_laws float_coord_laws _ _ Hkr)|].
    unfold rows, incidents in Hr. apply filter_In in Hr as [Hr _].
    apply list_elem_of_In, list_elem_of_lookup in Hr as [i Hi].
    rewrite !lookup_zip_with in Hi.
    destruct (lat !! i) as [la|] eqn:Ela; [|discriminate].
    destruct (lon !! i) as [lo|] eqn:Elo; [|discriminate].
    exists i, la, lo. simpl in Hi.
    destruct (notnull pt !! i); [|discriminate].
    destruct (viol !! i); [|discriminate]. simpl in Hi. injection Hi as <-.
    simpl in Hkr. auto. }
  split; [unfold aggregate, Frame.getitem; now rewrite Hlat, Hlon, Hpt, Hviol|].
  unfold aggregate_by. fold rows. cbn [index columns].
  split; [reflexivity|]. split.
  { rewrite !dom_insert_L, dom_empty_L. cbn [list_to_set]. apply set_eq. intros c.
    rewrite !elem_of_union, !elem_of_singleton, elem_of_empty. tauto. }
  split.
  { intros c col Hc. unfold Frame.nrows. cbn [columns index] in *.
    rewrite length_fmap, length_seq.
    repeat (apply lookup_insert_Some in Hc as [[_ <-]|[_ Hc]];
            [simpl; now rewrite length_fmap|]).
    now rewrite lookup_empty in Hc. }
  split; [by simplify_map_eq|]. split; [by simplify_map_eq|].
  split; [|split].
  - intros i la lo Hla Hlo Hn. destruct (Hin i la lo Hla Hlo Hn) as (b & v & Hr).
    exact (matches_sorted_keys float_coord_laws float_coord_laws
             lat lon (notnull pt) viol _ Hr).
  - intros k Hk. destruct (Hkeys k Hk) as [Hn Hrow].
    split; [exact Hn|]. split; [exact Hrow|].
    apply list_elem_of_In in Hk.
    exact (sorted_keys_first float_coord_laws float_coord_laws
             lat lon (notnull pt) viol k Hk).
  - split.
    + intros Hnil i la lo Hla Hlo. destruct (key_notnull (la, lo)) eqn:Hn; [|reflexivity].
      destruct (Hin i la lo Hla Hlo Hn) as (b & v & Hr).
      pose proof (matches_sorted_keys float_coord_laws float_coord_laws
                    lat lon (notnull pt) viol _ Hr) as Hm.
      cbv zeta in Hm. fold rows in Hm. rewrite Hnil in Hm. discriminate.
    + intros Hnone. destruct (sorted_keys lat lon rows) as [|k ks] eqn:E; [reflexivity|].
      destruct (Hkeys k ltac:(left)) as (Hn & i & la & lo & Hla & Hlo & Hk).
      apply (key_eqb_symm float_coord_laws float_coord_laws) in Hk.
      apply (key_eqb_notnull float_coord_laws float_coord_laws) in Hk.
      rewrite (Hnone i _ _ Hla Hlo) in Hk. discriminate.
Qed.

(** *** The aggregate of a list of records *)

Section Records.

Context {A B : Type} `{Coord A} `{Coord B}.
Hypothesis laws_A : coord_laws A.
Hypothesis laws_B : coord_laws B.
Variable fa : record -> A.
Variable fb : record -> B.

(** The aggregate of the records [K], all of them located: its index
    and columns, one group for every record, the totals and the counts
    of every row. *)
Lemma aggregate_by_records (K : list record) :
  Forall (fun r => key_notnull (fa r, fb r) = true) K ->
  let rows := incident_of fa fb <$> K in
  let keys := sorted_keys (fa <$> K) (fb <$> K) rows in
  let cc := (fun k => count (group k rows)) <$> keys in
  let vc := (fun k => sum (group k rows)) <$> keys in
  aggregate_by (fa <$> K) (fb <$> K)
    (notnull (Object ((fun r : record => r !! "primary_type") <$> K)))
    (is_violent <$> K)
  = mkFrame (range_index (List.length keys))
      (<["ViolentCount" := Int64 vc]>
       (<["CrimeCount" := Int64 cc]>
       (<["longitude" := coord_column (snd <$> keys)]>
       (<["latitude" := coord_column (fst <$> keys)]> ∅)))) /\
  List.length cc = List.length keys /\
  List.length vc = List.length keys /\
  (forall r, r ∈ K -> matches (fa r, fb r) keys = 1%nat) /\
  foldr Z.add 0 cc
    = Z.of_nat (List.length
        (List.filter (fun r : record => bool_decide (is_Some (r !! "primary_type"))) K)) /\
  foldr Z.add 0 vc
    = Z.of_nat (List.length
        (List.filter (fun r : record => bool_decide (is_violent r = 1)) K)) /\
  (forall i c v, cc !! i = Some c -> vc !! i = Some v ->
     0 <= v <= c /\
     (Forall (fun r : record => is_Some (r !! "primary_type")) K -> 1 <= c)).
Proof.
  intros HK rows keys cc vc.
  pose proof (incidents_of_records fa fb K HK) as Hrows. fold rows in Hrows.
  split.
  { unfold aggregate_by. rewrite Hrows. reflexivity. }
  split; [apply length_fmap|]. split; [apply length_fmap|].
  pose proof (aggregate_by_totals laws_A laws_B (fa <$> K) (fb <$> K)
                (notnull (Object ((fun r : record => r !! "primary_type") <$> K)))
                (is_violent <$> K)) as Htot.
  cbv zeta in Htot. rewrite Hrows in Htot. destruct Htot as [Hc Hs].
  split; [|split; [|split]].
  - intros r Hr.
    pose proof (matches_sorted_keys laws_A laws_B (fa <$> K) (fb <$> K)
                  (notnull (Object ((fun r : record => r !! "primary_type") <$> K)))
                  (is_violent <$> K) (incident_of fa fb r)) as Hm.
    cbv zeta in Hm. rewrite Hrows in Hm. apply Hm.
    apply list_elem_of_In, list_elem_of_fmap. eauto.
  - fold keys cc in Hc. rewrite Hc. apply count_incident_of.
  - fold keys vc in Hs. rewrite Hs. apply sum_incident_of.
  - intros i c v Hc' Hv'.
    apply list_lookup_fmap_Some in Hc' as (k & -> & Hk).
    apply list_lookup_fmap_Some in Hv' as (k' & -> & Hk').
    assert (k' = k) as -> by congruence.
    pose proof (aggregate_by_counts laws_A laws_B (fa <$> K) (fb <$> K)
                  ((fun r : record => r !! "primary_type") <$> K)
                  (is_violent <$> K)) as Hcnt.
    cbv zeta in Hcnt. rewrite Hrows in Hcnt.
    destruct (Hcnt (eq_sym (is_violent_column K)) k) as [Hb Hone].
    { apply list_elem_of_In, list_elem_of_lookup. eauto. }
    split; [exact Hb|]. intros Htyped. apply Hone.
    apply Forall_fmap. exact Htyped.
Qed.

End Records.

Section Feed.
Variable parse_numeric : string -> option numeral.
Variable parse_datetime : string -> string -> option Z.

Local Abbreviation kept := (ETL.kept parse_numeric).
Local Abbreviation float_of := (ETL.float_of parse_numeric).
Local Abbreviation int_of := (ETL.int_of parse_numeric).
Local Abbreviation all_int := (ETL.all_int parse_numeric).

(** *** The whole ETL notebook *)

(** The aggregation of the frame the normaliser returns, for each
    dtype of the two coordinate columns. *)
Lemma aggregate_normalized (results : list record) ts h d :
  let K := List.filter kept results in
  let present := notnull (Object ((fun r : record => r !! "primary_type") <$> K)) in
  let viol := is_violent <$> K in
  aggregate (normalized parse_numeric results ts h d) =
  Ok (match all_int "latitude" results, all_int "longitude" results with
      | true, true =>
          aggregate_by (int_of "latitude" <$> K) (int_of "longitude" <$> K) present viol
      | true, false =>
          aggregate_by (int_of "latitude" <$> K) (float_of "longitude" <$> K) present viol
      | false, true =>
          aggregate_by (float_of "latitude" <$> K) (int_of "longitude" <$> K) present viol
      | false, false =>
          aggregate_by (float_of "latitude" <$> K) (float_of "longitude" <$> K) present viol
      end).
Proof.
  cbv zeta. unfold aggregate, Frame.getitem, normalized, coordinate. cbn [columns].
  repeat lookup_insert_step. cbn [mbind result_bind].
  repeat lookup_insert_step. cbn [mbind result_bind].
  repeat lookup_insert_step. cbn [mbind result_bind].
  repeat lookup_insert_step. cbn [mbind result_bind].
  destruct (all_int "latitude" results), (all_int "longitude" results); reflexivity.
Qed.

Lemma kept_Forall (results : list record) :
  Forall (fun r => kept r = true) (List.filter kept results).
Proof.
  apply Forall_forall. intros r Hr. now apply list_elem_of_In, filter_In in Hr as [_ Hr].
Qed.

(** The records kept have a location, whatever the dtypes of the
    coordinate columns. *)
Lemma kept_located {A B} `{Coord A} `{Coord B} (fa : record -> A) (fb : record -> B)
    (results : list record) :
  (forall r, kept r = true -> coord_notnull (fa r) = true) ->
  (forall r, kept r = true -> coord_notnull (fb r) = true) ->
  Forall (fun r => key_notnull (fa r, fb r) = true) (List.filter kept results).
Proof.
  intros Ha Hb. eapply Forall_impl; [apply kept_Forall|].
  intros r Hr. unfold key_notnull. simpl. now rewrite (Ha r Hr), (Hb r Hr).
Qed.

Lemma kept_latitude r : kept r = true -> F64.notnull (float_of "latitude" r) = true.
Proof. unfold ETL.kept. now intros [? _]%andb_true_iff. Qed.

Lemma kept_longitude r : kept r = true -> F64.notnull (float_of "longitude" r) = true.
Proof. unfold ETL.kept. now intros [_ ?]%andb_true_iff. Qed.

(** C9: on the incidents the normaliser makes from a feed whose
    records have their primary_type, the aggregator returns, and every
    row it produces has CrimeCount >= 1 and 0 <= ViolentCount <=
    CrimeCount, whether the coordinate columns are float64 or int64.
    CrimeCount counts the incidents of the group and ViolentCount sums
    their 0/1 indicator: over all rows the CrimeCounts add up to the
    number of incidents and the ViolentCounts to the number of
    incidents of a violent type. *)
Theorem aggregate_feed_counts (results : list record) (nf : DataFrame) :
  normalize parse_numeric parse_datetime results = Ok nf ->
  Forall (fun r : record => kept r = true -> is_Some (r !! "primary_type")) results ->
  let K := List.filter kept results in
  exists lc cc vc,
    aggregate nf = Ok lc /\
    columns lc !! "CrimeCount" = Some (Int64 cc) /\
    columns lc !! "ViolentCount" = Some (Int64 vc) /\
    List.length cc = Frame.nrows lc /\
    List.length vc = Frame.nrows lc /\
    foldr Z.add 0 cc = Z.of_nat (List.length K) /\
    foldr Z.add 0 vc
      = Z.of_nat (List.length
          (List.filter (fun r : record => bool_decide (is_violent r = 1)) K)) /\
    forall i c v, cc !! i = Some c -> vc !! i = Some v ->
      1 <= c /\ 0 <= v <= c.
Proof.
  intros (_ & _ & h & d & _ & _ & ->)%normalize_inv Htyped K. subst K.
  set (K := List.filter kept results).
  assert (Forall (fun r : record => is_Some (r !! "primary_type")) K) as HKt.
  { apply Forall_forall. intros r Hr%list_elem_of_In%filter_In.
    destruct Hr as [Hr Hk]. rewrite Forall_forall in Htyped.
    apply Htyped; [now apply list_elem_of_In | exact Hk]. }
  assert (List.filter (fun r : record => bool_decide (is_Some (r !! "primary_type"))) K = K)
    as HKf.
  { apply filter_all. eapply Forall_impl; [exact HKt|].
    intros r Hr. now apply bool_decide_eq_true. }
  rewrite aggregate_normalized. fold K.
  assert (forall {A B} `{Coord A} `{Coord B} (fa : record -> A) (fb : record -> B),
            coord_laws A -> coord_laws B ->
            (forall r, kept r = true -> coord_notnull (fa r) = true) ->
            (forall r, kept r = true -> coord_notnull (fb r) = true) ->
            exists lc cc vc,
              Ok (aggregate_by (fa <$> K) (fb <$> K)
                    (notnull (Object ((fun r : record => r !! "primary_type") <$> K)))
                    (is_violent <$> K)) = Ok lc /\
              columns lc !! "CrimeCount" = Some (Int64 cc) /\
              columns lc !! "ViolentCount" = Some (Int64 vc) /\
              List.length cc = Frame.nrows lc /\
              List.length vc = Frame.nrows lc /\
              foldr Z.add 0 cc = Z.of_nat (List.length K) /\
              foldr Z.add 0 vc
                = Z.of_nat (List.length
                    (List.filter (fun r : record => bool_decide (is_violent r = 1)) K)) /\
              forall i c v, cc !! i = Some c -> vc !! i = Some v ->
                1 <= c /\ 0 <= v <= c) as Hcase.
  { intros A B CA CB fa fb LA LB Ha Hb.
    destruct (aggregate_by_records LA LB fa fb K (kept_located fa fb results Ha Hb))
      as (Hlc & Lcc & Lvc & _ & Hc & Hv & Hrow).
    eexists _, _, _. split; [rewrite Hlc; reflexivity|].
    cbn [columns]. split; [reflexivity|]. split; [reflexivity|].
    unfold Frame.nrows. cbn [index]. rewrite RecombineFacts.range_index_length.
    split; [exact Lcc|]. split; [exact Lvc|].
    split; [etransitivity; [exact Hc|]; now rewrite HKf|]. split; [exact Hv|].
    intros i c v Hci Hvi. destruct (Hrow i c v Hci Hvi) as [Hb' Hone].
    split; [exact (Hone HKt) | exact Hb']. }
  destruct (all_int "latitude" results), (all_int "longitude" results).
  - apply Hcase; [apply int_coord_laws | apply int_coord_laws | reflexivity | reflexivity].
  - apply Hcase; [apply int_coord_laws | apply float_coord_laws | reflexivity
                 | apply kept_longitude].
  - apply Hcase; [apply float_coord_laws | apply int_coord_laws | apply kept_latitude
                 | reflexivity].
  - apply Hcase; [apply float_coord_laws | apply float_coord_laws | apply kept_latitude
                 | apply kept_longitude].
Qed.

(** X20. From the feed to the labelled aggregates, for a feed whose
    coordinate columns come out as float64 (not every latitude and not
    every longitude of the feed is an integer literal): when the
    normaliser accepts the feed, aggregation and labelling go through.
    The result has the default index and the five columns; every kept
    record is at the location of exactly one row; the CrimeCounts add
    up to the number of kept records that have a primary_type and the
    ViolentCounts to the number of those of a violent type; every Risk
    is 0 or 1. *)
Theorem etl_location_counts (results : list record) (nf : DataFrame) :
  normalize parse_numeric parse_datetime results = Ok nf ->
  all_int "latitude" results = false ->
  all_int "longitude" results = false ->
  let K := List.filter kept results in
  exists out keys cc vc risk,
    aggregate_and_label nf = Ok out /\
    index out = range_index (List.length keys) /\
    columns out
      = <["Risk" := Int64 risk]>
         (<["ViolentCount" := Int64 vc]>
         (<["CrimeCount" := Int64 cc]>
         (<["longitude" := Float64 (snd <$> keys)]>
         (<["latitude" := Float64 (fst <$> keys)]> ∅)))) /\
    List.length cc = List.length keys /\
    List.length vc = List.length keys /\
    List.length risk = List.length keys /\
    (forall r, r ∈ K ->
       matches (float_of "latitude" r, float_of "longitude" r) keys = 1%nat) /\
    foldr Z.add 0 cc
      = Z.of_nat (List.length
          (List.filter (fun r : record => bool_decide (is_Some (r !! "primary_type"))) K)) /\
    foldr Z.add 0 vc
      = Z.of_nat (List.length
          (List.filter (fun r : record => bool_decide (is_violent r = 1)) K)) /\
    Forall (fun x => x = 0 \/ x = 1) risk.
Proof.
  intros (_ & _ & h & d & _ & _ & ->)%normalize_inv Hlat Hlon K. subst K.
  set (K := List.filter kept results).
  pose proof (aggregate_normalized results
                (date_of parse_numeric parse_datetime results <$> K) h d) as Hagg.
  cbv zeta in Hagg. rewrite Hlat, Hlon in Hagg. fold K in Hagg.
  destruct (aggregate_by_records float_coord_laws float_coord_laws
              (float_of "latitude") (float_of "longitude") K
              (@kept_located float float float_coord float_coord
                 (float_of "latitude") (float_of "longitude") results
                 kept_latitude kept_longitude))
    as (Hlc & Lcc & Lvc & Hone & Hc & Hv & _).
  rewrite Hlc in Hagg.
  set (rows := incident_of (float_of "latitude") (float_of "longitude") <$> K) in *.
  set (keys := sorted_keys (float_of "latitude" <$> K) (float_of "longitude" <$> K) rows) in *.
  set (cc := (fun k => count (group k rows)) <$> keys) in *.
  set (vc := (fun k => sum (group k rows)) <$> keys) in *.
  set (lc := mkFrame _ _) in Hagg.
  pose proof (LabelFacts.label_risk_run lc cc ltac:(reflexivity)) as Hlab.
  set (risk := List.map _ _) in Hlab.
  exists (Frame.setitem lc "Risk" (Series.astype_int risk)), keys, cc, vc,
    ((fun b : bool => if b then 1 else 0) <$> risk).
  split; [unfold aggregate_and_label; rewrite Hagg; exact Hlab|].
  split; [reflexivity|]. split; [reflexivity|].
  split; [exact Lcc|]. split; [exact Lvc|].
  split; [unfold risk; rewrite length_fmap, length_map, length_fmap; exact Lcc|].
  split; [exact Hone|]. split; [exact Hc|]. split; [exact Hv|].
  apply Forall_fmap, Forall_forall. intros [] _; simpl; auto.
Qed.

End Feed.

Lemma aggregate_totals_witness :
  exists lc cc vc,
    aggregate Examples.one_location_frame = Ok lc /\
    columns lc !! "CrimeCount" = Some (Int64 cc) /\
    columns lc !! "ViolentCount" = Some (Int64 vc) /\
    foldr Z.add 0 cc = 3 /\ foldr Z.add 0 vc = 2.
Proof.
  destruct (aggregate_totals Examples.one_location_frame
              [41.5; 41.5; 41.5]%float [(-87.5); (-87.5); (-87.5)]%float
              [Some "THEFT"; Some "ROBBERY"; Some "BATTERY"])
    as (lc & cc & vc & viol & Hviol & _ & Hrun & Hcc & Hvc & Hc & Hv & _);
    [reflexivity | reflexivity | reflexivity | reflexivity |].
  injection Hviol as <-.
  exists lc, cc, vc. repeat split; assumption.
Defined.

Lemma aggregate_locations_witness :
  exists lc keys,
    aggregate Examples.one_location_frame = Ok lc /\
    index lc = range_index (List.length keys) /\
    Frame.wf lc /\
    matches (41.5, -87.5)%float keys = 1%nat.
Proof.
  destruct (aggregate_locations Examples.one_location_frame
              [41.5; 41.5; 41.5]%float [(-87.5); (-87.5); (-87.5)]%float
              (Object [Some "THEFT"; Some "ROBBERY"; Some "BATTERY"]) [0; 1; 1])
    as (lc & keys & Hrun & Hidx & _ & Hwf & _ & _ & Hone & _).
  - apply (bool_decide_unpack _). vm_compute. exact I.
  - reflexivity.
  - reflexivity.
  - reflexivity.
  - reflexivity.
  - exists lc, keys. repeat split; try assumption.
    apply (Hone 0%nat); reflexivity.
Defined.

Lemma aggregate_feed_counts_witness :
  exists nf lc,
    normalize Examples.parse_numeric_sample Examples.parse_datetime_sample Examples.integer_records = Ok nf /\
    aggregate nf = Ok lc /\
    columns lc !! "latitude" = Some (Int64 [-87; 41]) /\
    columns lc !! "CrimeCount" = Some (Int64 [1; 2]) /\
    columns lc !! "ViolentCount" = Some (Int64 [1; 1]).
Proof.
  destruct (normalize Examples.parse_numeric_sample Examples.parse_datetime_sample Examples.integer_records) as [nf | e] eqn:Hrun;
    [| vm_compute in Hrun; discriminate Hrun].
  destruct (aggregate_feed_counts Examples.parse_numeric_sample Examples.parse_datetime_sample Examples.integer_records nf Hrun)
    as (lc & cc & vc & Hagg & _).
  { repeat constructor; intros _; eexists; reflexivity. }
  exists nf, lc. split; [reflexivity|]. split; [exact Hagg|].
  vm_compute in Hrun. injection Hrun as <-.
  vm_compute in Hagg. injection Hagg as <-.
  repeat split; reflexivity.
Defined.

Lemma etl_location_counts_witness :
  exists nf out cc,
    normalize Examples.parse_numeric_sample Examples.parse_datetime_sample Examples.raw_records = Ok nf /\
    aggregate_and_label nf = Ok out /\
    columns out !! "CrimeCount" = Some (Int64 cc) /\
    foldr Z.add 0 cc = 1.
Proof.
  destruct (normalize Examples.parse_numeric_sample Examples.parse_datetime_sample Examples.raw_records) as [nf | e] eqn:Hrun;
    [| vm_compute in Hrun; discriminate Hrun].
  destruct (etl_location_counts Examples.parse_numeric_sample Examples.parse_datetime_sample Examples.raw_records nf Hrun)
    as (out & keys & cc & vc & risk & H1 & _ & H2 & _ & _ & _ & _ & H3 & _);
    [reflexivity | reflexivity |].
  exists nf, out, cc. split; [reflexivity|]. split; [exact H1|].
  split; [rewrite H2; reflexivity|]. rewrite H3. reflexivity.
Defined.

End LocationFacts.

(** ** The labeler run again *)

Module RelabelFacts.
Import Series ETL MaskFacts.

(** X22. Labelling a labelled frame again returns it unchanged: the
    Risk column is computed from CrimeCount alone and replaces the one
    that is there. The labeler keeps the index and every other column,
    Risk holds 0 and 1 only, and a frame without a CrimeCount column is
    rejected with [KeyError]. *)
Theorem label_risk_rerun (lc : DataFrame) :
  (forall out, label_risk lc = Ok out ->
     label_risk out = Ok out /\
     index out = index lc /\
     dom (columns out) = dom (columns lc) ∪ {["Risk"]} /\
     (forall c, c <> "Risk" -> columns out !! c = columns lc !! c) /\
     exists risk, columns out !! "Risk" = Some (Int64 risk) /\
                  Forall (fun x => x = 0 \/ x = 1) risk) /\
  (columns lc !! "CrimeCount" = None -> label_risk lc = Raise (KeyError "CrimeCount")).
Proof.
  split.
  - intros out H. unfold label_risk in H.
    apply result_bind_inv in H as (cc & Hcc & H).
    apply result_bind_inv in H as (m & Hm & H).
    apply result_bind_inv in H as (cc' & Hcc' & H).
    apply result_bind_inv in H as (above & Hab & H).
    injection H as <-.
    rewrite Hcc in Hcc'. injection Hcc' as <-.
    split.
    + unfold label_risk, Frame.getitem, Frame.setitem in *. cbn [columns].
      rewrite lookup_insert_ne by discriminate.
      destruct (columns lc !! "CrimeCount") as [c|]; [|discriminate].
      injection Hcc as ->. cbn [mbind result_bind].
      rewrite Hm. cbn [mbind result_bind]. rewrite Hab. cbn [mbind result_bind].
      now rewrite insert_insert_eq.
    + split; [reflexivity|]. cbn [Frame.setitem columns]. split.
      { rewrite dom_insert_L. apply set_eq. intros c.
        rewrite !elem_of_union, elem_of_singleton. tauto. }
      split; [intros c Hc; now rewrite lookup_insert_ne|].
      eexists. split; [apply lookup_insert_eq|].
      apply Forall_fmap, Forall_forall. intros [] _; simpl; auto.
  - intros H. unfold label_risk, Frame.getitem. now rewrite H.
Qed.

Lemma label_risk_rerun_witness :
  exists out,
    label_risk Examples.features_frame = Ok out /\ label_risk out = Ok out /\
    label_risk Examples.empty_raw_frame = Raise (KeyError "CrimeCount").
Proof.
  destruct (label_risk Examples.features_frame) as [out | e] eqn:Hrun;
    [| vm_compute in Hrun; discriminate Hrun].
  destruct (label_risk_rerun Examples.features_frame) as [H _].
  destruct (H out Hrun) as [H1 _].
  destruct (label_risk_rerun Examples.empty_raw_frame) as [_ H2].
  exists out. split; [reflexivity|]. split; [exact H1 | apply H2; reflexivity].
Defined.

End RelabelFacts.
